(** * schedule-sync: a shallow embedding of the scrape / normalize /
    reconcile / publish pipeline of [sync.py], [sync_radicale.py] and
    [sync_nextcloud.py].

    Text is modelled as [list ascii] (ASCII only); the character classes
    [\d] and [\s] of Python's [re] and [str.isspace] are the ASCII ones. *)

From Stdlib Require Import ZArith Lia Ascii String.
From stdpp Require Import base gmap sets list strings.

Local Open Scope Z_scope.

Abbreviation lstr := (list ascii).

(* ------------------------------------------------------------------ *)
(** ** Characters and Python string helpers *)

Definition is_digit (c : ascii) : bool :=
  (48 <=? nat_of_ascii c)%nat && (nat_of_ascii c <=? 57)%nat.

Definition is_digit19 (c : ascii) : bool :=
  (49 <=? nat_of_ascii c)%nat && (nat_of_ascii c <=? 57)%nat.

(** [str.isspace] on ASCII: \t \n \v \f \r, \x1c-\x1f and the space. *)
Definition is_space (c : ascii) : bool :=
  let n := nat_of_ascii c in
  ((9 <=? n)%nat && (n <=? 13)%nat) || ((28 <=? n)%nat && (n <=? 32)%nat).

Definition digit_val (c : ascii) : Z := Z.of_nat (nat_of_ascii c) - 48.

(** [str.lower] on ASCII. *)
Definition lower_char (c : ascii) : ascii :=
  let n := nat_of_ascii c in
  if (65 <=? n)%nat && (n <=? 90)%nat then ascii_of_nat (n + 32) else c.

Definition lower (s : string) : string :=
  string_of_list_ascii (map lower_char (list_ascii_of_string s)).

Definition ceq (c d : ascii) : bool := Ascii.eqb c d.

Fixpoint span_ws (l : lstr) : lstr * lstr :=
  match l with
  | c :: r => if is_space c then let '(w, r') := span_ws r in (c :: w, r') else ([], l)
  | [] => ([], [])
  end.

Fixpoint span_digits (l : lstr) : lstr * lstr :=
  match l with
  | c :: r => if is_digit c then let '(w, r') := span_digits r in (c :: w, r') else ([], l)
  | [] => ([], [])
  end.

(** [s.split(sep)] with an explicit one-character separator: every
    occurrence splits, empty pieces are kept. *)
Fixpoint split_on (sep : ascii) (l : lstr) : list lstr :=
  match l with
  | [] => [[]]
  | c :: r =>
      let parts := split_on sep r in
      if ceq c sep then [] :: parts
      else match parts with
           | p :: ps => (c :: p) :: ps
           | [] => [[c]]
           end
  end.

(** [s.strip()] *)
Definition strip (l : lstr) : lstr :=
  rev (snd (span_ws (rev (snd (span_ws l))))).

(* ------------------------------------------------------------------ *)
(** ** Python datetimes *)

Record NaiveDT := mkNaive {
  dt_year : Z; dt_month : Z; dt_day : Z;
  dt_hour : Z; dt_minute : Z; dt_second : Z }.

(** A value of a DTSTART/DTEND property: a [date], a naive [datetime] or
    an aware [datetime] (zone name and UTC offset in minutes). *)
Inductive PyTime :=
| PDate (y m d : Z)
| PNaive (n : NaiveDT)
| PAware (n : NaiveDT) (tzname : string) (utcoffset : Z).

(** Days since 1970-01-01 of a proleptic Gregorian date. *)
Definition days_from_civil (y m d : Z) : Z :=
  let y' := if m <=? 2 then y - 1 else y in
  let era := y' / 400 in
  let yoe := y' - era * 400 in
  let mp := (m + 9) mod 12 in
  let doy := (153 * mp + 2) / 5 + d - 1 in
  let doe := yoe * 365 + yoe / 4 - yoe / 100 + doy in
  era * 146097 + doe - 719468.

Definition to_seconds (n : NaiveDT) : Z :=
  days_from_civil (dt_year n) (dt_month n) (dt_day n) * 86400
  + dt_hour n * 3600 + dt_minute n * 60 + dt_second n.

(** [date.weekday()]: Monday is 0. *)
Definition weekday (y m d : Z) : Z := (days_from_civil y m d + 3) mod 7.

Definition naive_eqb (a b : NaiveDT) : bool :=
  (dt_year a =? dt_year b) && (dt_month a =? dt_month b) && (dt_day a =? dt_day b)
  && (dt_hour a =? dt_hour b) && (dt_minute a =? dt_minute b)
  && (dt_second a =? dt_second b).

(** The UTC instant of an aware datetime, in seconds. *)
Definition instant (n : NaiveDT) (off : Z) : Z := to_seconds n - off * 60.

(** Python's [==] on these values: aware datetimes compare as instants,
    a naive and an aware datetime are unequal, and a [date] never equals
    a [datetime]. *)
Definition py_time_eqb (a b : PyTime) : bool :=
  match a, b with
  | PDate y m d, PDate y' m' d' => (y =? y') && (m =? m') && (d =? d')
  | PNaive n, PNaive n' => naive_eqb n n'
  | PAware n _ o, PAware n' _ o' => instant n o =? instant n' o'
  | _, _ => false
  end.

(** [pytz.timezone('US/Eastern').localize(dt)] (default [is_dst=False])
    under the rules in force since 2007: daylight time from the second
    Sunday of March, 03:00 local, to the first Sunday of November, 01:00
    local. The skipped hour and the repeated hour both resolve to
    standard time, as [is_dst=False] does. Offsets in minutes. *)
Definition second_sunday_march (y : Z) : Z := 8 + (6 - weekday y 3 1) mod 7.
Definition first_sunday_november (y : Z) : Z := 1 + (6 - weekday y 11 1) mod 7.

Definition us_eastern_utcoffset (n : NaiveDT) : Z :=
  let y := dt_year n in let m := dt_month n in
  let d := dt_day n in let h := dt_hour n in
  let s := second_sunday_march y in let e := first_sunday_november y in
  let after_start := (3 <? m) || ((m =? 3) && ((s <? d) || ((d =? s) && (3 <=? h)))) in
  let before_end := (m <? 11) || ((m =? 11) && ((d <? e) || ((d =? e) && (h <? 1)))) in
  if after_start && before_end then -240 else -300.

Definition localize_eastern (n : NaiveDT) : PyTime :=
  PAware n "US/Eastern" (us_eastern_utcoffset n).

(* ------------------------------------------------------------------ *)
(** ** [datetime.strptime(s, "%a %b %d %Y %I:%M %p")]

    [_strptime] compiles the format to the regular expression
    [(?i)(mon|tue|..)\s+(jan|..)\s+(3[01]|[12]\d|0[1-9]|[1-9]| [1-9])\s+
    (\d\d\d\d)\s+(1[0-2]|0[1-9]|[1-9]):([0-5]\d|\d)\s+(am|pm)], matched
    at the start, and rejects unconverted trailing data. Each alternative
    below is followed by a token that rules out the others, so taking the
    first alternative that matches gives the regex's result. The
    alternative [ [1-9]] (leading space) never applies after the greedy
    [\s+]. *)

Definition parser (A : Type) := lstr -> option (A * lstr).

Definition pbind {A B} (p : parser A) (f : A -> parser B) : parser B :=
  fun l => match p l with Some (a, r) => f a r | None => None end.

Definition ws1 : parser unit :=
  fun l => match span_ws l with
           | ([], _) => None
           | (_, r) => Some (tt, r)
           end.

Fixpoint index_of (x : lstr) (xs : list lstr) (i : Z) : option Z :=
  match xs with
  | [] => None
  | y :: ys => if decide (x = y) then Some i else index_of x ys (i + 1)
  end.

Definition weekday_abbrs : list lstr :=
  map list_ascii_of_string ["mon"; "tue"; "wed"; "thu"; "fri"; "sat"; "sun"]%string.
Definition month_abbrs : list lstr :=
  map list_ascii_of_string
    ["jan"; "feb"; "mar"; "apr"; "may"; "jun"; "jul"; "aug"; "sep"; "oct"; "nov"; "dec"]%string.

(** %a and %b: three letters, case-insensitively. *)
Definition parse_name (names : list lstr) : parser Z :=
  fun l => match l with
           | a :: b :: c :: r =>
               match index_of (map lower_char [a; b; c]) names 0 with
               | Some i => Some (i, r)
               | None => None
               end
           | _ => None
           end.

Definition parse_d : parser Z :=
  fun l => match l with
           | a :: b :: r =>
               if ceq a "3" && (ceq b "0" || ceq b "1") then Some (30 + digit_val b, r)
               else if (ceq a "1" || ceq a "2") && is_digit b then Some (10 * digit_val a + digit_val b, r)
               else if ceq a "0" && is_digit19 b then Some (digit_val b, r)
               else if is_digit19 a then Some (digit_val a, b :: r)
               else None
           | [a] => if is_digit19 a then Some (digit_val a, []) else None
           | [] => None
           end.

Definition parse_Y : parser Z :=
  fun l => match l with
           | a :: b :: c :: d :: r =>
               if is_digit a && is_digit b && is_digit c && is_digit d
               then Some (1000 * digit_val a + 100 * digit_val b + 10 * digit_val c + digit_val d, r)
               else None
           | _ => None
           end.

Definition parse_I : parser Z :=
  fun l => match l with
           | a :: b :: r =>
               if ceq a "1" && (ceq b "0" || ceq b "1" || ceq b "2") then Some (10 + digit_val b, r)
               else if ceq a "0" && is_digit19 b then Some (digit_val b, r)
               else if is_digit19 a then Some (digit_val a, b :: r)
               else None
           | [a] => if is_digit19 a then Some (digit_val a, []) else None
           | [] => None
           end.

Definition parse_M : parser Z :=
  fun l => match l with
           | a :: b :: r =>
               if (48 <=? nat_of_ascii a)%nat && (nat_of_ascii a <=? 53)%nat && is_digit b
               then Some (10 * digit_val a + digit_val b, r)
               else if is_digit a then Some (digit_val a, b :: r)
               else None
           | [a] => if is_digit a then Some (digit_val a, []) else None
           | [] => None
           end.

Definition parse_colon : parser unit :=
  fun l => match l with
           | c :: r => if ceq c ":" then Some (tt, r) else None
           | [] => None
           end.

(** %p: [true] for PM. *)
Definition parse_p : parser bool :=
  fun l => match l with
           | a :: b :: r =>
               let ab := map lower_char [a; b] in
               if decide (ab = list_ascii_of_string "am") then Some (false, r)
               else if decide (ab = list_ascii_of_string "pm") then Some (true, r)
               else None
           | _ => None
           end.

(** "%a %b %d %Y": weekday (parsed, then ignored as [_strptime] does once
    the date is known), month, day, year. *)
Definition parse_date_part : parser (Z * Z * Z) :=
  pbind (parse_name weekday_abbrs) (fun _ =>
  pbind ws1 (fun _ =>
  pbind (parse_name month_abbrs) (fun mi =>
  pbind ws1 (fun _ =>
  pbind parse_d (fun d =>
  pbind ws1 (fun _ =>
  pbind parse_Y (fun y =>
  fun r => Some ((y, mi + 1, d), r)))))))).

(** " %I:%M %p", giving the 24-hour clock. *)
Definition parse_time_part : parser (Z * Z) :=
  pbind ws1 (fun _ =>
  pbind parse_I (fun i =>
  pbind parse_colon (fun _ =>
  pbind parse_M (fun mi =>
  pbind ws1 (fun _ =>
  pbind parse_p (fun pm =>
  fun r => Some (((if pm then 12 else 0) + (if i =? 12 then 0 else i), mi), r))))))).

Definition is_leap (y : Z) : bool :=
  (y mod 4 =? 0) && (negb (y mod 100 =? 0) || (y mod 400 =? 0)).

Definition days_in_month (y m : Z) : Z :=
  if m =? 2 then (if is_leap y then 29 else 28)
  else if (m =? 4) || (m =? 6) || (m =? 9) || (m =? 11) then 30 else 31.

(** [None] is the [ValueError] of [strptime]. *)
Definition strptime (s : string) : option NaiveDT :=
  match parse_date_part (list_ascii_of_string s) with
  | Some ((y, mo, d), r) =>
      match parse_time_part r with
      | Some ((h, mi), []) =>
          if (1 <=? y) && (d <=? days_in_month y mo) then Some (mkNaive y mo d h mi 0)
          else None
      | _ => None
      end
  | None => None
  end.

(* ------------------------------------------------------------------ *)
(** ** The time-range regular expression of the rich-schema extractor

    [re.search(r'(\d{1,2}:\d{2}\s*[AP]M)\s*-\s*(\d{1,2}:\d{2}\s*[AP]M)\s*(\d+\.\d+)?', s)].
    At a given start position the match is deterministic: [\d{1,2}]
    followed by [:] leaves one choice, each [\s*] is followed by a
    non-space token, and once group 2 matched the rest always succeeds,
    the optional group 3 being tried first. *)

(** [\d{1,2}:]: the hour digits and the text after the colon. *)
Definition match_hour (l : lstr) : option (lstr * lstr) :=
  match l with
  | a :: b :: r =>
      if is_digit a then
        if is_digit b then
          match r with
          | c :: r' => if ceq c ":" then Some ([a; b], r') else None
          | [] => None
          end
        else if ceq b ":" then Some ([a], r) else None
      else None
  | _ => None
  end.

(** [\d{1,2}:\d{2}\s*[AP]M]: the group text and the rest. *)
Definition match_clock (l : lstr) : option (lstr * lstr) :=
  match match_hour l with
  | Some (h, d1 :: d2 :: r) =>
      if is_digit d1 && is_digit d2 then
        let '(w, r1) := span_ws r in
        match r1 with
        | ap :: m :: r2 =>
            if (ceq ap "A" || ceq ap "P") && ceq m "M"
            then Some (h ++ ":"%char :: d1 :: d2 :: w ++ [ap; m], r2)
            else None
        | _ => None
        end
      else None
  | _ => None
  end.

(** [(\d+\.\d+)?] after the greedy [\s*]. *)
Definition match_length (l : lstr) : option lstr :=
  let '(d, r) := span_digits l in
  match d, r with
  | _ :: _, c :: r' =>
      if ceq c "." then
        match fst (span_digits r') with
        | [] => None
        | e => Some (d ++ c :: e)
        end
      else None
  | _, _ => None
  end.

Definition time_regex_at (l : lstr) : option (lstr * lstr * option lstr) :=
  match match_clock l with
  | Some (g1, r1) =>
      match snd (span_ws r1) with
      | c :: r2 =>
          if ceq c "-" then
            match match_clock (snd (span_ws r2)) with
            | Some (g2, r3) => Some (g1, g2, match_length (snd (span_ws r3)))
            | None => None
            end
          else None
      | [] => None
      end
  | None => None
  end.

(** [re.search]: the leftmost position where the pattern matches. *)
Fixpoint time_regex_search (l : lstr) : option (lstr * lstr * option lstr) :=
  match time_regex_at l with
  | Some m => Some m
  | None => match l with
            | [] => None
            | _ :: r => time_regex_search r
            end
  end.

(* ------------------------------------------------------------------ *)
(** ** [re.sub(r'\s*\[.*?\]', '', time_range)]

    At a position the pattern takes the whole run of white space, then a
    [[], then the shortest run of characters other than a newline up to
    the first []]. Fewer spaces never help, since a space is not [[]. *)

Fixpoint find_close (l : lstr) : option lstr :=
  match l with
  | [] => None
  | c :: r => if ceq c "]" then Some r
              else if ceq c (ascii_of_nat 10) then None
              else find_close r
  end.

Definition match_annotation (l : lstr) : option lstr :=
  match snd (span_ws l) with
  | c :: r => if ceq c "[" then find_close r else None
  | [] => None
  end.

(** Matches are removed left to right; characters where no match starts
    are copied. Every match consumes at least two characters, so
    [length l] steps suffice. *)
Fixpoint sub_annotations_fuel (fuel : nat) (l : lstr) : lstr :=
  match fuel with
  | O => l
  | S fuel' =>
      match l with
      | [] => []
      | c :: r =>
          match match_annotation l with
          | Some rest => sub_annotations_fuel fuel' rest
          | None => c :: sub_annotations_fuel fuel' r
          end
      end
  end.

Definition clean_time_range (time_range : string) : string :=
  let l := list_ascii_of_string time_range in
  string_of_list_ascii (sub_annotations_fuel (length l) l).

(* ------------------------------------------------------------------ *)
(** ** Calendar events *)

(** A VEVENT as built by [create_icalendar_event]: SUMMARY, DTSTART,
    DTEND, UID, DTSTAMP. The [.ics] file written for it is modelled by the
    VEVENT itself: reading the file back gives the same property values. *)
Record VEvent := mkVEvent {
  ev_summary : string;
  ev_dtstart : PyTime;
  ev_dtend : PyTime;
  ev_uid : string;
  ev_dtstamp : PyTime }.

(** Python exceptions that matter to the control flow. *)
Inductive PyExn :=
| IndexError        (* date_part[3], time_part[1] *)
| ValueError        (* strptime *)
| AttributeError    (* component.get('dtstart').dt on a missing property *)
| ParseError        (* Calendar.from_ical *)
| FileNotFoundError (* open / os.remove *)
| TransportError.   (* requests / caldav calls raising *)

Inductive result (A : Type) := Ok (a : A) | Raise (e : PyExn).
Arguments Ok {A} a.
Arguments Raise {A} e.

Definition sapp (a b : string) : string := String.append a b.

Definition pad2 (n : Z) : string :=
  string_of_list_ascii [ascii_of_nat (Z.to_nat (48 + n / 10)); ascii_of_nat (Z.to_nat (48 + n mod 10))].

(** [dt.strftime('%I:%M %p')] *)
Definition strftime_clock (n : NaiveDT) : string :=
  let h := dt_hour n mod 12 in
  sapp (pad2 (if h =? 0 then 12 else h))
       (sapp ":" (sapp (pad2 (dt_minute n)) (sapp " " (if dt_hour n <? 12 then "AM" else "PM")))).

(** [date_part = date_str.split(' ')] and
    [f"{date_part[0]} {date_part[1]} {date_part[2]} {date_part[3]}"]. *)
Definition date_formatted (date_str : string) : result lstr :=
  match split_on " " (list_ascii_of_string date_str) with
  | a :: b :: c :: d :: _ => Ok (a ++ [" "%char] ++ b ++ [" "%char] ++ c ++ [" "%char] ++ d)
  | _ => Raise IndexError
  end.

(** [f"{date_formatted} {clock}"] parsed with [strptime]. *)
Definition parse_local (df clock : lstr) : result NaiveDT :=
  match strptime (string_of_list_ascii (df ++ " "%char :: clock)) with
  | Some n => Ok n
  | None => Raise ValueError
  end.

(* ------------------------------------------------------------------ *)
(** ** Effects: files, uuids, requests

    The run's world: the [individual_events] directory, the number of
    [uuid.uuid4()] calls made so far, and the publishing requests sent
    to the remote store. *)

Inductive Request :=
| PutIcs (name : string) (ev : VEvent)          (* requests.put(URL + basename, ...) *)
| AddEvent (calendar : string) (ev : VEvent).   (* caldav calendar.add_event(...) *)

Record World := mkWorld {
  w_files : gmap string VEvent;
  w_uuids : nat;
  w_requests : list Request }.

Definition M (A : Type) := World -> result A * World.

Definition ret {A} (a : A) : M A := fun w => (Ok a, w).
Definition raise {A} (e : PyExn) : M A := fun w => (Raise e, w).
Definition bind {A B} (m : M A) (k : A -> M B) : M B :=
  fun w => match m w with
           | (Ok a, w') => k a w'
           | (Raise e, w') => (Raise e, w')
           end.
Definition lift {A} (r : result A) : M A := fun w => (r, w).

(** [try: m except Exception: h(e)] *)
Definition try_except {A} (m : M A) (h : PyExn -> M A) : M A :=
  fun w => match m w with
           | (Raise e, w') => h e w'
           | r => r
           end.

Notation "x <-- m ;; k" := (bind m (fun x => k))
  (at level 100, m at next level, right associativity).

Definition write_file (p : string) (ev : VEvent) : M unit :=
  fun w => (Ok tt, mkWorld (<[p := ev]> (w_files w)) (w_uuids w) (w_requests w)).

Definition read_file (p : string) : M VEvent :=
  fun w => match w_files w !! p with
           | Some ev => (Ok ev, w)
           | None => (Raise FileNotFoundError, w)
           end.

Definition path_exists (p : string) : M bool :=
  fun w => (Ok (bool_decide (is_Some (w_files w !! p))), w).

(** [os.remove] *)
Definition remove_file (p : string) : M unit :=
  fun w => match w_files w !! p with
           | Some _ => (Ok tt, mkWorld (delete p (w_files w)) (w_uuids w) (w_requests w))
           | None => (Raise FileNotFoundError, w)
           end.

(** The transport: whether sending [r] ([requests.put] or
    [calendar.add_event]) raises, given the requests delivered before. *)
Definition Transport := list Request -> Request -> bool.

(** A request that raises is not delivered. *)
Definition send (net : Transport) (r : Request) : M unit :=
  fun w => if net (w_requests w) r then (Raise TransportError, w)
           else (Ok tt, mkWorld (w_files w) (w_uuids w) (w_requests w ++ [r])).

(** [os.path.join('individual_events', f"{uid}.ics")] *)
Definition ics_path (uid : string) : string :=
  sapp "individual_events/" (sapp uid ".ics").

(** [os.path.basename]: the text after the last '/'. *)
Definition basename (p : string) : string :=
  match last (split_on "/" (list_ascii_of_string p)) with
  | Some b => string_of_list_ascii b
  | None => p
  end.

(* ------------------------------------------------------------------ *)
(** ** The remote index (the [existing_events] dict) *)

(** A VEVENT of the remote store; a missing property is [None]. *)
Record RemoteVEvent := mkRemote {
  r_dtstart : option PyTime;
  r_dtend : option PyTime;
  r_summary : option string }.

(** [(dtstart, dtend, summary)]; the summary is [None] when the remote
    VEVENT has none ([component.get('summary')]). *)
Abbreviation EventKey := (PyTime * PyTime * option string)%type.

Definition opt_str_eqb (a b : option string) : bool :=
  match a, b with
  | Some x, Some y => String.eqb x y
  | None, None => true
  | _, _ => false
  end.

(** Python's [==] on the key tuple. *)
Definition key_eqb (a b : EventKey) : bool :=
  let '(s, e, m) := a in let '(s', e', m') := b in
  py_time_eqb s s' && py_time_eqb e e' && opt_str_eqb m m'.

(** The dict, in insertion order. *)
Abbreviation Index := (list (EventKey * RemoteVEvent)).

(** [existing_events[event_key] = ...]: an equal key keeps its place. *)
Fixpoint dict_set (idx : Index) (k : EventKey) (v : RemoteVEvent) : Index :=
  match idx with
  | [] => [(k, v)]
  | (k', v') :: r => if key_eqb k' k then (k', v) :: r else (k', v') :: dict_set r k v
  end.

Definition component_key (c : RemoteVEvent) : result EventKey :=
  match r_dtstart c, r_dtend c with
  | Some s, Some e => Ok (s, e, r_summary c)
  | _, _ => Raise AttributeError
  end.

(** The loop over the VEVENTs of one parsed calendar; stops at the first
    component whose key cannot be read, keeping what was added. *)
Fixpoint add_components (idx : Index) (cs : list RemoteVEvent) : Index * option PyExn :=
  match cs with
  | [] => (idx, None)
  | c :: cs' =>
      match component_key c with
      | Ok k => add_components (dict_set idx k c) cs'
      | Raise e => (idx, Some e)
      end
  end.

(** Radicale: one WebDAV GET of the collection. [None] stands for
    [requests.get] raising. *)
Record HttpResponse := mkResponse {
  status_code : Z;
  body_vevents : option (list RemoteVEvent);  (* None: not parseable *)
  body_hrefs : list string }.                  (* the <href> values *)

Record RadicaleServer := mkRadicale {
  get_collection : option HttpResponse;
  get_member : string -> option HttpResponse }.

Fixpoint rad_fetch_members (srv : RadicaleServer) (idx : Index) (hrefs : list string) : result Index :=
  match hrefs with
  | [] => Ok idx
  | h :: hs =>
      match get_member srv (string_of_list_ascii (strip (list_ascii_of_string h))) with
      | None => Raise TransportError
      | Some r =>
          if status_code r =? 200 then
            match body_vevents r with
            | None => Raise ParseError
            | Some cs =>
                match add_components idx cs with
                | (idx', None) => rad_fetch_members srv idx' hs
                | (_, Some e) => Raise e
                end
            end
          else rad_fetch_members srv idx hs
      end
  end.

(** [retrieve_existing_events] of [sync_radicale.py]. *)
Definition rad_retrieve_existing_events (srv : RadicaleServer) : result Index :=
  match get_collection srv with
  | None => Raise TransportError
  | Some resp =>
      if (status_code resp =? 200) || (status_code resp =? 207) then
        if status_code resp =? 200 then
          match body_vevents resp with
          | None => Raise ParseError
          | Some cs =>
              match add_components [] cs with
              | (idx, None) => Ok idx
              | (_, Some e) => Raise e
              end
          end
        else rad_fetch_members srv [] (body_hrefs resp)
      else Ok []   (* logging.error(...); return {} *)
  end.

(** Nextcloud (CalDAV): the principal's calendars, [None] when the
    client calls raise. Each calendar object holds the VEVENTs of one
    parsed iCalendar text, [None] when [Calendar.from_ical] fails. *)
Record Collection := mkCollection {
  cal_name : string;
  cal_objects : option (list (option (list RemoteVEvent))) }.

Abbreviation DavServer := (option (list Collection)).

(** [for calendar in calendars: if calendar.name.lower() == 'personal'.lower(): ... break] *)
Fixpoint find_personal (cals : list Collection) : option Collection :=
  match cals with
  | [] => None
  | c :: cs => if String.eqb (lower (cal_name c)) (lower "personal") then Some c else find_personal cs
  end.

(** The per-object [try ... except Exception: logging.error]. *)
Fixpoint nc_add_objects (idx : Index) (objs : list (option (list RemoteVEvent))) : Index :=
  match objs with
  | [] => idx
  | o :: os =>
      let idx' := match o with
                  | None => idx
                  | Some cs => fst (add_components idx cs)
                  end in
      nc_add_objects idx' os
  end.

(** [retrieve_existing_events] of [sync_nextcloud.py]. *)
Definition nc_retrieve_existing_events (srv : DavServer) : result Index :=
  match srv with
  | None => Raise TransportError
  | Some cals =>
      match find_personal cals with
      | None => Ok []
      | Some c =>
          match cal_objects c with
          | None => Raise TransportError
          | Some objs => Ok (nc_add_objects [] objs)
          end
      end
  end.

(* ------------------------------------------------------------------ *)
(** ** Normalization, reconciliation, publishing *)

Record RadEntry := mkRadEntry { re_date : string; re_time_range : string; re_details : string }.

Record RawShiftNC := mkRawShiftNC {
  rs_date : string; rs_start_time : string; rs_end_time : string;
  rs_details : string; rs_shift_length : option string }.

Inductive RunEnd := Completed | Aborted (e : PyExn).

Section Pipeline.

(** [uuid.uuid4()] as the n-th value of a supply, [datetime.utcnow()] and
    [str(int(time.time()))] during the run. *)
Variable uuid4 : nat -> string.
Variable utcnow : NaiveDT.
Variable unix_time : string.

Definition uuid4_call : M string :=
  fun w => (Ok (uuid4 (w_uuids w)), mkWorld (w_files w) (S (w_uuids w)) (w_requests w)).

(** [create_icalendar_event] of [sync_nextcloud.py]. *)
Definition nc_create_icalendar_event (date_str start_time_str end_time_str details : string)
    (shift_length : option string) : M VEvent :=
  df <-- lift (date_formatted date_str) ;;
  start_time <-- lift (parse_local df (list_ascii_of_string start_time_str)) ;;
  end_time <-- lift (parse_local df (list_ascii_of_string end_time_str)) ;;
  u <-- uuid4_call ;;
  let details' :=
    if String.eqb details "No details available" then
      match shift_length with
      | Some sl => if String.eqb sl "" then "" else sapp sl " hrs"
      | None => ""
      end
    else details in
  let event_summary := sapp (strftime_clock start_time) (sapp " - " (strftime_clock end_time)) in
  let event_summary := if String.eqb details' "" then event_summary
                       else sapp event_summary (sapp ": " details') in
  ret (mkVEvent event_summary (localize_eastern start_time) (localize_eastern end_time)
                (sapp u "@mydomain.com") (PNaive utcnow)).

(** [create_icalendar_event] of [sync_radicale.py]. *)
Definition rad_create_icalendar_event (date_str time_range details : string) : M VEvent :=
  let time_part := split_on "-" (list_ascii_of_string time_range) in
  df <-- lift (date_formatted date_str) ;;
  match time_part with
  | t0 :: t1 :: _ =>
      start_time <-- lift (parse_local df (strip t0)) ;;
      end_time <-- lift (parse_local df (strip t1)) ;;
      u <-- uuid4_call ;;
      ret (mkVEvent details (localize_eastern start_time) (localize_eastern end_time)
                    (sapp u "@mydomain.com") (PNaive utcnow))
  | _ => raise IndexError
  end.

(** [create_icalendar_event] of [sync.py]. *)
Definition sync_create_icalendar_event (date_str time_range details : string) : M VEvent :=
  let time_part := split_on "-" (list_ascii_of_string time_range) in
  df <-- lift (date_formatted date_str) ;;
  match time_part with
  | t0 :: t1 :: _ =>
      start_time <-- lift (parse_local df (strip t0)) ;;
      end_time <-- lift (parse_local df (strip t1)) ;;
      u1 <-- uuid4_call ;;
      u2 <-- uuid4_call ;;
      ret (mkVEvent details (localize_eastern start_time) (localize_eastern end_time)
                    (sapp u1 (sapp "-" (sapp unix_time (sapp "-" (sapp u2 "@mydomain.com")))))
                    (PNaive utcnow))
  | _ => raise IndexError
  end.

(** [create_individual_ics_files] of [sync_radicale.py]: no handler, the
    first failing entry aborts the loop. *)
Fixpoint rad_create_individual_ics_files (schedule_data : list RadEntry) : M (list string) :=
  match schedule_data with
  | [] => ret []
  | entry :: rest =>
      event <-- rad_create_icalendar_event (re_date entry) (re_time_range entry) (re_details entry) ;;
      let p := ics_path (ev_uid event) in
      _ <-- write_file p event ;;
      ps <-- rad_create_individual_ics_files rest ;;
      ret (p :: ps)
  end.

(** [create_individual_ics_files] of [sync.py]: the same loop. *)
Fixpoint sync_create_individual_ics_files (schedule_data : list RadEntry) : M (list string) :=
  match schedule_data with
  | [] => ret []
  | entry :: rest =>
      event <-- sync_create_icalendar_event (re_date entry) (re_time_range entry) (re_details entry) ;;
      let p := ics_path (ev_uid event) in
      _ <-- write_file p event ;;
      ps <-- sync_create_individual_ics_files rest ;;
      ret (p :: ps)
  end.

(** [create_individual_ics_files] of [sync_nextcloud.py]: each entry in
    its own [try ... except Exception]. *)
Fixpoint nc_create_individual_ics_files (schedule_data : list RawShiftNC) : M (list string) :=
  match schedule_data with
  | [] => ret []
  | entry :: rest =>
      p0 <-- try_except
               (event <-- nc_create_icalendar_event (rs_date entry) (rs_start_time entry)
                            (rs_end_time entry) (rs_details entry) (rs_shift_length entry) ;;
                let p := ics_path (ev_uid event) in
                _ <-- write_file p event ;;
                ret [p])
               (fun _ => ret []) ;;
      ps <-- nc_create_individual_ics_files rest ;;
      ret (p0 ++ ps)
  end.

End Pipeline.

(** The key of a new event as read back from its file. *)
Definition new_event_key (ev : VEvent) : EventKey :=
  (ev_dtstart ev, ev_dtend ev, Some (ev_summary ev)).

(** The inner loop over [existing_events.keys()]: is there an equal key? *)
Definition matches_existing (ev : VEvent) (existing_events : Index) : bool :=
  existsb (fun kv => key_eqb (new_event_key ev) (fst kv)) existing_events.

(** [compare_and_handle_existing] (identical in [sync_radicale.py] and
    [sync_nextcloud.py]). *)
Fixpoint compare_and_handle_existing (events_to_upload : list string) (existing_events : Index) : M unit :=
  match events_to_upload with
  | [] => ret tt
  | event_filename :: rest =>
      new_event <-- read_file event_filename ;;
      _ <-- (if matches_existing new_event existing_events then remove_file event_filename else ret tt) ;;
      compare_and_handle_existing rest existing_events
  end.

(** [upload_to_radicale_individual_files]: PUT every file still present
    (the response status is only logged); [requests.put] is not guarded,
    so a request that raises ends the loop. *)
Fixpoint upload_to_radicale_individual_files (net : Transport) (ics_filenames : list string) : M unit :=
  match ics_filenames with
  | [] => ret tt
  | ics_file :: rest =>
      b <-- path_exists ics_file ;;
      _ <-- (if b then ev <-- read_file ics_file ;; send net (PutIcs (basename ics_file) ev) else ret tt) ;;
      upload_to_radicale_individual_files net rest
  end.

(** The loop of [upload_to_nextcloud_individual_files] of
    [sync_nextcloud.py]: [calendar.add_event] in its own
    [try ... except Exception: logging.error(...)]. *)
Fixpoint nc_add_files (net : Transport) (cal : Collection) (ics_filenames : list string) : M unit :=
  match ics_filenames with
  | [] => ret tt
  | ics_file :: rest =>
      b <-- path_exists ics_file ;;
      _ <-- (if b then ev <-- read_file ics_file ;;
                       try_except (send net (AddEvent (cal_name cal) ev)) (fun _ => ret tt)
             else ret tt) ;;
      nc_add_files net cal rest
  end.

(** [upload_to_nextcloud_individual_files] of [sync_nextcloud.py]: a new
    [DAVClient], whose [principal().calendars()] is not guarded ([None]:
    those calls raise), then the loop on the 'personal' calendar. *)
Definition nc_upload_to_nextcloud_individual_files (net : Transport) (srv : DavServer) (ics_filenames : list string) : M unit :=
  match srv with
  | None => raise TransportError
  | Some cals =>
      match find_personal cals with
      | None => ret tt   (* logging.error(...); return *)
      | Some cal => nc_add_files net cal ics_filenames
      end
  end.

(** [upload_to_nextcloud_individual_files] of [sync.py]: PUT every file;
    neither [open] nor [requests.put] is guarded. *)
Fixpoint sync_upload_to_nextcloud_individual_files (net : Transport) (ics_filenames : list string) : M unit :=
  match ics_filenames with
  | [] => ret tt
  | ics_file :: rest =>
      ev <-- read_file ics_file ;;
      _ <-- send net (PutIcs (basename ics_file) ev) ;;
      sync_upload_to_nextcloud_individual_files net rest
  end.

(** [main]: [try: ... except Exception as e: logging.error(...)]. *)
Definition run_main (body : M unit) : M RunEnd :=
  try_except (_ <-- body ;; ret Completed) (fun e => ret (Aborted e)).

(** [scraped] is the outcome of [login_to_microsoft] then [scrape_schedule]. *)
Definition rad_main uuid4 utcnow (net : Transport) (srv : RadicaleServer) (scraped : result (list RadEntry)) : M RunEnd :=
  run_main (
    existing_events <-- lift (rad_retrieve_existing_events srv) ;;
    schedule_data <-- lift scraped ;;
    ics_filenames <-- rad_create_individual_ics_files uuid4 utcnow schedule_data ;;
    _ <-- compare_and_handle_existing ics_filenames existing_events ;;
    upload_to_radicale_individual_files net ics_filenames).

(** [srv] is the calendar listing of the client of
    [retrieve_existing_events], [srv_up] that of the new client of the
    upload step. *)
Definition nc_main uuid4 utcnow (net : Transport) (srv srv_up : DavServer) (scraped : result (list RawShiftNC)) : M RunEnd :=
  run_main (
    existing_events <-- lift (nc_retrieve_existing_events srv) ;;
    schedule_data <-- lift scraped ;;
    ics_filenames <-- nc_create_individual_ics_files uuid4 utcnow schedule_data ;;
    _ <-- compare_and_handle_existing ics_filenames existing_events ;;
    nc_upload_to_nextcloud_individual_files net srv_up ics_filenames).

Definition sync_main uuid4 utcnow unix_time (net : Transport) (scraped : result (list RadEntry)) : M RunEnd :=
  run_main (
    schedule_data <-- lift scraped ;;
    ics_filenames <-- sync_create_individual_ics_files uuid4 utcnow unix_time schedule_data ;;
    sync_upload_to_nextcloud_individual_files net ics_filenames).

(* ------------------------------------------------------------------ *)
(** ** [scrape_schedule] of [sync_nextcloud.py] (rich schema) *)

(** The outcome of a Selenium lookup: the element's text (or elements),
    [NoSuchElementException], or another exception. *)
Inductive Lookup (A : Type) := Found (a : A) | NoSuchElement | LookupFailed.
Arguments Found {A} a.
Arguments NoSuchElement {A}.
Arguments LookupFailed {A}.

(** A shift wrapper ([div.scheduleEntityWrapper, div.shiftPosition]): its
    [p.props, time.label] text and its [p.label] text. *)
Record ShiftBlock := mkShift { sb_time : Lookup string; sb_label : Lookup string }.

(** A day ([li.withDivider]): its [datetime] attribute ([Found] when
    [day.get_attribute] returns, otherwise the call raised), its wrappers
    ([day.find_elements]), and whether [capture_screenshot] succeeds when
    the day's handler calls it. *)
Record DayBlock := mkDay {
  day_date : Lookup string;
  day_shifts : Lookup (list ShiftBlock);
  day_screenshot_ok : bool }.

(** The initial wait for the day elements: a timeout (with whether the
    [except TimeoutException] handler, which takes a screenshot and
    writes the page source, runs through), another failure, or the days. *)
Inductive SchedulePage := PageTimeout (handler_ok : bool) | PageFailed | PageDays (days : list DayBlock).

Inductive LogLine := LogInfo (msg : string) | LogWarning (msg : string) | LogError (msg : string).

(** [(day_date, start_time_str, end_time_str, shift_details, shift_length)] *)
Abbreviation ShiftKey := (string * string * string * string * option string)%type.

Record ScrapeState := mkScrape {
  schedule_data : list RawShiftNC;
  seen_shifts : gset ShiftKey;
  scrape_log : list LogLine }.

Definition log_line (l : LogLine) (st : ScrapeState) : ScrapeState :=
  mkScrape (schedule_data st) (seen_shifts st) (scrape_log st ++ [l]).

(** The body of [for shift in shift_wrappers: try: ... except Exception].
    Every path ends in a state: no exception leaves the shift. *)
Definition process_shift (date : string) (st : ScrapeState) (shift : ShiftBlock) : ScrapeState :=
  match sb_time shift with
  | NoSuchElement => log_line (LogWarning (sapp "No time element found for shift on date " date)) st
  | LookupFailed => log_line (LogError (sapp "Error scraping shift details for date " date)) st
  | Found time_range =>
      match time_regex_search (list_ascii_of_string time_range) with
      | None => log_line (LogWarning (sapp "Could not parse time range: " time_range)) st
      | Some (g1, g2, g3) =>
          let start_time_str := string_of_list_ascii g1 in
          let end_time_str := string_of_list_ascii g2 in
          let shift_length := option_map string_of_list_ascii g3 in
          match sb_label shift with
          | LookupFailed => log_line (LogError (sapp "Error scraping shift details for date " date)) st
          | lbl =>
              let shift_details := match lbl with
                                   | Found t => t
                                   | _ => "No details available"
                                   end in
              let shift_key := (date, start_time_str, end_time_str, shift_details, shift_length) in
              if decide (shift_key ∈ seen_shifts st) then
                log_line (LogInfo (sapp "Duplicate shift found for date " date)) st
              else
                mkScrape (schedule_data st ++ [mkRawShiftNC date start_time_str end_time_str shift_details shift_length])
                         ({[shift_key]} ∪ seen_shifts st) (scrape_log st)
          end
      end
  end.

(** The per-day [except Exception] handler. [bound] is the value of the
    local [day_date], [None] while it is unbound: its f-string then
    raises [UnboundLocalError]. Otherwise the error is logged and
    [capture_screenshot] runs, which may raise. The result: the state,
    the binding of [day_date], and whether an exception leaves the
    handler (and so the day loop). *)
Definition day_except (st : ScrapeState) (bound : option string) (day : DayBlock)
    : ScrapeState * option string * bool :=
  match bound with
  | None => (st, None, true)
  | Some d =>
      (log_line (LogError (sapp "Error scraping shifts for date " d)) st, Some d, negb (day_screenshot_ok day))
  end.

(** The body of [for day in schedule_days: try: ... except Exception]. *)
Definition process_day (st : ScrapeState) (bound : option string) (day : DayBlock)
    : ScrapeState * option string * bool :=
  match day_date day with
  | Found d =>
      match day_shifts day with
      | Found shifts => (fold_left (process_shift d) shifts st, Some d, false)
      | _ => day_except st (Some d) day
      end
  | _ => day_except st bound day
  end.

(** The day loop; it stops when an exception leaves a day's handler. *)
Fixpoint scrape_days (st : ScrapeState) (bound : option string) (days : list DayBlock)
    : ScrapeState * option string * bool :=
  match days with
  | [] => (st, bound, false)
  | day :: rest =>
      match process_day st bound day with
      | (st', b', true) => (st', b', true)
      | (st', b', false) => scrape_days st' b' rest
      end
  end.

(** [schedule_data] and [seen_shifts] start empty on every call, and
    [day_date] is unbound. The result is [None] when an exception leaves
    [scrape_schedule] (one raised in the [except TimeoutException]
    handler); an exception leaving the day loop is caught by the outer
    [except Exception], which returns [[]]. *)
Definition nc_scrape_schedule (page : SchedulePage) : option (list RawShiftNC) * list LogLine :=
  match page with
  | PageTimeout ok => (if ok then Some [] else None, [LogError "Timeout while waiting for schedule elements."])
  | PageFailed => (Some [], [LogError "An error occurred"])
  | PageDays days =>
      match scrape_days (mkScrape [] ∅ []) None days with
      | (st, _, false) => (Some (schedule_data st), scrape_log st)
      | (st, _, true) => (Some [], scrape_log st ++ [LogError "An error occurred"])
      end
  end.

(* ------------------------------------------------------------------ *)
(** ** [safe_click] (identical in [sync.py] and [sync_nextcloud.py]) *)

(** What attempt number k meets: the element became clickable within the
    wait and the script click ran, the wait timed out, or the click
    raised; and whether reading [driver.current_url] in the handler works. *)
Inductive ClickOutcome := Clicked | WaitTimedOut | ClickRaised.

Record ClickEnv := mkClickEnv {
  attempt_outcome : nat -> ClickOutcome;
  url_readable : nat -> bool }.

Inductive DriverEffect :=
| WaitClickable (timeout : Z)   (* WebDriverWait(driver, timeout).until(...) *)
| ExecuteClick                  (* driver.execute_script("arguments[0].click();", ...) *)
| Sleep (secs : Z)              (* time.sleep(secs) *)
| ReadCurrentUrl.               (* driver.current_url *)

Inductive ClickEnd :=
| ClickReturned
| ClickExhausted (by_ value : string) (retries : nat)  (* raise Exception(f"... {by}='{value}' ... {retries} retries") *)
| UrlReadFailed.                                     (* the exception of driver.current_url *)

(** [for attempt in range(retries)], [todo] attempts left. *)
Fixpoint safe_click_loop (env : ClickEnv) (by_ value : string) (retries todo attempt : nat)
    : list DriverEffect * ClickEnd :=
  match todo with
  | O => ([], ClickExhausted by_ value retries)
  | S todo' =>
      let '(tried, ok) :=
        match attempt_outcome env attempt with
        | Clicked => ([WaitClickable 20; ExecuteClick], true)
        | WaitTimedOut => ([WaitClickable 20], false)
        | ClickRaised => ([WaitClickable 20; ExecuteClick], false)
        end in
      if ok then (tried, ClickReturned)
      else if url_readable env attempt then
        let '(t, r) := safe_click_loop env by_ value retries todo' (S attempt) in
        (tried ++ [Sleep 10; ReadCurrentUrl] ++ t, r)
      else (tried ++ [Sleep 10; ReadCurrentUrl], UrlReadFailed)
  end.

Definition safe_click (env : ClickEnv) (by_ value : string) (retries : nat) : list DriverEffect * ClickEnd :=
  safe_click_loop env by_ value retries retries 0.

(* ------------------------------------------------------------------ *)
(** ** [scrape_schedule] of [sync_radicale.py] and of [sync.py] (plain schema)

    Both read, for each day, its [datetime] attribute and its shift
    wrappers, and for each wrapper its [time.label] and [div.details]
    texts; the time range is cleaned with [clean_time_range]. *)

(** A wrapper: the [time.label] text and the [div.details] text. *)
Record PlainShift := mkPlainShift { ps_time : Lookup string; ps_details : Lookup string }.

(** A day: [day.get_attribute("datetime")] ([Found None] when the
    attribute is absent, [LookupFailed] when the call raises) and the
    result of [day.find_elements(...)] ([LookupFailed] when it raises). *)
Record PlainDay := mkPlainDay { pd_date : Lookup (option string); pd_shifts : Lookup (list PlainShift) }.

(** The wait for the schedule: a [TimeoutException], another exception
    (of [driver.get], of the page logging, ...), or the day elements. *)
Inductive PlainPage := PlainTimeout | PlainFailed | PlainDays (days : list PlainDay).

(** [{"date": ..., "time_range": ..., "details": ...}]; the date is
    [None] when the attribute was absent. *)
Record PlainEntry := mkPlainEntry { pe_date : option string; pe_time_range : string; pe_details : string }.

(** The exception that leaves a scraper. *)
Inductive ScrapeExn :=
| SeleniumTimeout         (* TimeoutException *)
| SeleniumNoSuchElement   (* NoSuchElementException of find_element *)
| SeleniumOther           (* any other exception of a driver call *)
| NoneAttributeError      (* None.split(...) *)
| NameErr (name : string). (* a name the module does not define *)

Definition lookup_exn {A} (l : Lookup A) : ScrapeExn + A :=
  match l with
  | Found a => inr a
  | NoSuchElement => inl SeleniumNoSuchElement
  | LookupFailed => inl SeleniumOther
  end.

(** [sync_radicale.py]. The handler of each day runs
    [traceback.format_exc()], and [traceback] is not imported: the
    handler raises [NameError], which leaves the day loop. The outer
    [try] then evaluates its first clause, [except TimeoutException], and
    [TimeoutException] is not imported either: the [NameError] for it
    leaves [scrape_schedule]. So any exception in the [try] ends the call
    with [NameError('TimeoutException')]; [None] below is such an
    exception. *)
Fixpoint rad_scrape_shifts (day_date : option string) (shifts : list PlainShift) : option (list PlainEntry) :=
  match shifts with
  | [] => Some []
  | shift :: rest =>
      match ps_time shift with
      | Found time_range =>
          match ps_details shift with
          | Found shift_details =>
              match rad_scrape_shifts day_date rest with
              | Some es => Some (mkPlainEntry day_date (clean_time_range time_range) shift_details :: es)
              | None => None
              end
          | _ => None
          end
      | _ => None
      end
  end.

Fixpoint rad_scrape_days (days : list PlainDay) : option (list PlainEntry) :=
  match days with
  | [] => Some []
  | day :: rest =>
      match pd_date day with
      | Found day_date =>
          match pd_shifts day with
          | Found shifts =>
              match rad_scrape_shifts day_date shifts with
              | Some es =>
                  match rad_scrape_days rest with
                  | Some es' => Some (es ++ es')
                  | None => None
                  end
              | None => None
              end
          | _ => None
          end
      | _ => None
      end
  end.

Definition rad_scrape_schedule (page : PlainPage) : ScrapeExn + list PlainEntry :=
  match page with
  | PlainDays days =>
      match rad_scrape_days days with
      | Some schedule_data => inr schedule_data
      | None => inl (NameErr "TimeoutException")
      end
  | _ => inl (NameErr "TimeoutException")
  end.

Fixpoint is_prefix (p l : lstr) : bool :=
  match p, l with
  | [], _ => true
  | a :: p', b :: l' => ceq a b && is_prefix p' l'
  | _ :: _, [] => false
  end.

(** [s.split(' GMT')[0]]: the text before the first " GMT". *)
Fixpoint before_gmt (l : lstr) : lstr :=
  match l with
  | [] => []
  | c :: r => if is_prefix (list_ascii_of_string " GMT") l then [] else c :: before_gmt r
  end.

(** [sync.py]: no handler; the first exception leaves [scrape_schedule]. *)
Fixpoint sync_scrape_shifts (day_date : string) (shifts : list PlainShift) : ScrapeExn + list PlainEntry :=
  match shifts with
  | [] => inr []
  | shift :: rest =>
      match lookup_exn (ps_time shift) with
      | inl e => inl e
      | inr time_range =>
          match lookup_exn (ps_details shift) with
          | inl e => inl e
          | inr shift_details =>
              match sync_scrape_shifts day_date rest with
              | inl e => inl e
              | inr es => inr (mkPlainEntry (Some day_date) (clean_time_range time_range) shift_details :: es)
              end
          end
      end
  end.

Fixpoint sync_scrape_days (days : list PlainDay) : ScrapeExn + list PlainEntry :=
  match days with
  | [] => inr []
  | day :: rest =>
      match lookup_exn (pd_date day) with
      | inl e => inl e
      | inr None => inl NoneAttributeError
      | inr (Some attr) =>
          let day_date := string_of_list_ascii (before_gmt (list_ascii_of_string attr)) in
          match lookup_exn (pd_shifts day) with
          | inl e => inl e
          | inr shifts =>
              match sync_scrape_shifts day_date shifts with
              | inl e => inl e
              | inr es =>
                  match sync_scrape_days rest with
                  | inl e => inl e
                  | inr es' => inr (es ++ es')
                  end
              end
          end
      end
  end.

Definition sync_scrape_schedule (page : PlainPage) : ScrapeExn + list PlainEntry :=
  match page with
  | PlainTimeout => inl SeleniumTimeout
  | PlainFailed => inl SeleniumOther
  | PlainDays days => sync_scrape_days days
  end.

(* ------------------------------------------------------------------ *)
(** ** Notions used to state the properties *)

(** The driver effects of attempt [k] of [safe_click] when it is not the
    last one performed. *)
Definition attempt_effects (env : ClickEnv) (k : nat) : list DriverEffect :=
  match attempt_outcome env k with
  | Clicked => [WaitClickable 20; ExecuteClick]
  | WaitTimedOut => [WaitClickable 20; Sleep 10; ReadCurrentUrl]
  | ClickRaised => [WaitClickable 20; ExecuteClick; Sleep 10; ReadCurrentUrl]
  end.

(** The key [process_shift] computes for a shift block, when it gets that far. *)
Definition shift_key_of (date : string) (shift : ShiftBlock) : option ShiftKey :=
  match sb_time shift with
  | Found time_range =>
      match time_regex_search (list_ascii_of_string time_range) with
      | Some (g1, g2, g3) =>
          match sb_label shift with
          | LookupFailed => None
          | lbl => Some (date, string_of_list_ascii g1, string_of_list_ascii g2,
                         match lbl with Found t => t | _ => "No details available" end,
                         option_map string_of_list_ascii g3)
          end
      | None => None
      end
  | _ => None
  end.


Definition entry_of_key (k : ShiftKey) : RawShiftNC :=
  let '(a, b, c, d, e) := k in mkRawShiftNC a b c d e.

(** Python's [dtstart < dtend] on two aware datetimes. *)
Definition dtstart_lt_dtend (ev : VEvent) : bool :=
  match ev_dtstart ev, ev_dtend ev with
  | PAware s _ o, PAware e _ o' => instant s o <? instant e o'
  | _, _ => false
  end.

Definition utc_offset (t : PyTime) : option Z :=
  match t with PAware _ _ o => Some o | _ => None end.

(** Minutes since local midnight of a datetime. *)
Definition clock_minutes (t : PyTime) : Z :=
  match t with
  | PAware n _ _ | PNaive n => dt_hour n * 60 + dt_minute n
  | PDate _ _ _ => 0
  end.

(** [t] is [US/Eastern]-localized on the calendar day [ymd], at a whole minute. *)
Definition eastern_on_day (t : PyTime) (ymd : Z * Z * Z) : Prop :=
  exists n, t = localize_eastern n /\ (dt_year n, dt_month n, dt_day n) = ymd /\ dt_second n = 0.

(** What the normalizer should give for a shift of the day [ymd]: start
    and end localized in [US/Eastern] on that day, and, when their UTC
    offsets agree, start before end exactly when the start clock time is
    earlier in the day. *)
Definition same_day_span (ev : VEvent) (ymd : Z * Z * Z) : Prop :=
  eastern_on_day (ev_dtstart ev) ymd /\ eastern_on_day (ev_dtend ev) ymd
  /\ (utc_offset (ev_dtstart ev) = utc_offset (ev_dtend ev) ->
      (dtstart_lt_dtend ev = true <-> clock_minutes (ev_dtstart ev) < clock_minutes (ev_dtend ev))).

(** The requests a publishing loop sends for the files [ps] of [fs] that
    do not match the index, in order; [mk] builds the request of a file. *)
Definition reconciled_requests (mk : string -> VEvent -> Request) (ps : list string)
    (idx : Index) (fs : gmap string VEvent) : list Request :=
  flat_map (fun p => match fs !! p with
                     | Some ev => if matches_existing ev idx then [] else [mk p ev]
                     | None => []
                     end) ps.

(** The requests of a publishing loop that sends every file of [ps]. *)
Definition all_requests (mk : string -> VEvent -> Request) (ps : list string)
    (fs : gmap string VEvent) : list Request :=
  flat_map (fun p => match fs !! p with Some ev => [mk p ev] | None => [] end) ps.

(** Sending the requests [rs] in order with no handler: the first one
    that raises ends the sequence. *)
Fixpoint send_all (net : Transport) (rs : list Request) : M unit :=
  match rs with
  | [] => ret tt
  | r :: rs' => _ <-- send net r ;; send_all net rs'
  end.

(** Sending the requests [rs] in order, each in its own
    [try ... except Exception]: one that raises is skipped. *)
Fixpoint send_each (net : Transport) (rs : list Request) : M unit :=
  match rs with
  | [] => ret tt
  | r :: rs' => _ <-- try_except (send net r) (fun _ => ret tt) ;; send_each net rs'
  end.

(** A transport under which no request raises. *)
Definition delivers (net : Transport) : Prop := forall h r, net h r = false.

(** The files left by [compare_and_handle_existing] when every read succeeds. *)
Definition reconcile_files (ps : list string) (idx : Index) (fs : gmap string VEvent) : gmap string VEvent :=
  fold_left (fun fs p => match fs !! p with
                         | Some ev => if matches_existing ev idx then delete p fs else fs
                         | None => fs
                         end) ps fs.

(** A monadic step that sends no request, whatever its outcome. *)
Definition keeps_requests {A} (m : M A) : Prop :=
  forall w, w_requests (snd (m w)) = w_requests w.

(** A monadic step that writes or removes no file, whatever its outcome. *)
Definition keeps_files {A} (m : M A) : Prop :=
  forall w, w_files (snd (m w)) = w_files w.

(** Two extractor states that agree on [schedule_data] and [seen_shifts]. *)
Definition same_entries (st1 st2 : ScrapeState) : Prop :=
  schedule_data st1 = schedule_data st2 /\ seen_shifts st1 = seen_shifts st2.

(** Two outcomes of the day loop that agree on the entries, on the
    binding of [day_date] and on whether an exception left the loop. *)
(** A piece [r w [t]] of a time text: [r] has no [[] and does not end in
    white space, [w] is white space, the annotation text [t] has no []]
    and no line break. *)
Definition piece_ok (x : lstr * lstr * lstr) : Prop :=
  let '(r, w, t) := x in
  Forall (fun c => c <> "["%char) r /\ (forall c, last r = Some c -> is_space c = false)
  /\ Forall (fun c => is_space c = true) w /\ Forall (fun c => c <> "]"%char /\ c <> ascii_of_nat 10) t.

Definition annotation_piece (x : lstr * lstr * lstr) : lstr :=
  let '(r, w, t) := x in r ++ w ++ "["%char :: t ++ ["]"%char].

Definition plain_piece (x : lstr * lstr * lstr) : lstr :=
  let '(r, _, _) := x in r.

Definition same_run (r1 r2 : ScrapeState * option string * bool) : Prop :=
  same_entries (fst (fst r1)) (fst (fst r2)) /\ snd (fst r1) = snd (fst r2) /\ snd r1 = snd r2.

(** Whether an exception leaves the day loop of [scrape_schedule] of
    [sync_nextcloud.py] on the days [days] (it then returns [[]]). *)
Definition day_loop_escapes (days : list DayBlock) : bool :=
  snd (scrape_days (mkScrape [] ∅ []) None days).


(** A datetime [strptime] can return: a real calendar day of years
    1-9999, a clock time of the day, whole minutes. *)
Definition valid_naive (n : NaiveDT) : Prop :=
  1 <= dt_year n <= 9999 /\ 1 <= dt_month n <= 12
  /\ 1 <= dt_day n <= days_in_month (dt_year n) (dt_month n)
  /\ 0 <= dt_hour n <= 23 /\ 0 <= dt_minute n <= 59 /\ dt_second n = 0.

(** The keys the index loop reads from the VEVENTs of one parsed
    calendar: those before the first VEVENT without DTSTART or DTEND. *)
Fixpoint leading_keys (cs : list RemoteVEvent) : list EventKey :=
  match cs with
  | [] => []
  | c :: cs' =>
      match component_key c with
      | Ok k => k :: leading_keys cs'
      | Raise _ => []
      end
  end.

(** The keys a Radicale 207 listing takes from one <href>: those of the
    member's VEVENTs when its GET answers 200 with a parseable body. *)
Definition member_keys (srv : RadicaleServer) (href : string) : list EventKey :=
  match get_member srv (string_of_list_ascii (strip (list_ascii_of_string href))) with
  | Some r =>
      if status_code r =? 200 then
        match body_vevents r with Some cs => leading_keys cs | None => [] end
      else []
  | None => []
  end.

(** The keys the Nextcloud index loop takes from the calendar objects. *)
Definition object_keys (objs : list (option (list RemoteVEvent))) : list EventKey :=
  flat_map (fun o => match o with Some cs => leading_keys cs | None => [] end) objs.

(** The paths of the files of the uuid values [ks]. *)
Definition uuid_paths (uuid4 : nat -> string) (ks : list nat) : list string :=
  map (fun k => ics_path (sapp (uuid4 k) "@mydomain.com")) ks.

(** A driver lookup that returned an element, a text or an attribute. *)
Definition found {A} (l : Lookup A) : Prop := exists a, l = Found a.

(** A wrapper whose [time.label] or [div.details] cannot be read. *)
Definition shift_read_fails (s : PlainShift) : Prop :=
  ~ found (ps_time s) \/ ~ found (ps_details s).

(** A day whose attribute or wrappers cannot be read, or with a wrapper
    that cannot be read. *)
Definition day_read_fails (d : PlainDay) : Prop :=
  ~ found (pd_date d) \/ ~ found (pd_shifts d)
  \/ exists ss s, pd_shifts d = Found ss /\ In s ss /\ shift_read_fails s.

(* ------------------------------------------------------------------ *)
(** ** Sample inputs *)

Definition gen (n : nat) : string := sapp "uuid-" (string_of_list_ascii [ascii_of_nat (48 + n)]).
Definition now0 : NaiveDT := mkNaive 2025 1 5 12 0 0.
Definition w0 : World := mkWorld ∅ 0 [].

Definition day_shift : RadEntry := mkRadEntry "Mon Jan 06 2025" "9:00 AM - 5:00 PM" "Front Desk".
(** A date label of three words: [date_str.split(' ')[3]] fails. *)
Definition short_label_shift : RadEntry := mkRadEntry "Mon Jan 06" "9:00 AM - 5:00 PM" "Front Desk".

(** A collection answering 401 (bad credentials). *)
Definition radicale_401 : RadicaleServer :=
  mkRadicale (Some (mkResponse 401 None [])) (fun _ => None).
Definition radicale_empty : RadicaleServer :=
  mkRadicale (Some (mkResponse 200 (Some []) [])) (fun _ => None).

Definition ev_day : VEvent :=
  mkVEvent "09:00 AM - 05:00 PM: Front Desk"
    (localize_eastern (mkNaive 2025 1 6 9 0 0)) (localize_eastern (mkNaive 2025 1 6 17 0 0))
    "uuid-0@mydomain.com" (PNaive now0).

Definition net_ok : Transport := fun _ _ => false.

Definition office_shift : ShiftBlock := mkShift (Found "9:00 AM - 5:00 PM") (Found "Front Desk").
Definition tbd_shift : ShiftBlock := mkShift (Found "TBD") (Found "Front Desk").

Definition day_path : string := ics_path "uuid-0@mydomain.com".
Definition rerun_path : string := ics_path "uuid-1@mydomain.com".
(** The same shift created again by a later run, under a new uid. *)
Definition ev_day_rerun : VEvent :=
  mkVEvent (ev_summary ev_day) (ev_dtstart ev_day) (ev_dtend ev_day) "uuid-1@mydomain.com" (PNaive now0).
(** The remote copy of [ev_day]. *)
Definition remote_day : RemoteVEvent :=
  mkRemote (Some (ev_dtstart ev_day)) (Some (ev_dtend ev_day)) (Some (ev_summary ev_day)).
Definition w_day : World := mkWorld {[day_path := ev_day]} 1 [].
Definition w_two : World := mkWorld (<[rerun_path := ev_day_rerun]> {[day_path := ev_day]}) 2 [].

Definition env_url_lost : ClickEnv := mkClickEnv (fun _ => WaitTimedOut) (fun _ => false).
Definition env_third_try : ClickEnv :=
  mkClickEnv (fun k => if (k =? 2)%nat then Clicked else ClickRaised) (fun _ => true).

(** A uuid supply that never repeats a value. *)
Definition serial_uuid (n : nat) : string := string_of_list_ascii (repeat "f"%char n).

Definition plain_office : PlainShift := mkPlainShift (Found "9:00 AM - 5:00 PM [Lunch]") (Found "Front Desk").
Definition plain_no_details : PlainShift := mkPlainShift (Found "9:00 AM - 5:00 PM") NoSuchElement.
Definition plain_day (attr : string) (shifts : list PlainShift) : PlainDay :=
  mkPlainDay (Found (Some attr)) (Found shifts).

(** A 207 listing of two members, one of them gone (404). *)
Definition remote_member : RemoteVEvent :=
  mkRemote (Some (ev_dtstart ev_day)) (Some (ev_dtend ev_day)) (Some "Other").
Definition radicale_207 : RadicaleServer :=
  mkRadicale (Some (mkResponse 207 None [" /cal/a.ics "; "/cal/gone.ics"]))
    (fun h => if String.eqb h "/cal/a.ics" then Some (mkResponse 200 (Some [remote_day; remote_member]) [])
              else Some (mkResponse 404 None [])).

(* ================================================================== *)
(** * Properties *)

(* ------------------------------------------------------------------ *)
(** ** Annotation stripping *)

Lemma span_ws_spaces_then (w : lstr) (c : ascii) (r : lstr) :
  Forall (fun x => is_space x = true) w -> is_space c = false ->
  span_ws (w ++ c :: r) = (w, c :: r).
Proof.
  intros Hw Hc. induction Hw as [|x w Hx Hw IH]; simpl.
  - now rewrite Hc.
  - now rewrite Hx, IH.
Qed.

Lemma find_close_first (t r : lstr) :
  Forall (fun c => c <> "]"%char /\ c <> ascii_of_nat 10) t ->
  find_close (t ++ "]"%char :: r) = Some r.
Proof.
  induction 1 as [|c t [H1 H2] Ht IH]; simpl; [reflexivity|].
  unfold ceq. destruct (Ascii.eqb_spec c "]"); [contradiction|].
  destruct (Ascii.eqb_spec c (ascii_of_nat 10)); [contradiction|]. exact IH.
Qed.

Lemma match_annotation_whole (w t r : lstr) :
  Forall (fun x => is_space x = true) w ->
  Forall (fun c => c <> "]"%char /\ c <> ascii_of_nat 10) t ->
  match_annotation (w ++ "["%char :: t ++ "]"%char :: r) = Some r.
Proof.
  intros Hw Ht. unfold match_annotation.
  rewrite span_ws_spaces_then by (exact Hw || reflexivity). simpl.
  now apply find_close_first.
Qed.

Lemma span_ws_stops (l rest : lstr) :
  (exists c, In c l /\ is_space c = false) ->
  exists x y, snd (span_ws (l ++ rest)) = x :: y /\ In x l.
Proof.
  induction l as [|a l IH]; intros [c [Hin Hc]]; [destruct Hin|].
  simpl. destruct (is_space a) eqn:Ea.
  - destruct Hin as [->|Hin]; [congruence|].
    destruct IH as [x [y [Hxy Hx]]]; [eauto|].
    destruct (span_ws (l ++ rest)) as [w r'] eqn:E. simpl in *.
    exists x, y. auto.
  - exists a, (l ++ rest). simpl. auto.
Qed.

Lemma match_annotation_none (l rest : lstr) :
  Forall (fun c => c <> "["%char) l ->
  (exists c, In c l /\ is_space c = false) ->
  match_annotation (l ++ rest) = None.
Proof.
  intros Hl Hex. unfold match_annotation.
  destruct (span_ws_stops l rest Hex) as [x [y [-> Hx]]].
  rewrite List.Forall_forall in Hl. specialize (Hl x Hx).
  unfold ceq. destruct (Ascii.eqb_spec x "["); [contradiction|reflexivity].
Qed.

Lemma span_ws_suffix (l : lstr) : exists w, l = w ++ snd (span_ws l).
Proof.
  induction l as [|c r IH]; simpl; [exists []; reflexivity|].
  destruct (is_space c); [|exists []; reflexivity].
  destruct IH as [w Hw]. destruct (span_ws r) as [w' r'] eqn:E. simpl in *.
  exists (c :: w). simpl. now f_equal.
Qed.

Lemma match_annotation_no_bracket (l : lstr) : ~ In "["%char l -> match_annotation l = None.
Proof.
  intros H. unfold match_annotation. destruct (span_ws_suffix l) as [w Hw].
  destruct (snd (span_ws l)) as [|c r] eqn:E; [reflexivity|].
  unfold ceq. destruct (Ascii.eqb_spec c "[") as [->|]; [|reflexivity].
  exfalso. apply H. rewrite Hw. apply in_or_app. right. left. reflexivity.
Qed.

Lemma sub_annotations_no_bracket (fuel : nat) (l : lstr) :
  ~ In "["%char l -> sub_annotations_fuel fuel l = l.
Proof.
  revert l. induction fuel as [|fuel IH]; intros l H; [reflexivity|].
  destruct l as [|c r]; [reflexivity|]. simpl sub_annotations_fuel.
  rewrite match_annotation_no_bracket by exact H.
  rewrite IH; [reflexivity|]. intros Hr. apply H. right. exact Hr.
Qed.

Lemma sub_annotations_fuel_nil (fuel : nat) : sub_annotations_fuel fuel [] = [].
Proof. now destruct fuel. Qed.

Lemma sub_annotations_prefix (fuel : nat) (r rest : lstr) :
  Forall (fun c => c <> "["%char) r ->
  (forall c, last r = Some c -> is_space c = false) ->
  (length (r ++ rest) <= fuel)%nat ->
  sub_annotations_fuel fuel (r ++ rest) = r ++ sub_annotations_fuel (fuel - length r) rest.
Proof.
  revert fuel. induction r as [|a r IH]; intros fuel Hr Hlast Hlen.
  - simpl. now rewrite Nat.sub_0_r.
  - destruct fuel as [|fuel]; simpl in Hlen; [lia|].
    assert (Hnone : match_annotation ((a :: r) ++ rest) = None).
    { apply match_annotation_none; [exact Hr|].
      destruct (last (a :: r)) as [c|] eqn:E.
      - exists c. split; [apply list_elem_of_In, last_Some_elem_of, E | apply Hlast; reflexivity].
      - apply last_None in E. discriminate. }
    cbn [app sub_annotations_fuel]. simpl app in Hnone. rewrite Hnone.
    cbn [length Nat.sub app]. f_equal. apply IH.
    + inversion Hr; assumption.
    + intros c Hc. apply Hlast. destruct r; [discriminate|]. exact Hc.
    + lia.
Qed.

Lemma sub_annotations_at (fuel : nat) (l rest : lstr) :
  match_annotation l = Some rest -> sub_annotations_fuel (S fuel) l = sub_annotations_fuel fuel rest.
Proof.
  intros H. destruct l as [|c l']; [discriminate|]. cbn [sub_annotations_fuel]. now rewrite H.
Qed.

Lemma sub_annotations_pieces (fuel : nat) (segs : list (lstr * lstr * lstr)) (tail : lstr) :
  Forall piece_ok segs -> Forall (fun c => c <> "["%char) tail ->
  (length (concat (map annotation_piece segs) ++ tail) <= fuel)%nat ->
  sub_annotations_fuel fuel (concat (map annotation_piece segs) ++ tail)
  = concat (map plain_piece segs) ++ tail.
Proof.
  revert fuel. induction segs as [|[[r w] t] segs IH]; intros fuel Hsegs Htail Hlen.
  - simpl. apply sub_annotations_no_bracket. intros Hin.
    rewrite List.Forall_forall in Htail. exact (Htail _ Hin eq_refl).
  - inversion Hsegs as [|? ? Hp Hsegs']; subst.
    destruct Hp as [Hr [Hlast [Hw Ht]]].
    set (rest := concat (map annotation_piece segs) ++ tail).
    assert (Heq : concat (map annotation_piece ((r, w, t) :: segs)) ++ tail
                  = r ++ (w ++ "["%char :: t ++ "]"%char :: rest)).
    { unfold rest. cbn [map concat annotation_piece]. rewrite <- !app_assoc. simpl.
      rewrite <- !app_assoc. reflexivity. }
    rewrite Heq in Hlen |- *.
    assert (Hl : (length r + S (length rest) <= fuel)%nat).
    { rewrite !length_app in Hlen. simpl in Hlen. rewrite length_app in Hlen. simpl in Hlen. lia. }
    rewrite sub_annotations_prefix by assumption.
    replace (fuel - length r)%nat with (S (fuel - length r - 1)) by lia.
    rewrite (sub_annotations_at _ _ rest) by (apply match_annotation_whole; assumption).
    cbn [map concat plain_piece]. rewrite <- app_assoc. f_equal.
    apply IH; [exact Hsegs' | exact Htail | unfold rest in Hl; lia].
Qed.

(** C8 (corrected): [re.sub(r'\s*\[.*?\]', '', time_range)] removes
    every annotation, wherever it stands, together with the white space
    before it: a text made of pieces [r w [t]] followed by a tail, where
    each [r] has no [[] and does not end in white space, each [w] is
    white space, each annotation text [t] has no []] and no line break,
    and the tail has no [[], becomes the pieces' [r]s followed by the
    tail; in particular "9:00 AM - 5:00 PM [Lunch]" becomes
    "9:00 AM - 5:00 PM". (A nested annotation is cut at its first []]:
    see the counterexample.) *)
Theorem C8_annotations_removed (segs : list (lstr * lstr * lstr)) (tail : lstr) :
  Forall piece_ok segs -> Forall (fun c => c <> "["%char) tail ->
  clean_time_range (string_of_list_ascii (concat (map annotation_piece segs) ++ tail))
    = string_of_list_ascii (concat (map plain_piece segs) ++ tail)
  /\ clean_time_range "9:00 AM - 5:00 PM [Lunch]" = "9:00 AM - 5:00 PM".
Proof.
  intros Hsegs Htail. split; [|reflexivity].
  unfold clean_time_range. rewrite list_ascii_of_string_of_list_ascii.
  f_equal. apply sub_annotations_pieces; [exact Hsegs | exact Htail | lia].
Qed.

Lemma C8_witness :
  Forall piece_ok [(list_ascii_of_string "9:00 AM", [" "%char], list_ascii_of_string "on call");
                   (list_ascii_of_string " - 5:00 PM", [" "%char], list_ascii_of_string "Lunch")]
  /\ Forall (fun c => c <> "["%char) (list_ascii_of_string " 8.00")
  /\ clean_time_range "9:00 AM [on call] - 5:00 PM [Lunch] 8.00" = "9:00 AM - 5:00 PM 8.00".
Proof.
  assert (H1 : Forall piece_ok [(list_ascii_of_string "9:00 AM", [" "%char], list_ascii_of_string "on call");
                                (list_ascii_of_string " - 5:00 PM", [" "%char], list_ascii_of_string "Lunch")]).
  { repeat constructor; cbn [list_ascii_of_string last]; try discriminate;
      intros c Hc; injection Hc as <-; reflexivity. }
  assert (H2 : Forall (fun c => c <> "["%char) (list_ascii_of_string " 8.00"))
    by (simpl; repeat constructor; discriminate).
  split; [exact H1|]. split; [exact H2|].
  exact (proj1 (C8_annotations_removed _ _ H1 H2)).
Defined.

(** C8: a nested annotation leaves its outer []] behind. *)
Lemma C8_nested_annotation_leaves_bracket :
  clean_time_range "9:00 AM - 5:00 PM [Lunch [30 min]]" = "9:00 AM - 5:00 PM]".
Proof. reflexivity. Qed.

(* ------------------------------------------------------------------ *)
(** ** [safe_click] *)

Lemma safe_click_loop_exhausted (env : ClickEnv) (by_ value : string) (retries todo a : nat) :
  (forall j, (j < todo)%nat -> attempt_outcome env (a + j) <> Clicked /\ url_readable env (a + j) = true) ->
  safe_click_loop env by_ value retries todo a
    = (flat_map (attempt_effects env) (seq a todo), ClickExhausted by_ value retries).
Proof.
  revert a. induction todo as [|todo IH]; intros a H; [reflexivity|].
  destruct (H 0%nat ltac:(lia)) as [Hc Hu]. rewrite Nat.add_0_r in Hc, Hu.
  cbn [safe_click_loop seq flat_map]. unfold attempt_effects.
  rewrite IH.
  - rewrite Hu. destruct (attempt_outcome env a); [contradiction| |]; reflexivity.
  - intros j Hj. replace (S a + j)%nat with (a + S j)%nat by lia. apply H. lia.
Qed.

Lemma safe_click_loop_returns (env : ClickEnv) (by_ value : string) (retries todo a k : nat) :
  (k < todo)%nat -> attempt_outcome env (a + k) = Clicked ->
  (forall j, (j < k)%nat -> attempt_outcome env (a + j) <> Clicked /\ url_readable env (a + j) = true) ->
  safe_click_loop env by_ value retries todo a
    = (flat_map (attempt_effects env) (seq a (S k)), ClickReturned).
Proof.
  revert a k. induction todo as [|todo IH]; intros a k Hk Hok Hbefore; [lia|].
  cbn [safe_click_loop]. destruct k as [|k].
  - rewrite Nat.add_0_r in Hok. cbn [seq flat_map]. unfold attempt_effects.
    rewrite Hok. reflexivity.
  - destruct (Hbefore 0%nat ltac:(lia)) as [Hc Hu]. rewrite Nat.add_0_r in Hc, Hu.
    rewrite (IH (S a) k); [| lia | replace (S a + k)%nat with (a + S k)%nat by lia; exact Hok |].
    + change (seq a (S (S k))) with (a :: seq (S a) (S k)).
      cbn [flat_map]. unfold attempt_effects.
      rewrite Hu. destruct (attempt_outcome env a); [contradiction| |]; reflexivity.
    + intros j Hj. replace (S a + j)%nat with (a + S j)%nat by lia. apply Hbefore. lia.
Qed.

(** C9 (corrected): with the default [retries=5], as long as
    [driver.current_url] can be read after each failed attempt, every
    attempt waits up to 20 for the element, a failed attempt is followed
    by [time.sleep(10)], the first successful attempt ends the call, and
    the call raises the error carrying the locator and 5 exactly when the
    5 attempts all failed. (When reading the URL fails, the call raises
    that error at once: see the counterexample.) *)
Theorem C9_safe_click_retries_while_url_readable (env : ClickEnv) (by_ value : string) :
  (forall k, (k < 5)%nat -> url_readable env k = true) ->
  ((forall k, (k < 5)%nat -> attempt_outcome env k <> Clicked) ->
     safe_click env by_ value 5
       = (flat_map (attempt_effects env) (seq 0 5), ClickExhausted by_ value 5))
  /\ (forall k, (k < 5)%nat -> attempt_outcome env k = Clicked ->
        (forall j, (j < k)%nat -> attempt_outcome env j <> Clicked) ->
        safe_click env by_ value 5
          = (flat_map (attempt_effects env) (seq 0 (S k)), ClickReturned)).
Proof.
  intros Hurl. split.
  - intros Hfail. apply safe_click_loop_exhausted.
    intros j Hj. simpl. split; [apply Hfail | apply Hurl]; lia.
  - intros k Hk Hok Hbefore. apply safe_click_loop_returns; [lia | exact Hok |].
    intros j Hj. simpl. split; [apply Hbefore | apply Hurl]; lia.
Qed.

Lemma C9_witness :
  (forall k, (k < 5)%nat -> url_readable env_third_try k = true)
  /\ safe_click env_third_try "id" "idSIButton9" 5
       = (flat_map (attempt_effects env_third_try) (seq 0 3), ClickReturned).
Proof.
  assert (Hurl : forall k, (k < 5)%nat -> url_readable env_third_try k = true) by reflexivity.
  split; [exact Hurl|].
  apply (proj2 (C9_safe_click_retries_while_url_readable env_third_try "id" "idSIButton9" Hurl) 2%nat);
    [lia | reflexivity |].
  intros j Hj. destruct j as [|[|j]]; [discriminate | discriminate | lia].
Defined.

(** C9: when [driver.current_url] raises in the handler after the first
    failed attempt, [safe_click] raises that error after one attempt,
    without the retries and without the locator error. *)
Lemma C9_url_failure_ends_retries :
  safe_click env_url_lost "id" "idSIButton9" 5 = ([WaitClickable 20; Sleep 10; ReadCurrentUrl], UrlReadFailed).
Proof. reflexivity. Qed.

(* ------------------------------------------------------------------ *)
(** ** The rich-schema extractor *)

Section Folds.
Context {A B : Type} (f : A -> B -> A).

Lemma fold_left_preserve (P : A -> Prop) (l : list B) (a : A) :
  (forall a b, P a -> P (f a b)) -> P a -> P (fold_left f l a).
Proof. revert a. induction l; simpl; auto. Qed.

Lemma fold_left_rel (R : A -> A -> Prop) (l : list B) (a1 a2 : A) :
  (forall a1 a2 b, R a1 a2 -> R (f a1 b) (f a2 b)) -> R a1 a2 ->
  R (fold_left f l a1) (fold_left f l a2).
Proof. revert a1 a2. induction l; simpl; auto. Qed.


End Folds.

Lemma process_shift_data (date : string) (st : ScrapeState) (shift : ShiftBlock) :
  schedule_data (process_shift date st shift)
  = match shift_key_of date shift with
    | Some k => if bool_decide (k ∈ seen_shifts st) then schedule_data st
                else schedule_data st ++ [entry_of_key k]
    | None => schedule_data st
    end.
Proof.
  unfold process_shift, shift_key_of.
  destruct (sb_time shift) as [tr| |]; try reflexivity.
  destruct (time_regex_search (list_ascii_of_string tr)) as [[[g1 g2] g3]|]; [|reflexivity].
  destruct (sb_label shift); try reflexivity;
    unfold bool_decide; repeat case_decide; simpl; try reflexivity; contradiction.
Qed.

Lemma process_shift_seen (date : string) (st : ScrapeState) (shift : ShiftBlock) :
  seen_shifts (process_shift date st shift)
  = match shift_key_of date shift with
    | Some k => if bool_decide (k ∈ seen_shifts st) then seen_shifts st
                else {[k]} ∪ seen_shifts st
    | None => seen_shifts st
    end.
Proof.
  unfold process_shift, shift_key_of.
  destruct (sb_time shift) as [tr| |]; try reflexivity.
  destruct (time_regex_search (list_ascii_of_string tr)) as [[[g1 g2] g3]|]; [|reflexivity].
  destruct (sb_label shift); try reflexivity;
    unfold bool_decide; repeat case_decide; simpl; try reflexivity; contradiction.
Qed.

Lemma process_shift_log (date : string) (st : ScrapeState) (shift : ShiftBlock) (x : LogLine) :
  In x (scrape_log st) -> In x (scrape_log (process_shift date st shift)).
Proof.
  intros Hx. unfold process_shift.
  destruct (sb_time shift) as [tr| |]; simpl; try (apply in_or_app; auto).
  destruct (time_regex_search (list_ascii_of_string tr)) as [[[g1 g2] g3]|];
    simpl; try (apply in_or_app; auto).
  destruct (sb_label shift); simpl; try (apply in_or_app; auto);
    destruct (decide _); simpl; try (apply in_or_app; auto); exact Hx.
Qed.

Lemma fold_shifts_log (date : string) (shifts : list ShiftBlock) (st : ScrapeState) (x : LogLine) :
  In x (scrape_log st) -> In x (scrape_log (fold_left (process_shift date) shifts st)).
Proof.
  intros Hx. apply (fold_left_preserve _ (fun st => In x (scrape_log st))); [|exact Hx].
  intros. now apply process_shift_log.
Qed.

Lemma day_except_log (st : ScrapeState) (b : option string) (day : DayBlock) (x : LogLine) :
  In x (scrape_log st) -> In x (scrape_log (fst (fst (day_except st b day)))).
Proof.
  intros Hx. unfold day_except. destruct b; simpl; [apply in_or_app; auto | exact Hx].
Qed.

Lemma process_day_log (st : ScrapeState) (b : option string) (day : DayBlock) (x : LogLine) :
  In x (scrape_log st) -> In x (scrape_log (fst (fst (process_day st b day)))).
Proof.
  intros Hx. unfold process_day.
  destruct (day_date day) as [d| |]; try (now apply day_except_log).
  destruct (day_shifts day) as [shifts| |]; try (now apply day_except_log).
  now apply fold_shifts_log.
Qed.

Lemma scrape_days_log (days : list DayBlock) (st : ScrapeState) (b : option string) (x : LogLine) :
  In x (scrape_log st) -> In x (scrape_log (fst (fst (scrape_days st b days)))).
Proof.
  revert st b. induction days as [|day days IH]; intros st b Hx; [exact Hx|].
  cbn [scrape_days]. pose proof (process_day_log st b day x Hx) as H.
  destruct (process_day st b day) as [[st' b'] [|]]; [exact H|]. now apply IH.
Qed.

Lemma process_shift_same (date : string) (st1 st2 : ScrapeState) (shift : ShiftBlock) :
  same_entries st1 st2 -> same_entries (process_shift date st1 shift) (process_shift date st2 shift).
Proof.
  intros [Hd Hs]. split.
  - rewrite !process_shift_data, Hd, Hs. reflexivity.
  - rewrite !process_shift_seen, Hs. reflexivity.
Qed.

Lemma fold_shifts_same (date : string) (shifts : list ShiftBlock) (st1 st2 : ScrapeState) :
  same_entries st1 st2 ->
  same_entries (fold_left (process_shift date) shifts st1) (fold_left (process_shift date) shifts st2).
Proof. apply fold_left_rel. intros. now apply process_shift_same. Qed.

Lemma process_day_same (st1 st2 : ScrapeState) (b : option string) (day : DayBlock) :
  same_entries st1 st2 -> same_run (process_day st1 b day) (process_day st2 b day).
Proof.
  intros H. assert (He : forall b', same_run (day_except st1 b' day) (day_except st2 b' day)).
  { intros [d|]; [|split; [exact H|split; reflexivity]].
    destruct H as [Hd Hs]. split; [split; simpl; assumption | split; reflexivity]. }
  unfold process_day.
  destruct (day_date day) as [d| |]; try apply He.
  destruct (day_shifts day) as [shifts| |]; try apply He.
  split; [now apply fold_shifts_same | split; reflexivity].
Qed.

Lemma scrape_days_same (days : list DayBlock) (st1 st2 : ScrapeState) (b : option string) :
  same_entries st1 st2 -> same_run (scrape_days st1 b days) (scrape_days st2 b days).
Proof.
  revert st1 st2 b. induction days as [|day days IH]; intros st1 st2 b H.
  - split; [exact H | split; reflexivity].
  - cbn [scrape_days]. pose proof (process_day_same st1 st2 b day H) as [Hs [Hb He]].
    destruct (process_day st1 b day) as [[s1 b1] e1], (process_day st2 b day) as [[s2 b2] e2].
    simpl in Hs, Hb, He. subst b2 e2. destruct e1; [split; [exact Hs | split; reflexivity]|].
    now apply IH.
Qed.

Lemma scrape_days_app (l1 l2 : list DayBlock) (st : ScrapeState) (b : option string) :
  scrape_days st b (l1 ++ l2)
  = match scrape_days st b l1 with
    | (st', b', true) => (st', b', true)
    | (st', b', false) => scrape_days st' b' l2
    end.
Proof.
  revert st b. induction l1 as [|day l1 IH]; intros st b; [reflexivity|].
  cbn [app scrape_days]. destruct (process_day st b day) as [[st' b'] [|]]; [reflexivity|]. apply IH.
Qed.













Lemma fold_skips_unmatched (st : ScrapeState) (date : string) (pre post : list ShiftBlock)
    (bad : ShiftBlock) (time_range : string) :
  sb_time bad = Found time_range ->
  time_regex_search (list_ascii_of_string time_range) = None ->
  same_entries (fold_left (process_shift date) (pre ++ bad :: post) st)
               (fold_left (process_shift date) (pre ++ post) st)
  /\ In (LogWarning (sapp "Could not parse time range: " time_range))
        (scrape_log (fold_left (process_shift date) (pre ++ bad :: post) st)).
Proof.
  intros Ht Hre. rewrite !fold_left_app. cbn [fold_left].
  set (st1 := fold_left (process_shift date) pre st).
  assert (Hbad : process_shift date st1 bad
                 = log_line (LogWarning (sapp "Could not parse time range: " time_range)) st1).
  { unfold process_shift. rewrite Ht, Hre. reflexivity. }
  rewrite Hbad. split.
  - apply fold_shifts_same. split; reflexivity.
  - apply fold_shifts_log. simpl. apply in_or_app. right. left. reflexivity.
Qed.

Lemma scrape_result_same (r1 r2 : ScrapeState * option string * bool) :
  same_run r1 r2 ->
  fst (match r1 with
       | (st, _, false) => (Some (schedule_data st), scrape_log st)
       | (st, _, true) => (Some [], scrape_log st ++ [LogError "An error occurred"])
       end)
  = fst (match r2 with
         | (st, _, false) => (Some (schedule_data st), scrape_log st)
         | (st, _, true) => (Some [], scrape_log st ++ [LogError "An error occurred"])
         end).
Proof.
  destruct r1 as [[s1 b1] e1], r2 as [[s2 b2] e2]. intros [[Hd _] [_ He]]. simpl in *.
  subst e2. destruct e1; simpl; [reflexivity|]. now rewrite Hd.
Qed.

Lemma scrape_result_log (r : ScrapeState * option string * bool) (x : LogLine) :
  In x (scrape_log (fst (fst r))) ->
  In x (snd (match r with
             | (st, _, false) => (Some (schedule_data st), scrape_log st)
             | (st, _, true) => (Some [], scrape_log st ++ [LogError "An error occurred"])
             end)).
Proof.
  destruct r as [[st b] [|]]; simpl; intros H; [apply in_or_app; now left | exact H].
Qed.

(** C6 (confirmed): in [scrape_schedule] of [sync_nextcloud.py], a shift
    block whose time text has no match of the time-range pattern adds no
    entry and changes nothing else but the log: the call returns the
    same entries as without that block (the shifts after it, in the same
    day and in later days, are still extracted; no exception leaves the
    shift, [process_shift] is total). When the call gets to the block
    (no exception left the handler of an earlier day, which would end the
    call with [[]]), the warning "Could not parse time range: ..." is
    logged. *)
Theorem C6_unmatched_time_range_skipped (days_before days_after : list DayBlock) (date : string) (ok : bool)
    (pre post : list ShiftBlock) (bad : ShiftBlock) (time_range : string) :
  sb_time bad = Found time_range ->
  time_regex_search (list_ascii_of_string time_range) = None ->
  fst (nc_scrape_schedule (PageDays (days_before ++ mkDay (Found date) (Found (pre ++ bad :: post)) ok :: days_after)))
    = fst (nc_scrape_schedule (PageDays (days_before ++ mkDay (Found date) (Found (pre ++ post)) ok :: days_after)))
  /\ (day_loop_escapes days_before = false ->
      In (LogWarning (sapp "Could not parse time range: " time_range))
         (snd (nc_scrape_schedule (PageDays (days_before ++ mkDay (Found date) (Found (pre ++ bad :: post)) ok
                                                           :: days_after))))).
Proof.
  intros Ht Hre. unfold nc_scrape_schedule, day_loop_escapes. rewrite !scrape_days_app.
  destruct (scrape_days (mkScrape [] ∅ []) None days_before) as [[st1 b1] [|]].
  - split; [reflexivity | intros H; discriminate H].
  - cbn [scrape_days process_day day_date day_shifts].
    destruct (fold_skips_unmatched st1 date pre post bad time_range Ht Hre) as [Hsame Hlog].
    split.
    + apply scrape_result_same. apply scrape_days_same. exact Hsame.
    + intros _. apply scrape_result_log. now apply scrape_days_log.
Qed.

Lemma C6_witness :
  sb_time tbd_shift = Found "TBD"
  /\ time_regex_search (list_ascii_of_string "TBD") = None
  /\ fst (nc_scrape_schedule (PageDays ([] ++ mkDay (Found "2025-01-06") (Found ([] ++ tbd_shift :: [office_shift])) true :: [])))
     = fst (nc_scrape_schedule (PageDays ([] ++ mkDay (Found "2025-01-06") (Found ([] ++ [office_shift])) true :: []))).
Proof.
  assert (H1 : sb_time tbd_shift = Found "TBD") by reflexivity.
  assert (H2 : time_regex_search (list_ascii_of_string "TBD") = None) by reflexivity.
  split; [exact H1|]. split; [exact H2|].
  exact (proj1 (C6_unmatched_time_range_skipped [] [] "2025-01-06" true [] [office_shift] tbd_shift "TBD" H1 H2)).
Defined.




(* ------------------------------------------------------------------ *)
(** ** Effects of the pipeline steps *)

Lemma keeps_requests_bind {A B} (m : M A) (k : A -> M B) :
  keeps_requests m -> (forall a, keeps_requests (k a)) -> keeps_requests (bind m k).
Proof.
  intros Hm Hk w. specialize (Hm w). unfold bind.
  destruct (m w) as [[a|e] w'] eqn:E; simpl in *; [now rewrite Hk|exact Hm].
Qed.

Lemma keeps_files_bind {A B} (m : M A) (k : A -> M B) :
  keeps_files m -> (forall a, keeps_files (k a)) -> keeps_files (bind m k).
Proof.
  intros Hm Hk w. specialize (Hm w). unfold bind.
  destruct (m w) as [[a|e] w'] eqn:E; simpl in *; [now rewrite Hk|exact Hm].
Qed.

Lemma keeps_requests_try {A} (m : M A) (h : PyExn -> M A) :
  keeps_requests m -> (forall e, keeps_requests (h e)) -> keeps_requests (try_except m h).
Proof.
  intros Hm Hh w. specialize (Hm w). unfold try_except.
  destruct (m w) as [[a|e] w'] eqn:E; simpl in *; [exact Hm|now rewrite Hh].
Qed.

Lemma keeps_requests_ret {A} (a : A) : keeps_requests (ret a).
Proof. intros w. reflexivity. Qed.
Lemma keeps_requests_raise {A} (e : PyExn) : keeps_requests (A:=A) (raise e).
Proof. intros w. reflexivity. Qed.
Lemma keeps_requests_lift {A} (r : result A) : keeps_requests (lift r).
Proof. intros w. reflexivity. Qed.
Lemma keeps_requests_write p ev : keeps_requests (write_file p ev).
Proof. intros w. reflexivity. Qed.
Lemma keeps_requests_read p : keeps_requests (read_file p).
Proof. intros w. unfold read_file. now destruct (w_files w !! p). Qed.
Lemma keeps_requests_remove p : keeps_requests (remove_file p).
Proof. intros w. unfold remove_file. now destruct (w_files w !! p). Qed.
Lemma keeps_requests_uuid4 uuid4 : keeps_requests (uuid4_call uuid4).
Proof. intros w. reflexivity. Qed.

Lemma keeps_files_ret {A} (a : A) : keeps_files (ret a).
Proof. intros w. reflexivity. Qed.
Lemma keeps_files_raise {A} (e : PyExn) : keeps_files (A:=A) (raise e).
Proof. intros w. reflexivity. Qed.
Lemma keeps_files_lift {A} (r : result A) : keeps_files (lift r).
Proof. intros w. reflexivity. Qed.
Lemma keeps_files_uuid4 uuid4 : keeps_files (uuid4_call uuid4).
Proof. intros w. reflexivity. Qed.

Create HintDb effects.
#[local] Hint Resolve keeps_requests_bind keeps_requests_try keeps_requests_ret keeps_requests_raise
  keeps_requests_lift keeps_requests_write keeps_requests_read keeps_requests_remove
  keeps_requests_uuid4 keeps_files_bind keeps_files_ret keeps_files_raise keeps_files_lift
  keeps_files_uuid4 : effects.

Ltac effects_step :=
  repeat first [ progress (intros; simpl)
               | apply keeps_requests_bind | apply keeps_files_bind
               | apply keeps_requests_try
               | match goal with |- keeps_requests (match ?x with _ => _ end) => destruct x end
               | match goal with |- keeps_files (match ?x with _ => _ end) => destruct x end
               | match goal with |- keeps_requests (if ?x then _ else _) => destruct x end ];
  eauto with effects.

Lemma nc_create_icalendar_event_requests uuid4 utcnow d s e det sl :
  keeps_requests (nc_create_icalendar_event uuid4 utcnow d s e det sl).
Proof. unfold nc_create_icalendar_event. effects_step. Qed.

Lemma nc_create_icalendar_event_files uuid4 utcnow d s e det sl :
  keeps_files (nc_create_icalendar_event uuid4 utcnow d s e det sl).
Proof. unfold nc_create_icalendar_event. effects_step. Qed.

Lemma rad_create_icalendar_event_requests uuid4 utcnow d tr det :
  keeps_requests (rad_create_icalendar_event uuid4 utcnow d tr det).
Proof. unfold rad_create_icalendar_event. effects_step. Qed.

Lemma rad_create_icalendar_event_files uuid4 utcnow d tr det :
  keeps_files (rad_create_icalendar_event uuid4 utcnow d tr det).
Proof. unfold rad_create_icalendar_event. effects_step. Qed.

#[local] Hint Resolve nc_create_icalendar_event_requests rad_create_icalendar_event_requests : effects.

Lemma nc_create_individual_ics_files_requests uuid4 utcnow entries :
  keeps_requests (nc_create_individual_ics_files uuid4 utcnow entries).
Proof. induction entries; simpl; effects_step. Qed.

Lemma rad_create_individual_ics_files_requests uuid4 utcnow entries :
  keeps_requests (rad_create_individual_ics_files uuid4 utcnow entries).
Proof. induction entries; simpl; effects_step. Qed.

Lemma compare_and_handle_existing_requests ps idx :
  keeps_requests (compare_and_handle_existing ps idx).
Proof. induction ps; simpl; effects_step. Qed.

#[local] Hint Resolve nc_create_individual_ics_files_requests rad_create_individual_ics_files_requests
  compare_and_handle_existing_requests : effects.

(* ------------------------------------------------------------------ *)
(** ** Reconciliation and publishing *)

Lemma world_eta (w : World) : w = mkWorld (w_files w) (w_uuids w) (w_requests w).
Proof. now destruct w. Qed.

(** With distinct paths that all exist, [compare_and_handle_existing]
    succeeds and deletes exactly the matching files. *)
Lemma compare_and_handle_existing_ok (ps : list string) (idx : Index) (w : World) :
  NoDup ps -> Forall (fun p => is_Some (w_files w !! p)) ps ->
  compare_and_handle_existing ps idx w
    = (Ok tt, mkWorld (reconcile_files ps idx (w_files w)) (w_uuids w) (w_requests w)).
Proof.
  revert w. induction ps as [|p ps IH]; intros w Hnd Hall.
  - apply (f_equal (pair (Ok tt))), world_eta.
  - inversion Hnd as [|? ? Hp Hnd']; subst. inversion Hall as [|? ? [ev Hev] Hall']; subst.
    cbn [compare_and_handle_existing reconcile_files fold_left].
    unfold bind at 1, read_file. rewrite Hev. unfold bind.
    destruct (matches_existing ev idx) eqn:Hm.
    + unfold remove_file. rewrite Hev.
      rewrite IH; [| exact Hnd' |].
      * reflexivity.
      * simpl. apply List.Forall_forall. intros q Hq.
        rewrite lookup_delete_ne by (intros ->; apply Hp; try apply list_elem_of_In; exact Hq).
        rewrite List.Forall_forall in Hall'. exact (Hall' q Hq).
    + unfold ret. rewrite IH; [reflexivity | exact Hnd' | exact Hall'].
Qed.

(** What a file becomes in reconciliation. *)
Lemma reconcile_files_lookup (ps : list string) (idx : Index) (fs : gmap string VEvent) (q : string) :
  reconcile_files ps idx fs !! q
  = if bool_decide (q ∈ ps)
    then match fs !! q with
         | Some ev => if matches_existing ev idx then None else Some ev
         | None => None
         end
    else fs !! q.
Proof.
  unfold reconcile_files. revert fs. induction ps as [|p ps IH]; intros fs; [reflexivity|].
  cbn [fold_left]. rewrite IH.
  destruct (decide (q = p)) as [->|Hne].
  - rewrite (bool_decide_eq_true_2 (p ∈ p :: ps)) by apply list_elem_of_here.
    destruct (fs !! p) as [ev|] eqn:E.
    + destruct (matches_existing ev idx) eqn:Hm.
      * rewrite lookup_delete_eq. now destruct (bool_decide _).
      * rewrite E, Hm. now destruct (bool_decide _).
    + rewrite E. now destruct (bool_decide _).
  - assert (Hl : (match fs !! p with
                  | Some ev => if matches_existing ev idx then delete p fs else fs
                  | None => fs end) !! q = fs !! q).
    { destruct (fs !! p) as [ev|]; [|reflexivity].
      destruct (matches_existing ev idx); [|reflexivity]. now apply lookup_delete_ne. }
    rewrite Hl.
    assert (Hb : bool_decide (q ∈ p :: ps) = bool_decide (q ∈ ps)).
    { apply bool_decide_ext. rewrite elem_of_cons. intuition. }
    now rewrite Hb.
Qed.

Lemma reconcile_files_removes (ps : list string) (idx : Index) (fs : gmap string VEvent) (p : string) (ev : VEvent) :
  In p ps -> fs !! p = Some ev -> matches_existing ev idx = true ->
  reconcile_files ps idx fs !! p = None.
Proof.
  intros Hin Hev Hm. rewrite reconcile_files_lookup, Hev, Hm.
  now rewrite bool_decide_eq_true_2 by (apply list_elem_of_In, Hin).
Qed.

Lemma flat_map_ext_in {X Y} (f g : X -> list Y) (l : list X) :
  (forall x, In x l -> f x = g x) -> flat_map f l = flat_map g l.
Proof.
  induction l as [|x l IH]; intros H; [reflexivity|]. simpl.
  rewrite H by (left; reflexivity). f_equal. apply IH. intros; apply H; right; assumption.
Qed.

Lemma all_requests_reconciled (mk : string -> VEvent -> Request) (ps : list string) (idx : Index)
    (fs : gmap string VEvent) :
  all_requests mk ps (reconcile_files ps idx fs) = reconciled_requests mk ps idx fs.
Proof.
  apply flat_map_ext_in. intros q Hq. rewrite reconcile_files_lookup.
  rewrite bool_decide_eq_true_2 by (apply list_elem_of_In, Hq).
  destruct (fs !! q) as [ev|]; [|reflexivity]. now destruct (matches_existing ev idx).
Qed.

Lemma upload_to_radicale_individual_files_spec (net : Transport) (ps : list string) (w : World) :
  upload_to_radicale_individual_files net ps w
    = send_all net (all_requests (fun p ev => PutIcs (basename p) ev) ps (w_files w)) w.
Proof.
  revert w. induction ps as [|p ps IH]; intros w; [reflexivity|].
  cbn [upload_to_radicale_individual_files all_requests flat_map].
  unfold bind at 1, path_exists.
  destruct (w_files w !! p) as [ev|] eqn:Hev.
  - rewrite (bool_decide_eq_true_2 (is_Some (Some ev))) by (eexists; reflexivity).
    cbn [app send_all]. unfold bind, read_file. rewrite Hev. unfold send.
    destruct (net (w_requests w) (PutIcs (basename p) ev)); [reflexivity|].
    rewrite IH. reflexivity.
  - rewrite bool_decide_eq_false_2 by apply is_Some_None.
    unfold bind, ret. rewrite IH. reflexivity.
Qed.

Lemma nc_add_files_spec (net : Transport) (cal : Collection) (ps : list string) (w : World) :
  nc_add_files net cal ps w
    = send_each net (all_requests (fun _ ev => AddEvent (cal_name cal) ev) ps (w_files w)) w.
Proof.
  revert w. induction ps as [|p ps IH]; intros w; [reflexivity|].
  cbn [nc_add_files all_requests flat_map].
  unfold bind at 1, path_exists.
  destruct (w_files w !! p) as [ev|] eqn:Hev.
  - rewrite (bool_decide_eq_true_2 (is_Some (Some ev))) by (eexists; reflexivity).
    cbn [app send_each]. unfold bind, read_file. rewrite Hev. unfold try_except, send, ret.
    destruct (net (w_requests w) (AddEvent (cal_name cal) ev)); rewrite IH; reflexivity.
  - rewrite bool_decide_eq_false_2 by apply is_Some_None.
    unfold bind, ret. rewrite IH. reflexivity.
Qed.

Lemma sync_upload_to_nextcloud_individual_files_spec (net : Transport) (ps : list string) (w : World) :
  Forall (fun p => is_Some (w_files w !! p)) ps ->
  sync_upload_to_nextcloud_individual_files net ps w
    = send_all net (all_requests (fun p ev => PutIcs (basename p) ev) ps (w_files w)) w.
Proof.
  revert w. induction ps as [|p ps IH]; intros w Hall; [reflexivity|].
  inversion Hall as [|? ? [ev Hev] Hall']; subst.
  cbn [sync_upload_to_nextcloud_individual_files all_requests flat_map].
  rewrite Hev. cbn [app send_all]. unfold bind at 1, read_file. rewrite Hev.
  unfold bind, send.
  destruct (net (w_requests w) (PutIcs (basename p) ev)); [reflexivity|].
  rewrite IH; [reflexivity | exact Hall'].
Qed.

Lemma send_all_delivered (net : Transport) (rs : list Request) (w : World) :
  delivers net ->
  send_all net rs w = (Ok tt, mkWorld (w_files w) (w_uuids w) (w_requests w ++ rs)).
Proof.
  intros Hnet. revert w. induction rs as [|r rs IH]; intros w.
  - simpl. rewrite app_nil_r. apply (f_equal (pair (Ok tt))), world_eta.
  - cbn [send_all]. unfold bind at 1, send. rewrite Hnet, IH. simpl.
    now rewrite <- app_assoc.
Qed.

Lemma send_each_delivered (net : Transport) (rs : list Request) (w : World) :
  delivers net ->
  send_each net rs w = (Ok tt, mkWorld (w_files w) (w_uuids w) (w_requests w ++ rs)).
Proof.
  intros Hnet. revert w. induction rs as [|r rs IH]; intros w.
  - simpl. rewrite app_nil_r. apply (f_equal (pair (Ok tt))), world_eta.
  - cbn [send_each]. unfold bind at 1, try_except, send. rewrite Hnet, IH. simpl.
    now rewrite <- app_assoc.
Qed.

(** Whatever the transport, the loop with a handler per request ends
    normally, keeps the files and sends a sub-sequence of [rs]. *)
Lemma send_each_total (net : Transport) (rs : list Request) (w : World) :
  exists sent, send_each net rs w = (Ok tt, mkWorld (w_files w) (w_uuids w) (w_requests w ++ sent))
    /\ sublist sent rs.
Proof.
  revert w. induction rs as [|r rs IH]; intros w.
  - exists []. split; [|constructor]. simpl. rewrite app_nil_r. apply (f_equal (pair (Ok tt))), world_eta.
  - cbn [send_each]. unfold bind at 1, try_except, send, ret.
    destruct (net (w_requests w) r).
    + destruct (IH w) as [sent [Hs Hsub]]. exists sent. split; [exact Hs|]. now apply sublist_cons.
    + destruct (IH (mkWorld (w_files w) (w_uuids w) (w_requests w ++ [r]))) as [sent [Hs Hsub]].
      exists (r :: sent). rewrite Hs. simpl. split; [now rewrite <- app_assoc|]. now apply sublist_skip.
Qed.

Lemma send_all_keeps_files (net : Transport) (rs : list Request) (w : World) :
  w_files (snd (send_all net rs w)) = w_files w /\ w_uuids (snd (send_all net rs w)) = w_uuids w.
Proof.
  revert w. induction rs as [|r rs IH]; intros w; [split; reflexivity|].
  cbn [send_all]. unfold bind, send.
  destruct (net (w_requests w) r); [split; reflexivity|]. exact (IH _).
Qed.

Lemma reconciled_requests_all_match (mk : string -> VEvent -> Request) (ps : list string) (idx : Index)
    (fs : gmap string VEvent) :
  (forall p ev, In p ps -> fs !! p = Some ev -> matches_existing ev idx = true) ->
  reconciled_requests mk ps idx fs = [].
Proof.
  intros H. unfold reconciled_requests. induction ps as [|p ps IH]; [reflexivity|]. simpl.
  rewrite IH by (intros; eapply H; [right|]; eassumption).
  destruct (fs !! p) as [ev|] eqn:E; [|reflexivity].
  now rewrite (H p ev (or_introl eq_refl) E).
Qed.

(** [==] on keys is an equivalence: equal keys match the same index entries. *)
Lemma naive_eqb_eq (a b : NaiveDT) : naive_eqb a b = true -> a = b.
Proof.
  destruct a, b. unfold naive_eqb. simpl. rewrite !andb_true_iff, !Z.eqb_eq.
  intros [[[[[-> ->] ->] ->] ->] ->]. reflexivity.
Qed.

Lemma py_time_eqb_congr (a b c : PyTime) :
  py_time_eqb a b = true -> py_time_eqb a c = py_time_eqb b c.
Proof.
  destruct a, b; simpl; try discriminate; intros H.
  - rewrite !andb_true_iff, !Z.eqb_eq in H. destruct H as [[-> ->] ->]. reflexivity.
  - apply naive_eqb_eq in H. now subst.
  - apply Z.eqb_eq in H. destruct c; simpl; [reflexivity|reflexivity|]. now rewrite H.
Qed.

Lemma opt_str_eqb_congr (a b c : option string) :
  opt_str_eqb a b = true -> opt_str_eqb a c = opt_str_eqb b c.
Proof.
  destruct a, b; simpl; try discriminate; intros H; [|reflexivity].
  apply String.eqb_eq in H. now subst.
Qed.

Lemma key_eqb_congr (k1 k2 k : EventKey) :
  key_eqb k1 k2 = true -> key_eqb k1 k = key_eqb k2 k.
Proof.
  destruct k1 as [[s1 e1] m1], k2 as [[s2 e2] m2], k as [[s e] m]. simpl.
  rewrite !andb_true_iff. intros [[Hs He] Hm].
  now rewrite (py_time_eqb_congr _ _ _ Hs), (py_time_eqb_congr _ _ _ He), (opt_str_eqb_congr _ _ _ Hm).
Qed.

Lemma matches_existing_congr (ev1 ev2 : VEvent) (idx : Index) :
  key_eqb (new_event_key ev1) (new_event_key ev2) = true ->
  matches_existing ev1 idx = matches_existing ev2 idx.
Proof.
  intros H. unfold matches_existing. induction idx as [|kv idx IH]; [reflexivity|].
  cbn [existsb]. now rewrite (key_eqb_congr _ _ _ H), IH.
Qed.

(** C1 (corrected): in [sync_radicale.py] and [sync_nextcloud.py], for
    a batch of distinct files that all exist, reconciliation deletes the
    file of every new event whose key (start, end, summary) equals, by
    Python's [==], a key of the remote index, and the publishing step
    then sends exactly the other events, in batch order: a Radicale
    [requests.put] with no handler (the first one that raises ends the
    uploads), or an [add_event] on the 'personal' calendar in its own
    handler (one that raises is logged and skipped). When every event of
    the batch matches, nothing is sent, whatever the transport. The
    [sync.py] variant has no reconciliation: it sends every file of the
    batch, whatever the remote store holds, so a repeated run publishes
    again (see the counterexample). *)
Theorem C1_reconciliation_publishes_unmatched_only (net : Transport) (ps : list string) (idx : Index) (w : World) :
  NoDup ps -> Forall (fun p => is_Some (w_files w !! p)) ps ->
  (forall p ev, In p ps -> w_files w !! p = Some ev -> matches_existing ev idx = true ->
     w_files (snd (compare_and_handle_existing ps idx w)) !! p = None)
  /\ (_ <-- compare_and_handle_existing ps idx ;; upload_to_radicale_individual_files net ps) w
       = send_all net (reconciled_requests (fun p ev => PutIcs (basename p) ev) ps idx (w_files w))
                  (mkWorld (reconcile_files ps idx (w_files w)) (w_uuids w) (w_requests w))
  /\ (forall cals cal, find_personal cals = Some cal ->
        (_ <-- compare_and_handle_existing ps idx ;; nc_upload_to_nextcloud_individual_files net (Some cals) ps) w
        = send_each net (reconciled_requests (fun _ ev => AddEvent (cal_name cal) ev) ps idx (w_files w))
                    (mkWorld (reconcile_files ps idx (w_files w)) (w_uuids w) (w_requests w)))
  /\ (delivers net ->
        (_ <-- compare_and_handle_existing ps idx ;; upload_to_radicale_individual_files net ps) w
        = (Ok tt, mkWorld (reconcile_files ps idx (w_files w)) (w_uuids w)
                    (w_requests w ++ reconciled_requests (fun p ev => PutIcs (basename p) ev) ps idx (w_files w))))
  /\ ((forall p ev, In p ps -> w_files w !! p = Some ev -> matches_existing ev idx = true) ->
        (forall mk, reconciled_requests mk ps idx (w_files w) = [])
        /\ (_ <-- compare_and_handle_existing ps idx ;; upload_to_radicale_individual_files net ps) w
           = (Ok tt, mkWorld (reconcile_files ps idx (w_files w)) (w_uuids w) (w_requests w))
        /\ (forall cals, (_ <-- compare_and_handle_existing ps idx ;;
                          nc_upload_to_nextcloud_individual_files net (Some cals) ps) w
           = (Ok tt, mkWorld (reconcile_files ps idx (w_files w)) (w_uuids w) (w_requests w))))
  /\ sync_upload_to_nextcloud_individual_files net ps w
       = send_all net (all_requests (fun p ev => PutIcs (basename p) ev) ps (w_files w)) w.
Proof.
  intros Hnd Hall. pose proof (compare_and_handle_existing_ok ps idx w Hnd Hall) as Hc.
  assert (Hrad : (_ <-- compare_and_handle_existing ps idx ;; upload_to_radicale_individual_files net ps) w
       = send_all net (reconciled_requests (fun p ev => PutIcs (basename p) ev) ps idx (w_files w))
                  (mkWorld (reconcile_files ps idx (w_files w)) (w_uuids w) (w_requests w))).
  { unfold bind at 1. rewrite Hc, upload_to_radicale_individual_files_spec. cbn [w_files].
    now rewrite all_requests_reconciled. }
  assert (Hnc : forall cals cal, find_personal cals = Some cal ->
        (_ <-- compare_and_handle_existing ps idx ;; nc_upload_to_nextcloud_individual_files net (Some cals) ps) w
        = send_each net (reconciled_requests (fun _ ev => AddEvent (cal_name cal) ev) ps idx (w_files w))
                    (mkWorld (reconcile_files ps idx (w_files w)) (w_uuids w) (w_requests w))).
  { intros cals cal Hcal. unfold bind at 1. rewrite Hc. unfold nc_upload_to_nextcloud_individual_files.
    rewrite Hcal, nc_add_files_spec. cbn [w_files]. now rewrite all_requests_reconciled. }
  split; [|split; [exact Hrad|split; [exact Hnc|split; [|split]]]].
  - intros p ev Hin Hev Hm. rewrite Hc. simpl. eapply reconcile_files_removes; eassumption.
  - intros Hnet. rewrite Hrad, send_all_delivered by exact Hnet. reflexivity.
  - intros H. assert (Hnil : forall mk, reconciled_requests mk ps idx (w_files w) = [])
      by (intros mk; now apply reconciled_requests_all_match).
    split; [exact Hnil|]. split.
    + rewrite Hrad, Hnil. reflexivity.
    + intros cals. destruct (find_personal cals) as [cal|] eqn:Hcal.
      * rewrite (Hnc cals cal Hcal), Hnil. reflexivity.
      * unfold bind at 1. rewrite Hc. unfold nc_upload_to_nextcloud_individual_files.
        rewrite Hcal. reflexivity.
  - now apply sync_upload_to_nextcloud_individual_files_spec.
Qed.

Lemma C1_witness :
  NoDup [day_path] /\ Forall (fun p => is_Some (w_files w_day !! p)) [day_path]
  /\ (_ <-- compare_and_handle_existing [day_path] (fst (add_components [] [remote_day])) ;;
      upload_to_radicale_individual_files net_ok [day_path]) w_day
     = send_all net_ok (reconciled_requests (fun p ev => PutIcs (basename p) ev) [day_path]
                          (fst (add_components [] [remote_day])) (w_files w_day))
                (mkWorld (reconcile_files [day_path] (fst (add_components [] [remote_day])) (w_files w_day))
                   (w_uuids w_day) (w_requests w_day)).
Proof.
  assert (H1 : NoDup [day_path]) by apply NoDup_singleton.
  assert (H2 : Forall (fun p => is_Some (w_files w_day !! p)) [day_path])
    by (constructor; [eexists; reflexivity | constructor]).
  split; [exact H1|]. split; [exact H2|].
  exact (proj1 (proj2 (C1_reconciliation_publishes_unmatched_only net_ok [day_path]
                         (fst (add_components [] [remote_day])) w_day H1 H2))).
Defined.

(** C1: [sync.py] run twice on the same shift, with every request
    accepted, publishes it twice, under two uids, with equal keys. *)
Lemma C1_sync_variant_republishes :
  let w1 := snd (sync_main gen now0 "1736179200" net_ok (Ok [day_shift]) w0) in
  let w2 := snd (sync_main gen now0 "1736179200" net_ok (Ok [day_shift]) w1) in
  match w_requests w2 with
  | [PutIcs n1 e1; PutIcs n2 e2] =>
      key_eqb (new_event_key e1) (new_event_key e2) && negb (String.eqb (ev_uid e1) (ev_uid e2))
  | _ => false
  end = true.
Proof. vm_compute. reflexivity. Qed.

(** C3 (confirmed): whether reconciliation treats a new event as a
    duplicate of an indexed remote VEVENT with start [s] and end [e]
    depends only on start, end and summary: its file is deleted exactly
    when the starts, the ends and the summaries are equal (Python's [==];
    aware datetimes compare as instants), and changing the uid or the
    DTSTAMP of the new event never changes whether it matches. *)
Theorem C3_duplicate_detection_by_event_key (ev : VEvent) (c : RemoteVEvent) (s e : PyTime)
    (p : string) (w : World) :
  r_dtstart c = Some s -> r_dtend c = Some e -> w_files w !! p = Some ev ->
  w_files (snd (compare_and_handle_existing [p] (fst (add_components [] [c])) w)) !! p
    = (if py_time_eqb (ev_dtstart ev) s && py_time_eqb (ev_dtend ev) e
          && opt_str_eqb (Some (ev_summary ev)) (r_summary c)
       then None else Some ev)
  /\ (forall (uid : string) (stamp : PyTime) (idx : Index),
        matches_existing (mkVEvent (ev_summary ev) (ev_dtstart ev) (ev_dtend ev) uid stamp) idx
        = matches_existing ev idx).
Proof.
  intros Hs He Hev. split; [|reflexivity].
  rewrite compare_and_handle_existing_ok.
  - cbn [snd w_files]. rewrite reconcile_files_lookup.
    rewrite bool_decide_eq_true_2 by apply list_elem_of_here.
    rewrite Hev. unfold add_components, component_key. rewrite Hs, He. simpl.
    unfold matches_existing. simpl. rewrite orb_false_r. reflexivity.
  - apply NoDup_singleton.
  - constructor; [rewrite Hev; eexists; reflexivity | constructor].
Qed.

Lemma C3_witness :
  r_dtstart remote_day = Some (ev_dtstart ev_day) /\ r_dtend remote_day = Some (ev_dtend ev_day)
  /\ w_files w_day !! day_path = Some ev_day
  /\ w_files (snd (compare_and_handle_existing [day_path] (fst (add_components [] [remote_day])) w_day)) !! day_path
     = None.
Proof.
  assert (H1 : r_dtstart remote_day = Some (ev_dtstart ev_day)) by reflexivity.
  assert (H2 : r_dtend remote_day = Some (ev_dtend ev_day)) by reflexivity.
  assert (H3 : w_files w_day !! day_path = Some ev_day) by reflexivity.
  split; [exact H1|]. split; [exact H2|]. split; [exact H3|].
  rewrite (proj1 (C3_duplicate_detection_by_event_key ev_day remote_day _ _ day_path w_day H1 H2 H3)).
  reflexivity.
Defined.

(** C10 (confirmed): reconciliation compares the new events with the
    remote index only: two files of one run holding events with equal
    keys, where that key is in no entry of the index, both stay, and
    the publishing step sends both, in order (PUT to Radicale, or
    [add_event] on Nextcloud's 'personal' calendar); when the store
    accepts the requests, both are uploaded. *)
Theorem C10_no_dedup_within_batch (net : Transport) (p1 p2 : string) (ev1 ev2 : VEvent) (idx : Index) (w : World) :
  p1 <> p2 -> w_files w !! p1 = Some ev1 -> w_files w !! p2 = Some ev2 ->
  key_eqb (new_event_key ev1) (new_event_key ev2) = true ->
  matches_existing ev1 idx = false ->
  w_files (snd (compare_and_handle_existing [p1; p2] idx w)) = w_files w
  /\ (_ <-- compare_and_handle_existing [p1; p2] idx ;; upload_to_radicale_individual_files net [p1; p2]) w
     = send_all net [PutIcs (basename p1) ev1; PutIcs (basename p2) ev2] w
  /\ (forall cals cal, find_personal cals = Some cal ->
        (_ <-- compare_and_handle_existing [p1; p2] idx ;;
         nc_upload_to_nextcloud_individual_files net (Some cals) [p1; p2]) w
        = send_each net [AddEvent (cal_name cal) ev1; AddEvent (cal_name cal) ev2] w)
  /\ (delivers net ->
        (_ <-- compare_and_handle_existing [p1; p2] idx ;; upload_to_radicale_individual_files net [p1; p2]) w
        = (Ok tt, mkWorld (w_files w) (w_uuids w)
                    (w_requests w ++ [PutIcs (basename p1) ev1; PutIcs (basename p2) ev2]))
        /\ (forall cals cal, find_personal cals = Some cal ->
              w_requests (snd ((_ <-- compare_and_handle_existing [p1; p2] idx ;;
                                nc_upload_to_nextcloud_individual_files net (Some cals) [p1; p2]) w))
              = w_requests w ++ [AddEvent (cal_name cal) ev1; AddEvent (cal_name cal) ev2])).
Proof.
  intros Hne H1 H2 Hkey Hm1.
  assert (Hm2 : matches_existing ev2 idx = false)
    by (rewrite <- (matches_existing_congr _ _ idx Hkey); exact Hm1).
  assert (Hnd : NoDup [p1; p2]).
  { apply NoDup_cons_2; [rewrite list_elem_of_singleton; exact Hne | apply NoDup_singleton]. }
  assert (Hall : Forall (fun p => is_Some (w_files w !! p)) [p1; p2]).
  { constructor; [rewrite H1; eexists; reflexivity|].
    constructor; [rewrite H2; eexists; reflexivity | constructor]. }
  assert (Hfiles : reconcile_files [p1; p2] idx (w_files w) = w_files w).
  { unfold reconcile_files. cbn [fold_left]. rewrite H1, Hm1, H2, Hm2. reflexivity. }
  pose proof (compare_and_handle_existing_ok _ idx w Hnd Hall) as Hc.
  rewrite Hfiles, <- world_eta in Hc.
  assert (Hrad : (_ <-- compare_and_handle_existing [p1; p2] idx ;; upload_to_radicale_individual_files net [p1; p2]) w
     = send_all net [PutIcs (basename p1) ev1; PutIcs (basename p2) ev2] w).
  { unfold bind at 1. rewrite Hc, upload_to_radicale_individual_files_spec.
    unfold all_requests. cbn [flat_map]. now rewrite H1, H2. }
  assert (Hnc : forall cals cal, find_personal cals = Some cal ->
        (_ <-- compare_and_handle_existing [p1; p2] idx ;;
         nc_upload_to_nextcloud_individual_files net (Some cals) [p1; p2]) w
        = send_each net [AddEvent (cal_name cal) ev1; AddEvent (cal_name cal) ev2] w).
  { intros cals cal Hcal. unfold bind at 1. rewrite Hc. unfold nc_upload_to_nextcloud_individual_files.
    rewrite Hcal, nc_add_files_spec. unfold all_requests. cbn [flat_map]. now rewrite H1, H2. }
  split; [rewrite Hc; reflexivity|]. split; [exact Hrad|]. split; [exact Hnc|].
  intros Hnet. split.
  - rewrite Hrad. now apply send_all_delivered.
  - intros cals cal Hcal. rewrite (Hnc cals cal Hcal), send_each_delivered by exact Hnet. reflexivity.
Qed.

Lemma C10_witness :
  day_path <> rerun_path /\ w_files w_two !! day_path = Some ev_day
  /\ w_files w_two !! rerun_path = Some ev_day_rerun
  /\ key_eqb (new_event_key ev_day) (new_event_key ev_day_rerun) = true
  /\ matches_existing ev_day [] = false
  /\ w_files (snd (compare_and_handle_existing [day_path; rerun_path] [] w_two)) = w_files w_two.
Proof.
  assert (H1 : day_path <> rerun_path) by discriminate.
  assert (H2 : w_files w_two !! day_path = Some ev_day) by reflexivity.
  assert (H3 : w_files w_two !! rerun_path = Some ev_day_rerun) by reflexivity.
  assert (H4 : key_eqb (new_event_key ev_day) (new_event_key ev_day_rerun) = true) by reflexivity.
  assert (H5 : matches_existing ev_day [] = false) by reflexivity.
  split; [exact H1|]. split; [exact H2|]. split; [exact H3|]. split; [exact H4|]. split; [exact H5|].
  exact (proj1 (C10_no_dedup_within_batch net_ok _ _ _ _ [] w_two H1 H2 H3 H4 H5)).
Defined.

(* ------------------------------------------------------------------ *)
(** ** Normalization: [strptime] on "date clock" *)

Lemma span_ws_app (l w r x : lstr) :
  span_ws l = (w, r) -> r <> [] -> span_ws (l ++ x) = (w, r ++ x).
Proof.
  revert w r. induction l as [|a l IH]; intros w r H Hr; simpl in *.
  - injection H as <- <-. contradiction.
  - destruct (is_space a).
    + destruct (span_ws l) as [w' r'] eqn:E. injection H as <- <-.
      now rewrite (IH w' r' eq_refl Hr).
    + now injection H as <- <-.
Qed.

Lemma ws1_app (l r x : lstr) : ws1 l = Some (tt, r) -> r <> [] -> ws1 (l ++ x) = Some (tt, r ++ x).
Proof.
  unfold ws1. intros H Hr. destruct (span_ws l) as [w r'] eqn:E.
  destruct w as [|c w]; [discriminate|]. injection H as <-.
  now rewrite (span_ws_app _ _ _ _ E Hr).
Qed.

Lemma parse_name_app (names : list lstr) (l r x : lstr) (i : Z) :
  parse_name names l = Some (i, r) -> parse_name names (l ++ x) = Some (i, r ++ x).
Proof.
  destruct l as [|a [|b [|c l]]]; simpl; try discriminate.
  destruct (index_of _ _ _); [|discriminate]. now intros [= <- <-].
Qed.

Lemma parse_Y_app (l r x : lstr) (y : Z) :
  parse_Y l = Some (y, r) -> parse_Y (l ++ x) = Some (y, r ++ x).
Proof.
  destruct l as [|a [|b [|c [|d l]]]]; simpl; try discriminate.
  destruct (_ && _); [|discriminate]. now intros [= <- <-].
Qed.

Lemma parse_d_app (l r x : lstr) (d : Z) :
  parse_d l = Some (d, r) -> r <> [] -> parse_d (l ++ x) = Some (d, r ++ x).
Proof.
  destruct l as [|a [|b l]]; simpl; intros H Hr; [discriminate| |].
  - destruct (is_digit19 a); [|discriminate]. injection H as _ <-. contradiction.
  - repeat match type of H with context [if ?c then _ else _] => destruct c end;
      try discriminate; injection H as <- <-; reflexivity.
Qed.

Lemma parse_date_part_app (df x : lstr) (v : Z * Z * Z) (r : lstr) :
  parse_date_part df = Some (v, r) -> parse_date_part (df ++ x) = Some (v, r ++ x).
Proof.
  unfold parse_date_part, pbind. intros H.
  destruct (parse_name weekday_abbrs df) as [[i1 r1]|] eqn:E1; [|discriminate].
  rewrite (parse_name_app _ _ _ _ _ E1). cbv beta iota.
  destruct (ws1 r1) as [[[] r2]|] eqn:E2; [|discriminate].
  destruct (parse_name month_abbrs r2) as [[mi r3]|] eqn:E3; [|discriminate].
  rewrite (ws1_app _ _ _ E2) by (intros ->; discriminate E3). cbv beta iota.
  rewrite (parse_name_app _ _ _ _ _ E3). cbv beta iota.
  destruct (ws1 r3) as [[[] r4]|] eqn:E4; [|discriminate].
  destruct (parse_d r4) as [[d r5]|] eqn:E5; [|discriminate].
  rewrite (ws1_app _ _ _ E4) by (intros ->; discriminate E5). cbv beta iota.
  destruct (ws1 r5) as [[[] r6]|] eqn:E6; [|discriminate].
  destruct (parse_Y r6) as [[y r7]|] eqn:E7; [|discriminate].
  rewrite (parse_d_app _ _ _ _ E5) by (intros ->; discriminate E6). cbv beta iota.
  rewrite (ws1_app _ _ _ E6) by (intros ->; discriminate E7). cbv beta iota.
  rewrite (parse_Y_app _ _ _ _ E7). cbv beta iota.
  injection H as <- <-. reflexivity.
Qed.

Lemma parse_local_on_date (df clock : lstr) (ymd : Z * Z * Z) (n : NaiveDT) :
  parse_date_part df = Some (ymd, []) -> parse_local df clock = Ok n ->
  (dt_year n, dt_month n, dt_day n) = ymd /\ dt_second n = 0.
Proof.
  intros Hd Hp. unfold parse_local in Hp.
  destruct (strptime _) as [n'|] eqn:Hs; [injection Hp as <-|discriminate].
  unfold strptime in Hs. rewrite list_ascii_of_string_of_list_ascii in Hs.
  rewrite (parse_date_part_app _ _ _ _ Hd) in Hs. cbn [app] in Hs.
  destruct ymd as [[y mo] d].
  destruct (parse_time_part (" "%char :: clock)) as [[[h mi] [|c r]]|]; try discriminate.
  destruct (_ && _); [|discriminate]. injection Hs as <-. split; reflexivity.
Qed.

Lemma same_day_span_of (ymd : Z * Z * Z) (ns ne : NaiveDT) (ev : VEvent) :
  (dt_year ns, dt_month ns, dt_day ns) = ymd /\ dt_second ns = 0 ->
  (dt_year ne, dt_month ne, dt_day ne) = ymd /\ dt_second ne = 0 ->
  ev_dtstart ev = localize_eastern ns -> ev_dtend ev = localize_eastern ne ->
  same_day_span ev ymd.
Proof.
  intros [Hds Hss] [Hde Hse] Hs He. unfold same_day_span.
  split; [exists ns; auto|]. split; [exists ne; auto|].
  rewrite Hs, He. unfold dtstart_lt_dtend. rewrite Hs, He. simpl. intros Hoff.
  injection Hoff as Hoff. rewrite Z.ltb_lt. unfold instant, to_seconds.
  rewrite <- Hde in Hds. injection Hds as Hy Hm Hd. rewrite Hy, Hm, Hd, Hss, Hse, Hoff. lia.
Qed.

Lemma nc_create_icalendar_event_ok uuid4 utcnow (date_str s e det : string) (sl : option string)
    (w w' : World) (ev : VEvent) :
  nc_create_icalendar_event uuid4 utcnow date_str s e det sl w = (Ok ev, w') ->
  exists df ns ne, date_formatted date_str = Ok df
    /\ parse_local df (list_ascii_of_string s) = Ok ns /\ parse_local df (list_ascii_of_string e) = Ok ne
    /\ ev_dtstart ev = localize_eastern ns /\ ev_dtend ev = localize_eastern ne.
Proof.
  unfold nc_create_icalendar_event, bind, lift, ret, uuid4_call. intros H.
  destruct (date_formatted date_str) as [df|] eqn:Hdf; [|discriminate].
  destruct (parse_local df (list_ascii_of_string s)) as [ns|] eqn:Hs; [|discriminate].
  destruct (parse_local df (list_ascii_of_string e)) as [ne|] eqn:He; [|discriminate].
  injection H as <- _. exists df, ns, ne. repeat split; assumption.
Qed.

Lemma rad_create_icalendar_event_ok uuid4 utcnow (date_str tr det : string) (w w' : World) (ev : VEvent) :
  rad_create_icalendar_event uuid4 utcnow date_str tr det w = (Ok ev, w') ->
  exists df t0 t1 ns ne, date_formatted date_str = Ok df
    /\ parse_local df t0 = Ok ns /\ parse_local df t1 = Ok ne
    /\ ev_dtstart ev = localize_eastern ns /\ ev_dtend ev = localize_eastern ne.
Proof.
  unfold rad_create_icalendar_event, bind, lift, ret, raise, uuid4_call. intros H.
  destruct (date_formatted date_str) as [df|] eqn:Hdf; [|discriminate].
  destruct (split_on "-" (list_ascii_of_string tr)) as [|t0 [|t1 rest]]; [discriminate|discriminate|].
  destruct (parse_local df (strip t0)) as [ns|] eqn:Hs; [|discriminate].
  destruct (parse_local df (strip t1)) as [ne|] eqn:He; [|discriminate].
  injection H as <- _. exists df, (strip t0), (strip t1), ns, ne. repeat split; assumption.
Qed.

(** C2 (corrected): for a date label whose first four words form a
    well-formed "%a %b %d %Y" date [ymd], every event the Nextcloud or
    Radicale normalizer produces from it has its start and end localized
    in [US/Eastern] (with pytz's offset for that local time) on the day
    [ymd]; when the two offsets agree, start < end holds exactly when the
    start clock time is earlier in the day than the end clock time. An
    overnight span therefore gives an event that ends before it starts
    (see the counterexample). *)
Theorem C2_same_day_eastern_span (uuid4 : nat -> string) (utcnow : NaiveDT) (date_str : string)
    (df : lstr) (ymd : Z * Z * Z) :
  date_formatted date_str = Ok df -> parse_date_part df = Some (ymd, []) ->
  (forall s e det sl w ev w',
     nc_create_icalendar_event uuid4 utcnow date_str s e det sl w = (Ok ev, w') -> same_day_span ev ymd)
  /\ (forall tr det w ev w',
     rad_create_icalendar_event uuid4 utcnow date_str tr det w = (Ok ev, w') -> same_day_span ev ymd).
Proof.
  intros Hdf Hd. split.
  - intros s e det sl w ev w' H.
    destruct (nc_create_icalendar_event_ok _ _ _ _ _ _ _ _ _ _ H) as (df' & ns & ne & Hdf' & Hs & He & Hes & Hee).
    rewrite Hdf in Hdf'. injection Hdf' as <-.
    apply (same_day_span_of ymd ns ne); [eapply parse_local_on_date; eassumption
                                      | eapply parse_local_on_date; eassumption | exact Hes | exact Hee].
  - intros tr det w ev w' H.
    destruct (rad_create_icalendar_event_ok _ _ _ _ _ _ _ _ H) as (df' & t0 & t1 & ns & ne & Hdf' & Hs & He & Hes & Hee).
    rewrite Hdf in Hdf'. injection Hdf' as <-.
    apply (same_day_span_of ymd ns ne); [eapply parse_local_on_date; eassumption
                                      | eapply parse_local_on_date; eassumption | exact Hes | exact Hee].
Qed.

Lemma C2_witness :
  date_formatted "Mon Jan 06 2025" = Ok (list_ascii_of_string "Mon Jan 06 2025")
  /\ parse_date_part (list_ascii_of_string "Mon Jan 06 2025") = Some ((2025, 1, 6), [])
  /\ nc_create_icalendar_event gen now0 "Mon Jan 06 2025" "9:00 AM" "5:00 PM" "Front Desk" None w0
     = (Ok ev_day, mkWorld ∅ 1 [])
  /\ same_day_span ev_day (2025, 1, 6).
Proof.
  assert (H1 : date_formatted "Mon Jan 06 2025" = Ok (list_ascii_of_string "Mon Jan 06 2025")) by reflexivity.
  assert (H2 : parse_date_part (list_ascii_of_string "Mon Jan 06 2025") = Some ((2025, 1, 6), [])) by reflexivity.
  assert (H3 : nc_create_icalendar_event gen now0 "Mon Jan 06 2025" "9:00 AM" "5:00 PM" "Front Desk" None w0
               = (Ok ev_day, mkWorld ∅ 1 [])) by (vm_compute; reflexivity).
  split; [exact H1|]. split; [exact H2|]. split; [exact H3|].
  exact (proj1 (C2_same_day_eastern_span gen now0 _ _ _ H1 H2) _ _ _ _ _ _ _ H3).
Defined.

(** C2: an overnight shift (10:00 PM to 6:00 AM) gives an event whose
    start is not before its end, in both normalizers. *)
Lemma C2_overnight_span_ends_before_start :
  match fst (nc_create_icalendar_event gen now0 "Mon Jan 06 2025" "10:00 PM" "6:00 AM" "No details available" None w0) with
  | Ok ev => dtstart_lt_dtend ev
  | Raise _ => true
  end = false
  /\ match fst (rad_create_icalendar_event gen now0 "Mon Jan 06 2025" "10:00 PM - 6:00 AM" "Night Desk" w0) with
     | Ok ev => dtstart_lt_dtend ev
     | Raise _ => true
     end = false.
Proof. split; vm_compute; reflexivity. Qed.

(* ------------------------------------------------------------------ *)
(** ** The remote index fetch and the runs *)

(** C5 (code bug): in [sync_radicale.py] the loop of
    [create_individual_ics_files] has no handler: when normalizing one
    entry raises (e.g. [IndexError] for a date label of fewer than four
    words), the whole batch raises, no file is written for the entries
    after it, and [main] ends in its handler without sending anything. *)
Theorem C5_radicale_batch_aborts_on_bad_entry (uuid4 : nat -> string) (utcnow : NaiveDT)
    (bad : RadEntry) (rest : list RadEntry) (w : World) (e : PyExn) :
  fst (rad_create_icalendar_event uuid4 utcnow (re_date bad) (re_time_range bad) (re_details bad) w) = Raise e ->
  fst (rad_create_individual_ics_files uuid4 utcnow (bad :: rest) w) = Raise e
  /\ w_files (snd (rad_create_individual_ics_files uuid4 utcnow (bad :: rest) w)) = w_files w
  /\ (forall net srv idx, rad_retrieve_existing_events srv = Ok idx ->
        fst (rad_main uuid4 utcnow net srv (Ok (bad :: rest)) w) = Ok (Aborted e)
        /\ w_requests (snd (rad_main uuid4 utcnow net srv (Ok (bad :: rest)) w)) = w_requests w).
Proof.
  intros H.
  destruct (rad_create_icalendar_event uuid4 utcnow (re_date bad) (re_time_range bad) (re_details bad) w)
    as [r w1] eqn:E.
  simpl in H. subst r.
  assert (Hbatch : rad_create_individual_ics_files uuid4 utcnow (bad :: rest) w = (Raise e, w1)).
  { cbn [rad_create_individual_ics_files]. unfold bind at 1. now rewrite E. }
  assert (Hf : w_files w1 = w_files w).
  { pose proof (rad_create_icalendar_event_files uuid4 utcnow (re_date bad) (re_time_range bad) (re_details bad) w) as Hf.
    now rewrite E in Hf. }
  assert (Hr : w_requests w1 = w_requests w).
  { pose proof (rad_create_icalendar_event_requests uuid4 utcnow (re_date bad) (re_time_range bad) (re_details bad) w) as Hr.
    now rewrite E in Hr. }
  rewrite Hbatch. split; [reflexivity|]. split; [exact Hf|].
  intros net srv idx Hidx.
  cbv [rad_main run_main try_except bind lift ret]. rewrite Hidx, Hbatch.
  split; [reflexivity | exact Hr].
Qed.

Lemma C5_witness :
  fst (rad_create_icalendar_event gen now0 (re_date short_label_shift) (re_time_range short_label_shift)
         (re_details short_label_shift) w0) = Raise IndexError
  /\ fst (rad_create_individual_ics_files gen now0 [short_label_shift; day_shift] w0) = Raise IndexError
  /\ w_files (snd (rad_create_individual_ics_files gen now0 [short_label_shift; day_shift] w0)) = ∅.
Proof.
  assert (H : fst (rad_create_icalendar_event gen now0 (re_date short_label_shift) (re_time_range short_label_shift)
                     (re_details short_label_shift) w0) = Raise IndexError) by reflexivity.
  destruct (C5_radicale_batch_aborts_on_bad_entry gen now0 short_label_shift [day_shift] w0 IndexError H)
    as [H1 [H2 _]].
  split; [exact H|]. split; [exact H1 | exact H2].
Defined.

(* ================================================================== *)
(** * Further properties of the scripts *)

(* ------------------------------------------------------------------ *)
(** ** Strings, splitting and paths *)

Lemma list_ascii_of_string_sapp (a b : string) :
  list_ascii_of_string (sapp a b) = list_ascii_of_string a ++ list_ascii_of_string b.
Proof. induction a as [|c a IH]; simpl; [reflexivity|]. now rewrite IH. Qed.

Lemma split_on_nonnil (sep : ascii) (l : lstr) : split_on sep l <> [].
Proof.
  destruct l as [|c r]; simpl; [discriminate|].
  destruct (ceq c sep); [discriminate|]. destruct (split_on sep r); discriminate.
Qed.

Lemma split_on_app (sep : ascii) (l1 l2 : lstr) :
  split_on sep (l1 ++ sep :: l2) = split_on sep l1 ++ split_on sep l2.
Proof.
  induction l1 as [|c r IH]; simpl.
  - unfold ceq. now rewrite Ascii.eqb_refl.
  - rewrite IH. destruct (ceq c sep); [reflexivity|].
    destruct (split_on sep r) as [|p ps] eqn:E; [now apply split_on_nonnil in E|]. reflexivity.
Qed.

Lemma split_on_nosep (sep : ascii) (l : lstr) : ~ In sep l -> split_on sep l = [l].
Proof.
  induction l as [|c r IH]; intros H; simpl; [reflexivity|].
  unfold ceq. destruct (Ascii.eqb_spec c sep) as [->|Hne]; [destruct H; left; reflexivity|].
  rewrite IH by (intros Hr; apply H; right; exact Hr). reflexivity.
Qed.

Lemma split_on_prefix_nosep (sep : ascii) (l1 l2 : lstr) :
  ~ In sep l1 ->
  split_on sep (l1 ++ l2) = match split_on sep l2 with p :: ps => (l1 ++ p) :: ps | [] => [l1] end.
Proof.
  induction l1 as [|c r IH]; intros H; simpl.
  - destruct (split_on sep l2) as [|p ps] eqn:E; [now apply split_on_nonnil in E|reflexivity].
  - unfold ceq at 1. destruct (Ascii.eqb_spec c sep) as [->|Hne]; [destruct H; left; reflexivity|].
    rewrite IH by (intros Hr; apply H; right; exact Hr).
    destruct (split_on sep l2); reflexivity.
Qed.

Lemma split_on_two (sep : ascii) (l : lstr) :
  In sep l -> exists p q r, split_on sep l = p :: q :: r.
Proof.
  intros Hin. apply List.in_split in Hin as [l1 [l2 ->]].
  rewrite split_on_app.
  destruct (split_on sep l1) as [|p [|p' ps]] eqn:E1; [now apply split_on_nonnil in E1| |].
  - destruct (split_on sep l2) as [|q qs] eqn:E2; [now apply split_on_nonnil in E2|].
    exists p, q, qs. reflexivity.
  - exists p, p', (ps ++ split_on sep l2). reflexivity.
Qed.

(** os.path.basename(os.path.join('individual_events', f"{uid}.ics")) *)
Theorem X_basename_of_ics_path (uid : string) :
  ~ In "/"%char (list_ascii_of_string uid) ->
  basename (ics_path uid) = sapp uid ".ics".
Proof.
  intros Huid. unfold basename, ics_path.
  rewrite !list_ascii_of_string_sapp.
  change (list_ascii_of_string "individual_events/")
    with (list_ascii_of_string "individual_events" ++ ["/"%char]).
  rewrite <- app_assoc. cbn [app]. rewrite split_on_app.
  rewrite (split_on_nosep "/" (list_ascii_of_string "individual_events")) by (simpl; intuition discriminate).
  rewrite split_on_nosep.
  - cbn [app last]. now rewrite <- list_ascii_of_string_sapp, string_of_list_ascii_of_string.
  - intros Hin. apply in_app_or in Hin as [Hin|Hin]; [exact (Huid Hin)|].
    simpl in Hin. intuition discriminate.
Qed.

Lemma X_basename_of_ics_path_witness :
  ~ In "/"%char (list_ascii_of_string "uuid-0@mydomain.com")
  /\ basename (ics_path "uuid-0@mydomain.com") = "uuid-0@mydomain.com.ics".
Proof.
  assert (H : ~ In "/"%char (list_ascii_of_string "uuid-0@mydomain.com")) by (simpl; intuition discriminate).
  split; [exact H | exact (X_basename_of_ics_path "uuid-0@mydomain.com" H)].
Defined.

Lemma date_formatted_more (s t : string) :
  (4 <= length (split_on " " (list_ascii_of_string s)))%nat ->
  date_formatted (sapp s (sapp " " t)) = date_formatted s.
Proof.
  intros H. unfold date_formatted.
  rewrite list_ascii_of_string_sapp.
  change (list_ascii_of_string (sapp " " t)) with (" "%char :: list_ascii_of_string t).
  rewrite split_on_app.
  destruct (split_on " " (list_ascii_of_string s)) as [|a [|b [|c [|d rest]]]];
    simpl in H; try lia. reflexivity.
Qed.

(** The three normalizers read the date label through
    [date_str.split(' ')] and its first four pieces only. *)
Theorem X_date_label_extra_words_ignored (uuid4 : nat -> string) (utcnow : NaiveDT) (unix_time : string)
    (s t : string) :
  (4 <= length (split_on " " (list_ascii_of_string s)))%nat ->
  (forall st en det sl, nc_create_icalendar_event uuid4 utcnow (sapp s (sapp " " t)) st en det sl
                        = nc_create_icalendar_event uuid4 utcnow s st en det sl)
  /\ (forall tr det, rad_create_icalendar_event uuid4 utcnow (sapp s (sapp " " t)) tr det
                     = rad_create_icalendar_event uuid4 utcnow s tr det)
  /\ (forall tr det, sync_create_icalendar_event uuid4 utcnow unix_time (sapp s (sapp " " t)) tr det
                     = sync_create_icalendar_event uuid4 utcnow unix_time s tr det).
Proof.
  intros H. split; [|split]; intros;
    unfold nc_create_icalendar_event, rad_create_icalendar_event, sync_create_icalendar_event;
    now rewrite (date_formatted_more s t H).
Qed.

Lemma X_date_label_extra_words_ignored_witness :
  nc_create_icalendar_event gen now0 "Mon Jan 06 2025 00:00:00 GMT-0500" "9:00 AM" "5:00 PM" "Front Desk" None
  = nc_create_icalendar_event gen now0 "Mon Jan 06 2025" "9:00 AM" "5:00 PM" "Front Desk" None.
Proof.
  assert (H : (4 <= length (split_on " " (list_ascii_of_string "Mon Jan 06 2025")))%nat) by (simpl; lia).
  exact (proj1 (X_date_label_extra_words_ignored gen now0 "0" "Mon Jan 06 2025" "00:00:00 GMT-0500" H)
           "9:00 AM" "5:00 PM" "Front Desk" None).
Defined.

(** [time_part = time_range.split('-')] and its pieces 0 and 1 only. *)
Theorem X_time_range_extra_pieces_ignored (uuid4 : nat -> string) (utcnow : NaiveDT) (unix_time : string)
    (date_str tr x : string) :
  In "-"%char (list_ascii_of_string tr) ->
  (forall det, rad_create_icalendar_event uuid4 utcnow date_str (sapp tr (sapp "-" x)) det
               = rad_create_icalendar_event uuid4 utcnow date_str tr det)
  /\ (forall det, sync_create_icalendar_event uuid4 utcnow unix_time date_str (sapp tr (sapp "-" x)) det
                  = sync_create_icalendar_event uuid4 utcnow unix_time date_str tr det).
Proof.
  intros Hin. destruct (split_on_two "-" _ Hin) as [p [q [r Hs]]].
  assert (Hx : split_on "-" (list_ascii_of_string (sapp tr (sapp "-" x)))
               = p :: q :: (r ++ split_on "-" (list_ascii_of_string x))).
  { rewrite list_ascii_of_string_sapp.
    change (list_ascii_of_string (sapp "-" x)) with ("-"%char :: list_ascii_of_string x).
    now rewrite split_on_app, Hs. }
  split; intros det; unfold rad_create_icalendar_event, sync_create_icalendar_event;
    rewrite Hx, Hs; reflexivity.
Qed.

Lemma X_time_range_extra_pieces_ignored_witness :
  rad_create_icalendar_event gen now0 "Mon Jan 06 2025" "9:00 AM - 5:00 PM - on call" "Front Desk"
  = rad_create_icalendar_event gen now0 "Mon Jan 06 2025" "9:00 AM - 5:00 PM " "Front Desk".
Proof.
  assert (H : In "-"%char (list_ascii_of_string "9:00 AM - 5:00 PM ")) by (simpl; intuition).
  exact (proj1 (X_time_range_extra_pieces_ignored gen now0 "0" "Mon Jan 06 2025" "9:00 AM - 5:00 PM " " on call" H)
           "Front Desk").
Defined.

(** [re.sub(r'\s*\[.*?\]', '', time_range)] leaves a time range without
    '[' exactly as it is, white space included. *)
Theorem X_clean_time_range_without_bracket (tr : string) :
  ~ In "["%char (list_ascii_of_string tr) -> clean_time_range tr = tr.
Proof.
  intros H. unfold clean_time_range. rewrite sub_annotations_no_bracket by exact H.
  apply string_of_list_ascii_of_string.
Qed.

Lemma X_clean_time_range_without_bracket_witness :
  clean_time_range " 9:00 AM - 5:00 PM " = " 9:00 AM - 5:00 PM ".
Proof.
  apply X_clean_time_range_without_bracket. simpl. intuition discriminate.
Defined.

(* ------------------------------------------------------------------ *)
(** ** What [strptime] accepts *)

Lemma is_digit_range (c : ascii) : is_digit c = true -> 0 <= digit_val c <= 9.
Proof.
  unfold is_digit, digit_val. intros H. apply andb_prop in H as [H1 H2].
  apply Nat.leb_le in H1, H2. lia.
Qed.

Lemma is_digit19_range (c : ascii) : is_digit19 c = true -> 1 <= digit_val c <= 9.
Proof.
  unfold is_digit19, digit_val. intros H. apply andb_prop in H as [H1 H2].
  apply Nat.leb_le in H1, H2. lia.
Qed.

Lemma is_digit05_range (c : ascii) :
  (48 <=? nat_of_ascii c)%nat && (nat_of_ascii c <=? 53)%nat = true -> 0 <= digit_val c <= 5.
Proof.
  unfold digit_val. intros H. apply andb_prop in H as [H1 H2].
  apply Nat.leb_le in H1, H2. lia.
Qed.

Ltac digit_facts :=
  repeat match goal with
  | H : ((48 <=? nat_of_ascii _)%nat && (nat_of_ascii _ <=? 53)%nat) = true |- _ =>
      apply is_digit05_range in H
  | H : (_ && _) = true |- _ => apply andb_prop in H as [? ?]
  | H : (_ || _) = true |- _ => apply orb_prop in H as [? | ?]
  | H : ceq _ _ = true |- _ => unfold ceq in H; apply Ascii.eqb_eq in H; subst
  | H : is_digit _ = true |- _ => apply is_digit_range in H
  | H : is_digit19 _ = true |- _ => apply is_digit19_range in H
  | |- context [digit_val (Ascii ?a ?b ?c ?d ?e ?f ?g ?h)] =>
      let v := eval vm_compute in (digit_val (Ascii a b c d e f g h)) in
      change (digit_val (Ascii a b c d e f g h)) with v
  end.

Ltac branch_cases H :=
  repeat match type of H with
  | context [if ?c then _ else _] => let E := fresh "E" in destruct c eqn:E
  end.

Lemma pbind_some {A B} (p : parser A) (f : A -> parser B) (l : lstr) (x : B * lstr) :
  pbind p f l = Some x -> exists a r, p l = Some (a, r) /\ f a r = Some x.
Proof.
  unfold pbind. destruct (p l) as [[a r]|]; [|discriminate]. intros H. now exists a, r.
Qed.

Lemma index_of_range (x : lstr) (xs : list lstr) (i j : Z) :
  index_of x xs i = Some j -> i <= j < i + Z.of_nat (length xs).
Proof.
  revert i. induction xs as [|y ys IH]; intros i H; simpl in H; [discriminate|].
  destruct (decide (x = y)).
  - injection H as <-. simpl. lia.
  - apply IH in H. simpl length. lia.
Qed.

Lemma parse_name_range (names : list lstr) (l r : lstr) (v : Z) :
  parse_name names l = Some (v, r) -> 0 <= v < Z.of_nat (length names).
Proof.
  unfold parse_name. destruct l as [|a [|b [|c l]]]; try discriminate.
  destruct (index_of _ names 0) as [i|] eqn:E; [|discriminate].
  intros H. injection H as <- _. apply index_of_range in E. lia.
Qed.

Lemma parse_d_range (l r : lstr) (v : Z) : parse_d l = Some (v, r) -> 1 <= v <= 31.
Proof.
  unfold parse_d. intros H. destruct l as [|a [|b l]]; [discriminate| |].
  - branch_cases H; [|discriminate]. injection H as <- _. digit_facts. lia.
  - branch_cases H; try discriminate; injection H as <- _; digit_facts; lia.
Qed.

Lemma parse_Y_range (l r : lstr) (v : Z) : parse_Y l = Some (v, r) -> 0 <= v <= 9999.
Proof.
  unfold parse_Y. intros H. destruct l as [|a [|b [|c [|d l]]]]; try discriminate.
  branch_cases H; [|discriminate]. injection H as <- _. digit_facts. lia.
Qed.

Lemma parse_I_range (l r : lstr) (v : Z) : parse_I l = Some (v, r) -> 1 <= v <= 12.
Proof.
  unfold parse_I. intros H. destruct l as [|a [|b l]]; [discriminate| |].
  - branch_cases H; [|discriminate]. injection H as <- _. digit_facts. lia.
  - branch_cases H; try discriminate; injection H as <- _; digit_facts; lia.
Qed.

Lemma parse_M_range (l r : lstr) (v : Z) : parse_M l = Some (v, r) -> 0 <= v <= 59.
Proof.
  unfold parse_M. intros H. destruct l as [|a [|b l]]; [discriminate| |].
  - branch_cases H; [|discriminate]. injection H as <- _. digit_facts. lia.
  - branch_cases H; try discriminate; injection H as <- _; digit_facts; lia.
Qed.

Lemma parse_date_part_range (l r : lstr) (y m d : Z) :
  parse_date_part l = Some ((y, m, d), r) -> 0 <= y <= 9999 /\ 1 <= m <= 12 /\ 1 <= d <= 31.
Proof.
  unfold parse_date_part. intros H.
  apply pbind_some in H as (wd & r1 & _ & H).
  apply pbind_some in H as (u1 & r2 & _ & H).
  apply pbind_some in H as (mi & r3 & Hm & H).
  apply pbind_some in H as (u2 & r4 & _ & H).
  apply pbind_some in H as (dd & r5 & Hd & H).
  apply pbind_some in H as (u3 & r6 & _ & H).
  apply pbind_some in H as (yy & r7 & Hy & H).
  injection H as <- <- <- _.
  apply parse_name_range in Hm. apply parse_d_range in Hd. apply parse_Y_range in Hy.
  simpl in Hm. lia.
Qed.

Lemma parse_time_part_range (l r : lstr) (h m : Z) :
  parse_time_part l = Some ((h, m), r) -> 0 <= h <= 23 /\ 0 <= m <= 59.
Proof.
  unfold parse_time_part. intros H.
  apply pbind_some in H as (u1 & r1 & _ & H).
  apply pbind_some in H as (i & r2 & Hi & H).
  apply pbind_some in H as (u2 & r3 & _ & H).
  apply pbind_some in H as (mi & r4 & Hm & H).
  apply pbind_some in H as (u3 & r5 & _ & H).
  apply pbind_some in H as (pm & r6 & _ & H).
  injection H as <- <- _.
  apply parse_I_range in Hi. apply parse_M_range in Hm.
  destruct pm, (Z.eqb_spec i 12); lia.
Qed.

Lemma strptime_valid (s : string) (n : NaiveDT) :
  strptime s = Some n -> valid_naive n.
Proof.
  unfold strptime, valid_naive. intros H.
  destruct (parse_date_part (list_ascii_of_string s)) as [[[[y mo] d] r]|] eqn:Hd; [|discriminate].
  destruct (parse_time_part r) as [[[h mi] [|c r']]|] eqn:Ht; try discriminate.
  destruct ((1 <=? y) && (d <=? days_in_month y mo)) eqn:Hc; [|discriminate].
  injection H as <-. apply andb_prop in Hc as [Hc1 Hc2].
  apply Z.leb_le in Hc1, Hc2.
  apply parse_date_part_range in Hd. apply parse_time_part_range in Ht. simpl. lia.
Qed.

(** [datetime.strptime(s, "%a %b %d %Y %I:%M %p")] only returns a real
    calendar day (year 1-9999, month 1-12, a day that exists in that
    month of that year, leap years included) at a clock time of the day,
    with zero seconds. *)
Theorem X_strptime_valid (s : string) (n : NaiveDT) :
  strptime s = Some n -> valid_naive n.
Proof. apply strptime_valid. Qed.

Lemma X_strptime_valid_witness :
  strptime "Thu Feb 29 2024 11:59 PM" = Some (mkNaive 2024 2 29 23 59 0)
  /\ valid_naive (mkNaive 2024 2 29 23 59 0).
Proof.
  assert (H : strptime "Thu Feb 29 2024 11:59 PM" = Some (mkNaive 2024 2 29 23 59 0)) by (vm_compute; reflexivity).
  split; [exact H | exact (X_strptime_valid _ _ H)].
Defined.

Lemma parse_local_valid (df clock : lstr) (n : NaiveDT) :
  parse_local df clock = Ok n -> valid_naive n.
Proof.
  unfold parse_local. destruct (strptime _) as [n'|] eqn:E; [|discriminate].
  intros H. injection H as <-. exact (strptime_valid _ _ E).
Qed.

Lemma sync_create_icalendar_event_ok uuid4 utcnow unix_time (date_str tr det : string)
    (w w' : World) (ev : VEvent) :
  sync_create_icalendar_event uuid4 utcnow unix_time date_str tr det w = (Ok ev, w') ->
  exists df t0 t1 ns ne, date_formatted date_str = Ok df
    /\ parse_local df t0 = Ok ns /\ parse_local df t1 = Ok ne
    /\ ev_dtstart ev = localize_eastern ns /\ ev_dtend ev = localize_eastern ne.
Proof.
  unfold sync_create_icalendar_event, bind, lift, ret, raise, uuid4_call. intros H.
  destruct (date_formatted date_str) as [df|] eqn:Hdf; [|discriminate].
  destruct (split_on "-" (list_ascii_of_string tr)) as [|t0 [|t1 rest]]; [discriminate|discriminate|].
  destruct (parse_local df (strip t0)) as [ns|] eqn:Hs; [|discriminate].
  destruct (parse_local df (strip t1)) as [ne|] eqn:He; [|discriminate].
  injection H as <- _. exists df, (strip t0), (strip t1), ns, ne. repeat split; assumption.
Qed.

(** Every event the three normalizers create starts and ends at a
    [US/Eastern]-localized real calendar datetime (a day that exists,
    a clock time of that day, whole minutes): what [strptime] rejects
    never reaches a file. *)
Theorem X_created_events_valid_times (uuid4 : nat -> string) (utcnow : NaiveDT) (unix_time : string) :
  (forall d s e det sl w ev w',
     nc_create_icalendar_event uuid4 utcnow d s e det sl w = (Ok ev, w') ->
     exists ns ne, valid_naive ns /\ valid_naive ne
       /\ ev_dtstart ev = localize_eastern ns /\ ev_dtend ev = localize_eastern ne)
  /\ (forall d tr det w ev w',
     rad_create_icalendar_event uuid4 utcnow d tr det w = (Ok ev, w') ->
     exists ns ne, valid_naive ns /\ valid_naive ne
       /\ ev_dtstart ev = localize_eastern ns /\ ev_dtend ev = localize_eastern ne)
  /\ (forall d tr det w ev w',
     sync_create_icalendar_event uuid4 utcnow unix_time d tr det w = (Ok ev, w') ->
     exists ns ne, valid_naive ns /\ valid_naive ne
       /\ ev_dtstart ev = localize_eastern ns /\ ev_dtend ev = localize_eastern ne).
Proof.
  split; [|split].
  - intros d s e det sl w ev w' H.
    destruct (nc_create_icalendar_event_ok _ _ _ _ _ _ _ _ _ _ H) as (df & ns & ne & _ & Hs & He & Hes & Hee).
    exists ns, ne. repeat split; try assumption; eapply parse_local_valid; eassumption.
  - intros d tr det w ev w' H.
    destruct (rad_create_icalendar_event_ok _ _ _ _ _ _ _ _ H) as (df & t0 & t1 & ns & ne & _ & Hs & He & Hes & Hee).
    exists ns, ne. repeat split; try assumption; eapply parse_local_valid; eassumption.
  - intros d tr det w ev w' H.
    destruct (sync_create_icalendar_event_ok _ _ _ _ _ _ _ _ _ H) as (df & t0 & t1 & ns & ne & _ & Hs & He & Hes & Hee).
    exists ns, ne. repeat split; try assumption; eapply parse_local_valid; eassumption.
Qed.

Lemma index_of_in (x : lstr) (xs : list lstr) (i : Z) : In x xs -> exists j, index_of x xs i = Some j.
Proof.
  revert i. induction xs as [|y ys IH]; intros i H; [destruct H|].
  simpl. destruct (decide (x = y)); [eexists; reflexivity|].
  destruct H as [->|H]; [contradiction|]. apply IH, H.
Qed.

Lemma parse_date_part_weekday (a b c : ascii) (r : lstr) :
  In (map lower_char [a; b; c]) weekday_abbrs ->
  parse_date_part (a :: b :: c :: r)
  = pbind ws1 (fun _ =>
    pbind (parse_name month_abbrs) (fun mi =>
    pbind ws1 (fun _ =>
    pbind parse_d (fun d =>
    pbind ws1 (fun _ =>
    pbind parse_Y (fun y =>
    fun r => Some ((y, mi + 1, d), r))))))) r.
Proof.
  intros H. destruct (index_of_in _ _ 0 H) as [j Hj].
  unfold parse_date_part, pbind at 1, parse_name at 1. rewrite Hj. reflexivity.
Qed.

(** %a is matched and then dropped: two labels that differ only in a
    (valid, case-insensitive) weekday name parse to the same datetime,
    so a weekday that does not fit the date is accepted silently. *)
Theorem X_strptime_weekday_ignored (a1 b1 c1 a2 b2 c2 : ascii) (r : lstr) :
  In (map lower_char [a1; b1; c1]) weekday_abbrs -> In (map lower_char [a2; b2; c2]) weekday_abbrs ->
  strptime (string_of_list_ascii (a1 :: b1 :: c1 :: r))
  = strptime (string_of_list_ascii (a2 :: b2 :: c2 :: r)).
Proof.
  intros H1 H2. unfold strptime. rewrite !list_ascii_of_string_of_list_ascii.
  rewrite (parse_date_part_weekday _ _ _ r H1), (parse_date_part_weekday _ _ _ r H2).
  reflexivity.
Qed.

Lemma X_strptime_weekday_ignored_witness :
  strptime "Mon Jan 07 2025 9:00 AM" = strptime "Tue Jan 07 2025 9:00 AM"
  /\ strptime "Tue Jan 07 2025 9:00 AM" = Some (mkNaive 2025 1 7 9 0 0).
Proof.
  split; [|vm_compute; reflexivity].
  apply (X_strptime_weekday_ignored "M" "o" "n" "T" "u" "e"
           (list_ascii_of_string " Jan 07 2025 9:00 AM")); vm_compute; tauto.
Defined.

(* ------------------------------------------------------------------ *)
(** ** [strftime('%I:%M %p')] read back by [strptime] *)

Lemma strftime_clock_table :
  forallb (fun h => forallb (fun m =>
    match parse_time_part (" "%char :: list_ascii_of_string
                             (strftime_clock (mkNaive 1 1 1 (Z.of_nat h) (Z.of_nat m) 0))) with
    | Some ((h', m'), []) => (h' =? Z.of_nat h) && (m' =? Z.of_nat m)
    | _ => false
    end) (seq 0 60)) (seq 0 24) = true.
Proof. vm_compute. reflexivity. Qed.

Lemma strftime_clock_parses (n : NaiveDT) :
  0 <= dt_hour n <= 23 -> 0 <= dt_minute n <= 59 ->
  parse_time_part (" "%char :: list_ascii_of_string (strftime_clock n)) = Some ((dt_hour n, dt_minute n), []).
Proof.
  intros Hh Hm.
  pose proof strftime_clock_table as T.
  rewrite forallb_forall in T. specialize (T (Z.to_nat (dt_hour n))).
  rewrite forallb_forall in T. specialize (T ltac:(apply in_seq; lia) (Z.to_nat (dt_minute n)) ltac:(apply in_seq; lia)).
  rewrite !Z2Nat.id in T by lia.
  change (strftime_clock n) with (strftime_clock (mkNaive 1 1 1 (dt_hour n) (dt_minute n) 0)).
  destruct (parse_time_part _) as [[[h' m'] [|c r]]|]; try discriminate.
  apply andb_prop in T as [T1 T2]. apply Z.eqb_eq in T1, T2. now subst.
Qed.

Lemma parse_local_clock_roundtrip (df clock : lstr) (ymd : Z * Z * Z) (n : NaiveDT) :
  parse_date_part df = Some (ymd, []) -> parse_local df clock = Ok n ->
  parse_local df (list_ascii_of_string (strftime_clock n)) = Ok n.
Proof.
  intros Hd Hp. pose proof (parse_local_valid _ _ _ Hp) as (_ & _ & _ & Hh & Hm & _).
  unfold parse_local, strptime in Hp |- *. rewrite !list_ascii_of_string_of_list_ascii in Hp |- *.
  rewrite !(parse_date_part_app _ _ _ _ Hd) in Hp. rewrite (parse_date_part_app _ _ _ _ Hd). cbn [app] in Hp |- *.
  destruct ymd as [[y mo] d].
  destruct (parse_time_part (" "%char :: clock)) as [[[h mi] [|c r]]|] eqn:Ht;
    cbv beta iota in Hp; try discriminate.
  destruct ((1 <=? y) && (d <=? days_in_month y mo)) eqn:Hc; cbv beta iota in Hp; [|discriminate].
  injection Hp as Hp. subst n.
  rewrite strftime_clock_parses by (simpl in *; lia). reflexivity.
Qed.

Lemma sapp_empty_r (s : string) : sapp s "" = s.
Proof. unfold sapp. induction s as [|c s IH]; [reflexivity|]. exact (f_equal (String c) IH). Qed.

(** The Nextcloud summary starts with "%I:%M %p - %I:%M %p" of the
    event's start and end, followed by nothing or by ": " and the
    details; each of the two clock texts, read back with the event's
    date label as the code reads its inputs, gives exactly the event's
    start and end. *)
Theorem X_nc_summary_clocks_read_back (uuid4 : nat -> string) (utcnow : NaiveDT)
    (date_str : string) (df : lstr) (ymd : Z * Z * Z) :
  date_formatted date_str = Ok df -> parse_date_part df = Some (ymd, []) ->
  forall s e det sl w ev w',
    nc_create_icalendar_event uuid4 utcnow date_str s e det sl w = (Ok ev, w') ->
    exists ns ne sfx,
      ev_dtstart ev = localize_eastern ns /\ ev_dtend ev = localize_eastern ne
      /\ ev_summary ev = sapp (sapp (strftime_clock ns) (sapp " - " (strftime_clock ne))) sfx
      /\ (sfx = "" \/ exists d, sfx = sapp ": " d)
      /\ parse_local df (list_ascii_of_string (strftime_clock ns)) = Ok ns
      /\ parse_local df (list_ascii_of_string (strftime_clock ne)) = Ok ne.
Proof.
  intros Hdf Hd s e det sl w ev w' H.
  unfold nc_create_icalendar_event, bind, lift, ret, uuid4_call in H. rewrite Hdf in H.
  destruct (parse_local df (list_ascii_of_string s)) as [ns|] eqn:Hs; [|discriminate].
  destruct (parse_local df (list_ascii_of_string e)) as [ne|] eqn:He; [|discriminate].
  injection H as <- _. cbn [ev_dtstart ev_dtend ev_summary].
  exists ns, ne.
  match goal with
  | |- context [if String.eqb ?d' "" then _ else _] =>
      destruct (String.eqb d' "");
      [exists ""; rewrite sapp_empty_r | exists (sapp ": " d')]
  end;
  (split; [reflexivity|]); (split; [reflexivity|]); (split; [reflexivity|]);
  (split; [first [left; reflexivity | right; eexists; reflexivity]|]);
  split; eapply parse_local_clock_roundtrip; eassumption.
Qed.

Lemma X_nc_summary_clocks_read_back_witness :
  date_formatted "Mon Jan 06 2025" = Ok (list_ascii_of_string "Mon Jan 06 2025")
  /\ parse_date_part (list_ascii_of_string "Mon Jan 06 2025") = Some ((2025, 1, 6), [])
  /\ nc_create_icalendar_event gen now0 "Mon Jan 06 2025" "9:00 AM" "5:00 PM" "Front Desk" None w0
     = (Ok (mkVEvent "09:00 AM - 05:00 PM: Front Desk"
                     (localize_eastern (mkNaive 2025 1 6 9 0 0)) (localize_eastern (mkNaive 2025 1 6 17 0 0))
                     "uuid-0@mydomain.com" (PNaive now0)), mkWorld ∅ 1 [])
  /\ exists ns ne sfx,
      ns = mkNaive 2025 1 6 9 0 0 /\ ne = mkNaive 2025 1 6 17 0 0
      /\ sapp (sapp (strftime_clock ns) (sapp " - " (strftime_clock ne))) sfx = "09:00 AM - 05:00 PM: Front Desk"
      /\ parse_local (list_ascii_of_string "Mon Jan 06 2025") (list_ascii_of_string (strftime_clock ns)) = Ok ns.
Proof.
  assert (H1 : date_formatted "Mon Jan 06 2025" = Ok (list_ascii_of_string "Mon Jan 06 2025")) by (vm_compute; reflexivity).
  assert (H2 : parse_date_part (list_ascii_of_string "Mon Jan 06 2025") = Some ((2025, 1, 6), [])) by (vm_compute; reflexivity).
  assert (H3 : nc_create_icalendar_event gen now0 "Mon Jan 06 2025" "9:00 AM" "5:00 PM" "Front Desk" None w0
     = (Ok (mkVEvent "09:00 AM - 05:00 PM: Front Desk"
                     (localize_eastern (mkNaive 2025 1 6 9 0 0)) (localize_eastern (mkNaive 2025 1 6 17 0 0))
                     "uuid-0@mydomain.com" (PNaive now0)), mkWorld ∅ 1 [])) by (vm_compute; reflexivity).
  split; [exact H1|]. split; [exact H2|]. split; [exact H3|].
  destruct (X_nc_summary_clocks_read_back gen now0 _ _ _ H1 H2 _ _ _ _ _ _ _ H3)
    as (ns & ne & sfx & Hs & He & Hsum & _ & Hrs & _).
  cbn [ev_dtstart ev_dtend localize_eastern] in Hs, He.
  injection Hs as Hs _. injection He as He _. subst ns ne.
  exists (mkNaive 2025 1 6 9 0 0), (mkNaive 2025 1 6 17 0 0), sfx.
  split; [reflexivity|]. split; [reflexivity|]. split; [exact (eq_sym Hsum)|exact Hrs].
Defined.

(* ------------------------------------------------------------------ *)
(** ** The batch loops that write one file per event *)

Lemma nc_create_icalendar_event_cases uuid4 utcnow d s e det sl (w : World) :
  (exists ex, nc_create_icalendar_event uuid4 utcnow d s e det sl w = (Raise ex, w))
  \/ (exists ev, nc_create_icalendar_event uuid4 utcnow d s e det sl w
                 = (Ok ev, mkWorld (w_files w) (S (w_uuids w)) (w_requests w))
                 /\ ev_uid ev = sapp (uuid4 (w_uuids w)) "@mydomain.com").
Proof.
  unfold nc_create_icalendar_event, bind, lift, ret, uuid4_call.
  destruct (date_formatted d) as [df|ex]; [|left; eexists; reflexivity].
  destruct (parse_local df (list_ascii_of_string s)) as [ns|ex]; [|left; eexists; reflexivity].
  destruct (parse_local df (list_ascii_of_string e)) as [ne|ex]; [|left; eexists; reflexivity].
  right. eexists. split; reflexivity.
Qed.

Lemma rad_create_icalendar_event_cases uuid4 utcnow d tr det (w : World) :
  (exists ex, rad_create_icalendar_event uuid4 utcnow d tr det w = (Raise ex, w))
  \/ (exists ev, rad_create_icalendar_event uuid4 utcnow d tr det w
                 = (Ok ev, mkWorld (w_files w) (S (w_uuids w)) (w_requests w))
                 /\ ev_uid ev = sapp (uuid4 (w_uuids w)) "@mydomain.com").
Proof.
  unfold rad_create_icalendar_event, bind, lift, ret, raise, uuid4_call.
  destruct (date_formatted d) as [df|ex]; [|left; eexists; reflexivity].
  destruct (split_on "-" (list_ascii_of_string tr)) as [|t0 [|t1 rest]];
    [left; eexists; reflexivity|left; eexists; reflexivity|].
  destruct (parse_local df (strip t0)) as [ns|ex]; [|left; eexists; reflexivity].
  destruct (parse_local df (strip t1)) as [ne|ex]; [|left; eexists; reflexivity].
  right. eexists. split; reflexivity.
Qed.

(** The files of a finished batch: every returned path holds an event
    whose uid names that path, and every other path is as it was. *)
Lemma batch_files_step (p : string) (ev : VEvent) (ps : list string) (fs fs' : gmap string VEvent) :
  ics_path (ev_uid ev) = p ->
  (forall q, In q ps -> exists ev', fs' !! q = Some ev' /\ ics_path (ev_uid ev') = q) ->
  (forall q, ~ In q ps -> fs' !! q = (<[p := ev]> fs) !! q) ->
  (forall q, In q (p :: ps) -> exists ev', fs' !! q = Some ev' /\ ics_path (ev_uid ev') = q)
  /\ (forall q, ~ In q (p :: ps) -> fs' !! q = fs !! q).
Proof.
  intros Hp Hin Hout. split.
  - intros q [<-|Hq]; [|exact (Hin q Hq)].
    destruct (in_dec string_dec p ps) as [Hq|Hq]; [exact (Hin p Hq)|].
    exists ev. rewrite (Hout p Hq). now rewrite lookup_insert_eq.
  - intros q Hq. rewrite (Hout q (fun H => Hq (or_intror H))).
    apply lookup_insert_ne. intros ->. apply Hq. left. reflexivity.
Qed.

Lemma rad_batch_paths (uuid4 : nat -> string) (utcnow : NaiveDT) (es : list RadEntry)
    (w w' : World) (ps : list string) :
  rad_create_individual_ics_files uuid4 utcnow es w = (Ok ps, w') ->
  ps = uuid_paths uuid4 (seq (w_uuids w) (length es))
  /\ w_uuids w' = (w_uuids w + length es)%nat /\ w_requests w' = w_requests w
  /\ (forall p, In p ps -> exists ev, w_files w' !! p = Some ev /\ ics_path (ev_uid ev) = p)
  /\ (forall p, ~ In p ps -> w_files w' !! p = w_files w !! p).
Proof.
  revert w w' ps. induction es as [|e es IH]; intros w w' ps H.
  - cbn in H. injection H as <- <-. simpl.
    repeat split; try lia; intros p Hp; solve [destruct Hp | reflexivity].
  - cbn [rad_create_individual_ics_files] in H. unfold bind at 1 in H.
    destruct (rad_create_icalendar_event_cases uuid4 utcnow (re_date e) (re_time_range e) (re_details e) w)
      as [[ex Hc]|[ev [Hc Hu]]]; rewrite Hc in H; [discriminate|].
    unfold bind at 1, write_file in H. unfold bind in H.
    match type of H with
    | context [rad_create_individual_ics_files uuid4 utcnow es ?w2] =>
        destruct (rad_create_individual_ics_files uuid4 utcnow es w2) as [[ps'|ex] w''] eqn:Er
    end; [|discriminate].
    unfold ret in H. injection H as <- <-.
    destruct (IH _ _ _ Er) as (Hps & Hn & Hr & Hin & Hout). cbn [w_files w_uuids w_requests] in Hps, Hn, Hr, Hout.
    split; [|split; [|split]].
    + rewrite Hps, Hu. reflexivity.
    + simpl. lia.
    + exact Hr.
    + apply (batch_files_step _ ev); [reflexivity | exact Hin | exact Hout].
Qed.

(** [create_individual_ics_files] of [sync_radicale.py], when it
    finishes: one path per entry, in order, each named by the next
    [uuid4()] value; each path holds an event whose uid names it, no
    other file changes and nothing is sent. *)
Theorem X_rad_batch_paths (uuid4 : nat -> string) (utcnow : NaiveDT) (es : list RadEntry)
    (w w' : World) (ps : list string) :
  rad_create_individual_ics_files uuid4 utcnow es w = (Ok ps, w') ->
  ps = uuid_paths uuid4 (seq (w_uuids w) (length es))
  /\ w_uuids w' = (w_uuids w + length es)%nat /\ w_requests w' = w_requests w
  /\ (forall p, In p ps -> exists ev, w_files w' !! p = Some ev /\ ics_path (ev_uid ev) = p)
  /\ (forall p, ~ In p ps -> w_files w' !! p = w_files w !! p).
Proof. apply rad_batch_paths. Qed.

Lemma X_rad_batch_paths_witness :
  exists w', rad_create_individual_ics_files gen now0 [day_shift; day_shift] w0
               = (Ok [ics_path "uuid-0@mydomain.com"; ics_path "uuid-1@mydomain.com"], w')
  /\ [ics_path "uuid-0@mydomain.com"; ics_path "uuid-1@mydomain.com"] = uuid_paths gen (seq 0 2).
Proof.
  destruct (rad_create_individual_ics_files gen now0 [day_shift; day_shift] w0) as [r w'] eqn:E.
  assert (Hr : fst (rad_create_individual_ics_files gen now0 [day_shift; day_shift] w0)
               = Ok [ics_path "uuid-0@mydomain.com"; ics_path "uuid-1@mydomain.com"])
    by (vm_compute; reflexivity).
  rewrite E in Hr. cbn [fst] in Hr. subst r.
  exists w'. split; [reflexivity|].
  exact (proj1 (X_rad_batch_paths gen now0 _ _ _ _ E)).
Defined.

Lemma nc_batch_paths (uuid4 : nat -> string) (utcnow : NaiveDT) (es : list RawShiftNC) (w : World) :
  exists n w', nc_create_individual_ics_files uuid4 utcnow es w
                 = (Ok (uuid_paths uuid4 (seq (w_uuids w) n)), w')
    /\ (n <= length es)%nat /\ w_uuids w' = (w_uuids w + n)%nat /\ w_requests w' = w_requests w
    /\ (forall p, In p (uuid_paths uuid4 (seq (w_uuids w) n)) ->
                  exists ev, w_files w' !! p = Some ev /\ ics_path (ev_uid ev) = p)
    /\ (forall p, ~ In p (uuid_paths uuid4 (seq (w_uuids w) n)) -> w_files w' !! p = w_files w !! p).
Proof.
  revert w. induction es as [|e es IH]; intros w.
  - exists 0%nat, w. simpl. repeat split; try lia; intros p Hp; solve [destruct Hp | reflexivity].
  - cbn [nc_create_individual_ics_files]. unfold bind at 1, try_except.
    destruct (nc_create_icalendar_event_cases uuid4 utcnow (rs_date e) (rs_start_time e) (rs_end_time e)
                (rs_details e) (rs_shift_length e) w) as [[ex Hc]|[ev [Hc Hu]]].
    + unfold bind at 1. rewrite Hc. unfold ret at 1.
      destruct (IH w) as (n & w' & Er & Hle & Hn & Hr & Hin & Hout).
      unfold bind. rewrite Er. unfold ret.
      exists n, w'. cbn [app length]. repeat split; auto; lia.
    + unfold bind at 1. rewrite Hc. unfold bind at 1, write_file, ret at 1.
      cbn [w_files w_uuids w_requests].
      set (w2 := mkWorld (<[ics_path (ev_uid ev) := ev]> (w_files w)) (S (w_uuids w)) (w_requests w)).
      destruct (IH w2) as (n & w' & Er & Hle & Hn & Hr & Hin & Hout).
      unfold bind. rewrite Er. unfold ret.
      exists (S n), w'. cbn [w_uuids w_requests w_files w2] in Hn, Hr, Hout.
      assert (Hp : ics_path (ev_uid ev) = ics_path (sapp (uuid4 (w_uuids w)) "@mydomain.com")) by now rewrite Hu.
      split; [cbn [seq map uuid_paths app]; now rewrite Hp|].
      split; [cbn [length]; lia|]. split; [lia|]. split; [exact Hr|].
      change (uuid_paths uuid4 (seq (w_uuids w) (S n)))
        with (ics_path (sapp (uuid4 (w_uuids w)) "@mydomain.com") :: uuid_paths uuid4 (seq (S (w_uuids w)) n)).
      rewrite <- Hp. apply (batch_files_step _ ev); [reflexivity | exact Hin | exact Hout].
Qed.

(** [create_individual_ics_files] of [sync_nextcloud.py] never raises:
    it returns the paths of the entries that succeeded, in order; those
    entries took the consecutive [uuid4()] values from the current one on
    (a failing entry takes none, as it fails before [uuid.uuid4()]);
    each path holds an event whose uid names it, no other file changes
    and nothing is sent. *)
Theorem X_nc_batch_paths (uuid4 : nat -> string) (utcnow : NaiveDT) (es : list RawShiftNC) (w : World) :
  exists n w', nc_create_individual_ics_files uuid4 utcnow es w
                 = (Ok (uuid_paths uuid4 (seq (w_uuids w) n)), w')
    /\ (n <= length es)%nat /\ w_uuids w' = (w_uuids w + n)%nat /\ w_requests w' = w_requests w
    /\ (forall p, In p (uuid_paths uuid4 (seq (w_uuids w) n)) ->
                  exists ev, w_files w' !! p = Some ev /\ ics_path (ev_uid ev) = p)
    /\ (forall p, ~ In p (uuid_paths uuid4 (seq (w_uuids w) n)) -> w_files w' !! p = w_files w !! p).
Proof. apply nc_batch_paths. Qed.

Lemma sapp_inj_l (a b c : string) : sapp a c = sapp b c -> a = b.
Proof.
  intros H. apply (f_equal list_ascii_of_string) in H. rewrite !list_ascii_of_string_sapp in H.
  apply app_inv_tail in H.
  rewrite <- (string_of_list_ascii_of_string a), <- (string_of_list_ascii_of_string b), H. reflexivity.
Qed.

Lemma sapp_inj_r (a b c : string) : sapp c a = sapp c b -> a = b.
Proof.
  intros H. apply (f_equal list_ascii_of_string) in H. rewrite !list_ascii_of_string_sapp in H.
  apply app_inv_head in H.
  rewrite <- (string_of_list_ascii_of_string a), <- (string_of_list_ascii_of_string b), H. reflexivity.
Qed.

Lemma ics_path_inj (a b : string) : ics_path a = ics_path b -> a = b.
Proof. unfold ics_path. intros H. now apply sapp_inj_r, sapp_inj_l in H. Qed.

Lemma uuid_paths_nodup (uuid4 : nat -> string) (ks : list nat) :
  (forall i j, uuid4 i = uuid4 j -> i = j) -> NoDup ks -> NoDup (uuid_paths uuid4 ks).
Proof.
  intros Hinj Hnd. unfold uuid_paths. induction Hnd as [|k ks Hk Hnd IH]; simpl; constructor; [|exact IH].
  intros Hin. apply list_elem_of_In, in_map_iff in Hin as [k' [Heq Hk']].
  apply ics_path_inj, sapp_inj_l, Hinj in Heq. subst k'. apply Hk, list_elem_of_In, Hk'.
Qed.

(** With a [uuid4()] that never repeats a value, the paths a batch
    returns are pairwise distinct in both scripts: no event of a batch
    overwrites the file of another event of the same batch, and in
    [sync_radicale.py] every entry of a finished batch has its own file. *)
Theorem X_batch_paths_distinct (uuid4 : nat -> string) (utcnow : NaiveDT) :
  (forall i j, uuid4 i = uuid4 j -> i = j) ->
  (forall es w ps w', rad_create_individual_ics_files uuid4 utcnow es w = (Ok ps, w') ->
     NoDup ps /\ length ps = length es)
  /\ (forall es w ps w', nc_create_individual_ics_files uuid4 utcnow es w = (Ok ps, w') -> NoDup ps).
Proof.
  intros Hinj. split.
  - intros es w ps w' H. destruct (rad_batch_paths _ _ _ _ _ _ H) as [-> _].
    split; [apply uuid_paths_nodup; [exact Hinj | apply NoDup_ListNoDup, seq_NoDup]|].
    unfold uuid_paths. now rewrite length_map, length_seq.
  - intros es w ps w' H. destruct (nc_batch_paths uuid4 utcnow es w) as (n & w'' & Er & _).
    rewrite H in Er. injection Er as -> _.
    apply uuid_paths_nodup; [exact Hinj | apply NoDup_ListNoDup, seq_NoDup].
Qed.

Lemma serial_uuid_inj (i j : nat) : serial_uuid i = serial_uuid j -> i = j.
Proof.
  unfold serial_uuid. intros H. apply (f_equal list_ascii_of_string) in H.
  rewrite !list_ascii_of_string_of_list_ascii in H.
  apply (f_equal (@length ascii)) in H. now rewrite !repeat_length in H.
Qed.

Lemma X_batch_paths_distinct_witness :
  (forall i j, serial_uuid i = serial_uuid j -> i = j)
  /\ NoDup (uuid_paths serial_uuid (seq 0 2))
  /\ (forall ps w', rad_create_individual_ics_files serial_uuid now0 [day_shift; day_shift] w0 = (Ok ps, w') ->
        NoDup ps /\ length ps = 2%nat).
Proof.
  split; [exact serial_uuid_inj|]. split; [apply uuid_paths_nodup; [exact serial_uuid_inj | apply NoDup_ListNoDup, seq_NoDup]|].
  intros ps w' H. exact (proj1 (X_batch_paths_distinct serial_uuid now0 serial_uuid_inj) _ _ _ _ H).
Defined.

(* ------------------------------------------------------------------ *)
(** ** Whole runs of [main] *)

Lemma batch_paths_present (ps : list string) (fs : gmap string VEvent) :
  (forall p, In p ps -> exists ev, fs !! p = Some ev /\ ics_path (ev_uid ev) = p) ->
  Forall (fun p => is_Some (fs !! p)) ps.
Proof.
  intros H. apply List.Forall_forall. intros p Hp. destruct (H p Hp) as [ev [Hev _]]. now exists ev.
Qed.

Lemma compare_and_handle_existing_nil_index (ps : list string) (w : World) :
  Forall (fun p => is_Some (w_files w !! p)) ps ->
  compare_and_handle_existing ps [] w = (Ok tt, w).
Proof.
  revert w. induction ps as [|p ps IH]; intros w Hall; [reflexivity|].
  inversion Hall as [|? ? [ev Hev] Hall']; subst.
  cbn [compare_and_handle_existing]. unfold bind at 1, read_file. rewrite Hev.
  unfold bind, ret. cbn [matches_existing existsb]. exact (IH w Hall').
Qed.

(** C4 (corrected): a transport failure of the index fetch aborts the
    run before anything is created or sent, in both variants, and so
    does a failure to list the objects of the 'personal' calendar. But
    a Radicale answer other than 200 or 207 (e.g. 401) is taken as an
    empty index and the run goes on: it PUTs every file of the batch,
    in order, completing when every PUT is accepted (see the
    counterexample). When no Nextcloud calendar is named 'personal'
    (compared after [lower()]), the index is empty, the events are
    created, and when the upload's new client finds no 'personal'
    calendar either the run completes without sending anything. The
    collection lookup is case-insensitive. *)
Theorem C4_index_fetch_outcomes (uuid4 : nat -> string) (utcnow : NaiveDT) :
  (forall net srv scraped w, get_collection srv = None ->
     rad_main uuid4 utcnow net srv scraped w = (Ok (Aborted TransportError), w))
  /\ (forall net srv_up scraped w, nc_main uuid4 utcnow net None srv_up scraped w = (Ok (Aborted TransportError), w))
  /\ (forall net cals c srv_up scraped w, find_personal cals = Some c -> cal_objects c = None ->
        nc_main uuid4 utcnow net (Some cals) srv_up scraped w = (Ok (Aborted TransportError), w))
  /\ (forall srv resp, get_collection srv = Some resp -> status_code resp <> 200 -> status_code resp <> 207 ->
        rad_retrieve_existing_events srv = Ok []
        /\ (forall net es w ps w1, rad_create_individual_ics_files uuid4 utcnow es w = (Ok ps, w1) ->
              rad_main uuid4 utcnow net srv (Ok es) w
              = run_main (send_all net (all_requests (fun p ev => PutIcs (basename p) ev) ps (w_files w1))) w1
              /\ (delivers net ->
                    rad_main uuid4 utcnow net srv (Ok es) w
                    = (Ok Completed, mkWorld (w_files w1) (w_uuids w1)
                                       (w_requests w ++ all_requests (fun p ev => PutIcs (basename p) ev) ps (w_files w1))))))
  /\ (forall net cals cals' shifts w, find_personal cals = None -> find_personal cals' = None ->
        nc_main uuid4 utcnow net (Some cals) (Some cals') (Ok shifts) w
        = (Ok Completed, snd (nc_create_individual_ics_files uuid4 utcnow shifts w))
        /\ w_requests (snd (nc_create_individual_ics_files uuid4 utcnow shifts w)) = w_requests w)
  /\ (forall c cals, lower (cal_name c) = lower "personal" -> find_personal (c :: cals) = Some c)
  /\ lower "PERSONAL" = lower "personal".
Proof.
  split; [|split; [|split; [|split; [|split; [|split]]]]].
  - intros net srv scraped w H.
    cbv [rad_main run_main try_except bind lift ret rad_retrieve_existing_events].
    rewrite H. reflexivity.
  - intros net srv_up scraped w. reflexivity.
  - intros net cals c srv_up scraped w Hc Ho.
    cbv [nc_main run_main try_except bind lift ret nc_retrieve_existing_events].
    rewrite Hc, Ho. reflexivity.
  - intros srv resp H H200 H207.
    assert (Hidx : rad_retrieve_existing_events srv = Ok []).
    { unfold rad_retrieve_existing_events. rewrite H.
      destruct (Z.eqb_spec (status_code resp) 200); [contradiction|].
      destruct (Z.eqb_spec (status_code resp) 207); [contradiction|]. reflexivity. }
    split; [exact Hidx|]. intros net es w ps w1 Hb.
    destruct (rad_batch_paths _ _ _ _ _ _ Hb) as (_ & _ & Hr & Hin & _).
    pose proof (batch_paths_present _ _ Hin) as Hall.
    assert (Hrun : rad_main uuid4 utcnow net srv (Ok es) w
              = run_main (send_all net (all_requests (fun p ev => PutIcs (basename p) ev) ps (w_files w1))) w1).
    { cbv [rad_main run_main try_except bind lift ret]. rewrite Hidx, Hb.
      rewrite (compare_and_handle_existing_nil_index _ _ Hall), upload_to_radicale_individual_files_spec.
      reflexivity. }
    split; [exact Hrun|]. intros Hnet. rewrite Hrun.
    cbv [run_main try_except bind ret]. rewrite send_all_delivered by exact Hnet. now rewrite Hr.
  - intros net cals cals' shifts w Hnone Hnone'.
    destruct (nc_batch_paths uuid4 utcnow shifts w) as (n & w1 & Er & _ & _ & Hr & Hin & _).
    pose proof (batch_paths_present _ _ Hin) as Hall.
    rewrite Er. split; [|exact Hr].
    cbv [nc_main run_main try_except bind lift ret nc_retrieve_existing_events].
    rewrite Hnone, Er, (compare_and_handle_existing_nil_index _ _ Hall).
    unfold nc_upload_to_nextcloud_individual_files. rewrite Hnone'. reflexivity.
  - intros c cals H. simpl. now rewrite H, String.eqb_refl.
  - reflexivity.
Qed.

(** C4: Radicale answering 401 to the index fetch: the run completes and
    uploads the scraped shift; Nextcloud without a 'personal' calendar:
    the run completes (nothing is sent). *)
Lemma C4_rejected_fetch_run_completes :
  fst (rad_main gen now0 net_ok radicale_401 (Ok [day_shift]) w0) = Ok Completed
  /\ length (w_requests (snd (rad_main gen now0 net_ok radicale_401 (Ok [day_shift]) w0))) = 1%nat
  /\ fst (nc_main gen now0 net_ok (Some [mkCollection "Work" (Some [])]) (Some [mkCollection "Work" (Some [])])
            (Ok [mkRawShiftNC "Mon Jan 06 2025" "9:00 AM" "5:00 PM" "Front Desk" None]) w0) = Ok Completed.
Proof. split; [|split]; vm_compute; reflexivity. Qed.

(** [main] of [sync_nextcloud.py], when the "personal" calendar is found
    by the index fetch, its objects can be listed, the new client of the
    upload step finds a "personal" calendar too, and [uuid4()] never
    repeats: the run completes whatever the shifts, the stored objects
    and the transport are (a bad shift, an unparseable object or a
    failing [add_event] is skipped, not fatal); it deletes the new files
    whose key is in the index, and sends, in order, an AddEvent to the
    upload client's calendar for some of the other new files: for all of
    them when the store accepts every request. *)
Theorem X_nc_run_completes (uuid4 : nat -> string) (utcnow : NaiveDT) (net : Transport)
    (cals cals' : list Collection) (cal cal' : Collection) (objs : list (option (list RemoteVEvent)))
    (shifts : list RawShiftNC) (w : World) :
  (forall i j, uuid4 i = uuid4 j -> i = j) ->
  find_personal cals = Some cal -> cal_objects cal = Some objs -> find_personal cals' = Some cal' ->
  exists ps w1 sent,
    nc_create_individual_ics_files uuid4 utcnow shifts w = (Ok ps, w1)
    /\ nc_main uuid4 utcnow net (Some cals) (Some cals') (Ok shifts) w
       = (Ok Completed,
          mkWorld (reconcile_files ps (nc_add_objects [] objs) (w_files w1)) (w_uuids w1) (w_requests w ++ sent))
    /\ sublist sent (reconciled_requests (fun _ ev => AddEvent (cal_name cal') ev) ps (nc_add_objects [] objs) (w_files w1))
    /\ (delivers net ->
          sent = reconciled_requests (fun _ ev => AddEvent (cal_name cal') ev) ps (nc_add_objects [] objs) (w_files w1)).
Proof.
  intros Hinj Hcal Hobj Hcal'.
  destruct (nc_batch_paths uuid4 utcnow shifts w) as (n & w1 & Er & _ & _ & Hr & Hin & _).
  set (ps := uuid_paths uuid4 (seq (w_uuids w) n)) in *.
  set (idx := nc_add_objects [] objs).
  set (rs := reconciled_requests (fun _ ev => AddEvent (cal_name cal') ev) ps idx (w_files w1)).
  set (wc := mkWorld (reconcile_files ps idx (w_files w1)) (w_uuids w1) (w_requests w)).
  destruct (send_each_total net rs wc) as [sent [Hs Hsub]].
  exists ps, w1, sent. split; [exact Er|].
  assert (Hnd : NoDup ps)
    by (apply uuid_paths_nodup; [exact Hinj | apply NoDup_ListNoDup, seq_NoDup]).
  pose proof (batch_paths_present _ _ Hin) as Hall.
  split; [|split; [exact Hsub|]].
  - cbv [nc_main run_main try_except bind lift ret nc_retrieve_existing_events].
    rewrite Hcal, Hobj, Er.
    rewrite (compare_and_handle_existing_ok _ _ _ Hnd Hall).
    unfold nc_upload_to_nextcloud_individual_files. rewrite Hcal', nc_add_files_spec.
    cbn [w_files w_uuids w_requests]. rewrite Hr, all_requests_reconciled.
    fold idx rs wc. rewrite Hs. reflexivity.
  - intros Hnet. rewrite send_each_delivered in Hs by exact Hnet.
    injection Hs as Hs. apply app_inv_head in Hs. now symmetry.
Qed.

Lemma X_nc_run_completes_witness :
  (forall i j, serial_uuid i = serial_uuid j -> i = j)
  /\ find_personal [mkCollection "Personal" (Some [None; Some [remote_day]])]
     = Some (mkCollection "Personal" (Some [None; Some [remote_day]]))
  /\ exists ps w1 sent,
    nc_create_individual_ics_files serial_uuid now0
      [mkRawShiftNC "Mon Jan 06" "9:00 AM" "5:00 PM" "Front Desk" None;
       mkRawShiftNC "Mon Jan 06 2025" "9:00 AM" "5:00 PM" "Front Desk" None] w0 = (Ok ps, w1)
    /\ nc_main serial_uuid now0 net_ok (Some [mkCollection "Personal" (Some [None; Some [remote_day]])])
         (Some [mkCollection "Personal" (Some [None; Some [remote_day]])])
         (Ok [mkRawShiftNC "Mon Jan 06" "9:00 AM" "5:00 PM" "Front Desk" None;
              mkRawShiftNC "Mon Jan 06 2025" "9:00 AM" "5:00 PM" "Front Desk" None]) w0
       = (Ok Completed,
          mkWorld (reconcile_files ps (nc_add_objects [] [None; Some [remote_day]]) (w_files w1)) (w_uuids w1)
                  (w_requests w0 ++ sent)).
Proof.
  assert (Hf : find_personal [mkCollection "Personal" (Some [None; Some [remote_day]])]
               = Some (mkCollection "Personal" (Some [None; Some [remote_day]]))) by (vm_compute; reflexivity).
  split; [exact serial_uuid_inj|]. split; [exact Hf|].
  destruct (X_nc_run_completes serial_uuid now0 net_ok _ _ _ _ [None; Some [remote_day]]
              [mkRawShiftNC "Mon Jan 06" "9:00 AM" "5:00 PM" "Front Desk" None;
               mkRawShiftNC "Mon Jan 06 2025" "9:00 AM" "5:00 PM" "Front Desk" None] w0
              serial_uuid_inj Hf eq_refl Hf) as (ps & w1 & sent & H1 & H2 & _).
  exists ps, w1, sent. split; [exact H1 | exact H2].
Defined.

(** [main] of [sync_radicale.py], when the index was read and every
    entry was normalized, with a [uuid4()] that never repeats: the run
    deletes the new files whose key is in the index and then PUTs, in
    order, each other new file under its base name, with no handler
    around a PUT: it completes when every PUT is accepted, and ends in
    its handler at the first one that raises. *)
Theorem X_rad_run_completes (uuid4 : nat -> string) (utcnow : NaiveDT) (net : Transport) (srv : RadicaleServer)
    (idx : Index) (es : list RadEntry) (w w1 : World) (ps : list string) :
  (forall i j, uuid4 i = uuid4 j -> i = j) ->
  rad_retrieve_existing_events srv = Ok idx ->
  rad_create_individual_ics_files uuid4 utcnow es w = (Ok ps, w1) ->
  rad_main uuid4 utcnow net srv (Ok es) w
  = run_main (send_all net (reconciled_requests (fun p ev => PutIcs (basename p) ev) ps idx (w_files w1)))
             (mkWorld (reconcile_files ps idx (w_files w1)) (w_uuids w1) (w_requests w))
  /\ (delivers net ->
      rad_main uuid4 utcnow net srv (Ok es) w
      = (Ok Completed,
         mkWorld (reconcile_files ps idx (w_files w1)) (w_uuids w1)
                 (w_requests w ++ reconciled_requests (fun p ev => PutIcs (basename p) ev) ps idx (w_files w1)))).
Proof.
  intros Hinj Hidx Hb.
  destruct (rad_batch_paths _ _ _ _ _ _ Hb) as (Hps & _ & Hr & Hin & _).
  assert (Hnd : NoDup ps)
    by (rewrite Hps; apply uuid_paths_nodup; [exact Hinj | apply NoDup_ListNoDup, seq_NoDup]).
  pose proof (batch_paths_present _ _ Hin) as Hall.
  assert (Hrun : rad_main uuid4 utcnow net srv (Ok es) w
    = run_main (send_all net (reconciled_requests (fun p ev => PutIcs (basename p) ev) ps idx (w_files w1)))
               (mkWorld (reconcile_files ps idx (w_files w1)) (w_uuids w1) (w_requests w))).
  { cbv [rad_main run_main try_except bind lift ret]. rewrite Hidx, Hb.
    rewrite (compare_and_handle_existing_ok _ _ _ Hnd Hall), upload_to_radicale_individual_files_spec.
    cbn [w_files w_uuids w_requests]. rewrite Hr, all_requests_reconciled. reflexivity. }
  split; [exact Hrun|]. intros Hnet. rewrite Hrun.
  cbv [run_main try_except bind ret]. rewrite send_all_delivered by exact Hnet. reflexivity.
Qed.

Lemma X_rad_run_completes_witness :
  exists w1 ps,
    rad_retrieve_existing_events radicale_empty = Ok []
    /\ rad_create_individual_ics_files serial_uuid now0 [day_shift] w0 = (Ok ps, w1)
    /\ rad_main serial_uuid now0 net_ok radicale_empty (Ok [day_shift]) w0
       = run_main (send_all net_ok (reconciled_requests (fun p ev => PutIcs (basename p) ev) ps [] (w_files w1)))
                  (mkWorld (reconcile_files ps [] (w_files w1)) (w_uuids w1) (w_requests w0)).
Proof.
  destruct (rad_create_individual_ics_files serial_uuid now0 [day_shift] w0) as [r w1] eqn:E.
  assert (Hr : fst (rad_create_individual_ics_files serial_uuid now0 [day_shift] w0)
               = Ok [ics_path (sapp (serial_uuid 0) "@mydomain.com")]) by (vm_compute; reflexivity).
  rewrite E in Hr. cbn [fst] in Hr. subst r.
  assert (Hi : rad_retrieve_existing_events radicale_empty = Ok []) by reflexivity.
  exists w1, [ics_path (sapp (serial_uuid 0) "@mydomain.com")].
  split; [exact Hi|]. split; [reflexivity|].
  exact (proj1 (X_rad_run_completes serial_uuid now0 net_ok radicale_empty [] [day_shift] w0 w1 _ serial_uuid_inj Hi E)).
Defined.

Lemma rad_batch_app (uuid4 : nat -> string) (utcnow : NaiveDT) (l1 l2 : list RadEntry)
    (w w1 : World) (ps : list string) :
  rad_create_individual_ics_files uuid4 utcnow l1 w = (Ok ps, w1) ->
  rad_create_individual_ics_files uuid4 utcnow (l1 ++ l2) w
  = match rad_create_individual_ics_files uuid4 utcnow l2 w1 with
    | (Ok ps', w2) => (Ok (ps ++ ps'), w2)
    | (Raise e, w2) => (Raise e, w2)
    end.
Proof.
  revert w w1 ps. induction l1 as [|e l1 IH]; intros w w1 ps H.
  - cbn in H. injection H as <- <-. simpl.
    match goal with
    | |- context [rad_create_individual_ics_files uuid4 utcnow l2 ?x] =>
        destruct (rad_create_individual_ics_files uuid4 utcnow l2 x) as [[ps'|ex] w2]; reflexivity
    end.
  - cbn [rad_create_individual_ics_files app] in H |- *. unfold bind at 1 in H. unfold bind at 1.
    destruct (rad_create_icalendar_event uuid4 utcnow (re_date e) (re_time_range e) (re_details e) w)
      as [[ev|ex] wa]; [|discriminate].
    unfold bind at 1, write_file in H. unfold bind at 1, write_file.
    unfold bind in H. unfold bind.
    match type of H with
    | context [rad_create_individual_ics_files uuid4 utcnow l1 ?wb] =>
        destruct (rad_create_individual_ics_files uuid4 utcnow l1 wb) as [[ps1|ex] wc] eqn:E1
    end; [|discriminate].
    unfold ret in H. injection H as <- <-.
    rewrite (IH _ _ _ E1).
    match goal with
    | |- context [rad_create_individual_ics_files uuid4 utcnow l2 ?x] =>
        destruct (rad_create_individual_ics_files uuid4 utcnow l2 x) as [[ps'|ex] w2]; reflexivity
    end.
Qed.

(** [main] of [sync_radicale.py] when an entry fails after earlier ones
    were normalized: the run ends in its handler with that error, the
    files already written for the earlier entries stay in
    [individual_events] (none is compared or deleted), and nothing is
    sent. *)
Theorem X_rad_abort_keeps_written_files (uuid4 : nat -> string) (utcnow : NaiveDT) (net : Transport) (srv : RadicaleServer)
    (idx : Index) (good rest : list RadEntry) (bad : RadEntry) (w w1 w2 : World) (ps : list string) (e : PyExn) :
  rad_retrieve_existing_events srv = Ok idx ->
  rad_create_individual_ics_files uuid4 utcnow good w = (Ok ps, w1) ->
  rad_create_icalendar_event uuid4 utcnow (re_date bad) (re_time_range bad) (re_details bad) w1 = (Raise e, w2) ->
  rad_main uuid4 utcnow net srv (Ok (good ++ bad :: rest)) w = (Ok (Aborted e), w2)
  /\ w_files w2 = w_files w1 /\ w_requests w2 = w_requests w
  /\ (forall p, In p ps -> is_Some (w_files w2 !! p)).
Proof.
  intros Hidx Hg Hbad.
  destruct (rad_batch_paths _ _ _ _ _ _ Hg) as (_ & _ & Hr & Hin & _).
  assert (Hf : w_files w2 = w_files w1).
  { pose proof (rad_create_icalendar_event_files uuid4 utcnow (re_date bad) (re_time_range bad) (re_details bad) w1) as Hf.
    now rewrite Hbad in Hf. }
  assert (Hr2 : w_requests w2 = w_requests w1).
  { pose proof (rad_create_icalendar_event_requests uuid4 utcnow (re_date bad) (re_time_range bad) (re_details bad) w1) as Hr2.
    now rewrite Hbad in Hr2. }
  assert (Hb : rad_create_individual_ics_files uuid4 utcnow (good ++ bad :: rest) w = (Raise e, w2)).
  { rewrite (rad_batch_app _ _ _ _ _ _ _ Hg). cbn [rad_create_individual_ics_files].
    unfold bind at 1. rewrite Hbad. reflexivity. }
  split; [|split; [exact Hf|split; [congruence|]]].
  - cbv [rad_main run_main try_except bind lift ret]. rewrite Hidx, Hb. reflexivity.
  - intros p Hp. rewrite Hf. destruct (Hin p Hp) as [ev [Hev _]]. now exists ev.
Qed.

Lemma X_rad_abort_keeps_written_files_witness :
  exists w1 w2,
    rad_create_individual_ics_files gen now0 [day_shift] w0 = (Ok [day_path], w1)
    /\ rad_create_icalendar_event gen now0 (re_date short_label_shift) (re_time_range short_label_shift)
         (re_details short_label_shift) w1 = (Raise IndexError, w2)
    /\ rad_main gen now0 net_ok radicale_empty (Ok ([day_shift] ++ short_label_shift :: [])) w0 = (Ok (Aborted IndexError), w2)
    /\ is_Some (w_files w2 !! day_path).
Proof.
  destruct (rad_create_individual_ics_files gen now0 [day_shift] w0) as [r w1] eqn:E.
  assert (Hr : fst (rad_create_individual_ics_files gen now0 [day_shift] w0) = Ok [day_path])
    by (vm_compute; reflexivity).
  rewrite E in Hr. cbn [fst] in Hr. subst r.
  destruct (rad_create_icalendar_event gen now0 (re_date short_label_shift) (re_time_range short_label_shift)
              (re_details short_label_shift) w1) as [r2 w2] eqn:E2.
  assert (Hr2 : fst (rad_create_icalendar_event gen now0 (re_date short_label_shift) (re_time_range short_label_shift)
                       (re_details short_label_shift) w1) = Raise IndexError) by reflexivity.
  rewrite E2 in Hr2. cbn [fst] in Hr2. subst r2.
  destruct (X_rad_abort_keeps_written_files gen now0 net_ok radicale_empty [] [day_shift] [] short_label_shift
              w0 w1 w2 [day_path] IndexError eq_refl E E2) as (Hm & _ & _ & Hp).
  exists w1, w2. split; [first [exact E | reflexivity]|]. split; [first [exact E2 | reflexivity]|].
  split; [exact Hm|].
  apply Hp. left. reflexivity.
Defined.

(* ------------------------------------------------------------------ *)
(** ** The remote index *)

Lemma naive_eqb_sym (a b : NaiveDT) : naive_eqb a b = naive_eqb b a.
Proof.
  unfold naive_eqb. now rewrite (Z.eqb_sym (dt_year a)), (Z.eqb_sym (dt_month a)), (Z.eqb_sym (dt_day a)),
    (Z.eqb_sym (dt_hour a)), (Z.eqb_sym (dt_minute a)), (Z.eqb_sym (dt_second a)).
Qed.

Lemma py_time_eqb_sym (a b : PyTime) : py_time_eqb a b = py_time_eqb b a.
Proof.
  destruct a, b; simpl; try reflexivity.
  - now rewrite (Z.eqb_sym y), (Z.eqb_sym m), (Z.eqb_sym d).
  - apply naive_eqb_sym.
  - apply Z.eqb_sym.
Qed.

Lemma opt_str_eqb_sym (a b : option string) : opt_str_eqb a b = opt_str_eqb b a.
Proof. destruct a, b; simpl; try reflexivity. apply String.eqb_sym. Qed.

Lemma key_eqb_sym (a b : EventKey) : key_eqb a b = key_eqb b a.
Proof.
  destruct a as [[s e] m], b as [[s' e'] m']. simpl.
  now rewrite (py_time_eqb_sym s), (py_time_eqb_sym e), (opt_str_eqb_sym m).
Qed.

Lemma key_eqb_congr_r (k k1 k2 : EventKey) :
  key_eqb k1 k2 = true -> key_eqb k k1 = key_eqb k k2.
Proof. intros H. rewrite (key_eqb_sym k k1), (key_eqb_sym k k2). now apply key_eqb_congr. Qed.

Lemma dict_set_matches (ev : VEvent) (idx : Index) (k : EventKey) (v : RemoteVEvent) :
  matches_existing ev (dict_set idx k v) = matches_existing ev idx || key_eqb (new_event_key ev) k.
Proof.
  unfold matches_existing. induction idx as [|[k' v'] idx IH]; cbn [dict_set existsb fst].
  - now rewrite orb_false_r.
  - destruct (key_eqb k' k) eqn:E; cbn [existsb fst].
    + rewrite (key_eqb_congr_r (new_event_key ev) _ _ E).
      destruct (key_eqb (new_event_key ev) k); simpl; [reflexivity|now rewrite orb_false_r].
    + rewrite IH. now rewrite orb_assoc.
Qed.

Lemma add_components_matches (ev : VEvent) (idx : Index) (cs : list RemoteVEvent) :
  matches_existing ev (fst (add_components idx cs))
  = matches_existing ev idx || existsb (key_eqb (new_event_key ev)) (leading_keys cs).
Proof.
  revert idx. induction cs as [|c cs IH]; intros idx; cbn [add_components leading_keys existsb fst].
  - now rewrite orb_false_r.
  - destruct (component_key c) as [k|ex]; cbn [existsb fst].
    + rewrite IH, dict_set_matches. now rewrite orb_assoc.
    + now rewrite orb_false_r.
Qed.

Lemma add_components_error (idx : Index) (cs : list RemoteVEvent) (e : PyExn) :
  snd (add_components idx cs) = Some e -> e = AttributeError /\ (length (leading_keys cs) < length cs)%nat.
Proof.
  revert idx. induction cs as [|c cs IH]; intros idx H; simpl in *; [discriminate|].
  unfold component_key in *.
  destruct (r_dtstart c), (r_dtend c); simpl in *;
    try (injection H as <-; split; [reflexivity|lia]).
  destruct (IH _ H) as [He Hl]. split; [exact He|lia].
Qed.

Lemma add_components_ok (idx : Index) (cs : list RemoteVEvent) :
  length (leading_keys cs) = length cs -> snd (add_components idx cs) = None.
Proof.
  revert idx. induction cs as [|c cs IH]; intros idx H; simpl in *; [reflexivity|].
  destruct (component_key c) as [k|ex]; simpl in *; [|discriminate].
  apply IH. lia.
Qed.

Lemma leading_keys_length (cs : list RemoteVEvent) : (length (leading_keys cs) <= length cs)%nat.
Proof.
  induction cs as [|c cs IH]; simpl; [lia|]. destruct (component_key c); simpl; lia.
Qed.

(** [existing_events[event_key] = ...] followed by the comparison loop:
    after setting a key, a new event matches the dict exactly when it
    matched before or its key equals the key set (overwriting an equal
    key neither adds nor loses a match). *)
Theorem X_dict_set_then_match (ev : VEvent) (idx : Index) (k : EventKey) (v : RemoteVEvent) :
  matches_existing ev (dict_set idx k v) = matches_existing ev idx || key_eqb (new_event_key ev) k.
Proof. apply dict_set_matches. Qed.

Lemma nc_add_objects_matches (ev : VEvent) (idx : Index) (objs : list (option (list RemoteVEvent))) :
  matches_existing ev (nc_add_objects idx objs)
  = matches_existing ev idx || existsb (key_eqb (new_event_key ev)) (object_keys objs).
Proof.
  revert idx. induction objs as [|o objs IH]; intros idx; cbn [nc_add_objects].
  - unfold object_keys. cbn [flat_map existsb]. now rewrite orb_false_r.
  - rewrite IH. unfold object_keys. cbn [flat_map]. rewrite existsb_app.
    destruct o as [cs|]; [rewrite add_components_matches; now rewrite orb_assoc|].
    reflexivity.
Qed.

(** [retrieve_existing_events] of [sync_nextcloud.py] with the
    'personal' calendar listed: the index it returns holds, for the
    comparison loop, exactly the keys of the stored objects, each object
    read up to its first VEVENT without DTSTART or DTEND; an object that
    does not parse, or such a VEVENT, only drops keys, it never fails
    the fetch. *)
Theorem X_nc_index_keys (srv_cals : list Collection) (c : Collection) (objs : list (option (list RemoteVEvent))) :
  find_personal srv_cals = Some c -> cal_objects c = Some objs ->
  exists idx, nc_retrieve_existing_events (Some srv_cals) = Ok idx
    /\ forall ev, matches_existing ev idx = existsb (key_eqb (new_event_key ev)) (object_keys objs).
Proof.
  intros Hc Ho. exists (nc_add_objects [] objs). unfold nc_retrieve_existing_events. rewrite Hc, Ho.
  split; [reflexivity|]. intros ev. rewrite nc_add_objects_matches. reflexivity.
Qed.

Lemma X_nc_index_keys_witness :
  find_personal [mkCollection "personal" (Some [None; Some [remote_day; mkRemote None None None; remote_member]])]
  = Some (mkCollection "personal" (Some [None; Some [remote_day; mkRemote None None None; remote_member]]))
  /\ object_keys [None; Some [remote_day; mkRemote None None None; remote_member]]
     = [(ev_dtstart ev_day, ev_dtend ev_day, Some (ev_summary ev_day))]
  /\ exists idx, nc_retrieve_existing_events
                   (Some [mkCollection "personal" (Some [None; Some [remote_day; mkRemote None None None; remote_member]])])
                 = Ok idx
    /\ forall ev, matches_existing ev idx
                  = existsb (key_eqb (new_event_key ev)) (object_keys [None; Some [remote_day; mkRemote None None None; remote_member]]).
Proof.
  assert (Hf : find_personal [mkCollection "personal" (Some [None; Some [remote_day; mkRemote None None None; remote_member]])]
    = Some (mkCollection "personal" (Some [None; Some [remote_day; mkRemote None None None; remote_member]])))
    by (vm_compute; reflexivity).
  split; [exact Hf|]. split; [reflexivity|].
  exact (X_nc_index_keys _ _ _ Hf eq_refl).
Defined.

(** [retrieve_existing_events] of [sync_radicale.py] on a 200 answer
    with a parseable calendar: when every VEVENT has DTSTART and DTEND,
    the index holds exactly their keys; when one lacks either,
    [component.get(...).dt] raises [AttributeError], the fetch fails and
    [main] ends in its handler at once, with no file written and nothing
    sent. *)
Theorem X_rad_index_200 (srv : RadicaleServer) (resp : HttpResponse) (cs : list RemoteVEvent) :
  get_collection srv = Some resp -> status_code resp = 200 -> body_vevents resp = Some cs ->
  (length (leading_keys cs) = length cs ->
     exists idx, rad_retrieve_existing_events srv = Ok idx
       /\ forall ev, matches_existing ev idx = existsb (key_eqb (new_event_key ev)) (leading_keys cs))
  /\ ((length (leading_keys cs) < length cs)%nat ->
     rad_retrieve_existing_events srv = Raise AttributeError
     /\ forall uuid4 utcnow net scraped w, rad_main uuid4 utcnow net srv scraped w = (Ok (Aborted AttributeError), w)).
Proof.
  intros Hg Hs Hb.
  assert (Hr : rad_retrieve_existing_events srv
               = match add_components [] cs with
                 | (idx, None) => Ok idx
                 | (_, Some e) => Raise e
                 end).
  { unfold rad_retrieve_existing_events. rewrite Hg, Hs, Hb. reflexivity. }
  split.
  - intros Hl. exists (fst (add_components [] cs)). split.
    + rewrite Hr. pose proof (add_components_ok [] cs Hl) as Hn.
      destruct (add_components [] cs) as [idx [e|]]; simpl in *; [discriminate|reflexivity].
    + intros ev. rewrite add_components_matches. reflexivity.
  - intros Hl.
    assert (He : rad_retrieve_existing_events srv = Raise AttributeError).
    { rewrite Hr. destruct (add_components [] cs) as [idx [e|]] eqn:E.
      - pose proof (add_components_error [] cs e) as He. rewrite E in He.
        destruct (He eq_refl) as [-> _]. reflexivity.
      - exfalso. revert E Hl. clear. generalize (@nil (EventKey * RemoteVEvent)).
        induction cs as [|c cs IH]; intros idx0 E Hl; simpl in *; [lia|].
        destruct (component_key c) as [k|ex]; simpl in *; [|discriminate].
        apply (IH _ E). lia. }
    split; [exact He|].
    intros uuid4 utcnow net scraped w. cbv [rad_main run_main try_except bind lift ret]. rewrite He. reflexivity.
Qed.

Lemma X_rad_index_200_witness :
  get_collection (mkRadicale (Some (mkResponse 200 (Some [remote_day; mkRemote (Some (ev_dtstart ev_day)) None None]) [])) (fun _ => None))
    = Some (mkResponse 200 (Some [remote_day; mkRemote (Some (ev_dtstart ev_day)) None None]) [])
  /\ rad_main gen now0 net_ok
       (mkRadicale (Some (mkResponse 200 (Some [remote_day; mkRemote (Some (ev_dtstart ev_day)) None None]) [])) (fun _ => None))
       (Ok [day_shift]) w0 = (Ok (Aborted AttributeError), w0).
Proof.
  split; [reflexivity|].
  refine (proj2 (proj2 (X_rad_index_200
    (mkRadicale (Some (mkResponse 200 (Some [remote_day; mkRemote (Some (ev_dtstart ev_day)) None None]) [])) (fun _ => None))
    (mkResponse 200 (Some [remote_day; mkRemote (Some (ev_dtstart ev_day)) None None]) [])
    [remote_day; mkRemote (Some (ev_dtstart ev_day)) None None]
    eq_refl eq_refl eq_refl) _) gen now0 net_ok (Ok [day_shift]) w0).
  vm_compute. lia.
Defined.

Lemma rad_fetch_members_ok (srv : RadicaleServer) (idx : Index) (hrefs : list string) :
  (forall h, In h hrefs ->
     exists r, get_member srv (string_of_list_ascii (strip (list_ascii_of_string h))) = Some r
       /\ (status_code r = 200 -> exists cs, body_vevents r = Some cs /\ length (leading_keys cs) = length cs)) ->
  exists idx', rad_fetch_members srv idx hrefs = Ok idx'
    /\ forall ev, matches_existing ev idx'
                  = matches_existing ev idx || existsb (key_eqb (new_event_key ev)) (flat_map (member_keys srv) hrefs).
Proof.
  revert idx. induction hrefs as [|h hs IH]; intros idx H.
  - exists idx. split; [reflexivity|]. intros ev. simpl. now rewrite orb_false_r.
  - destruct (H h (or_introl eq_refl)) as [r [Hr H200]].
    assert (Hs : forall h', In h' hs -> _) by (intros h' Hh'; exact (H h' (or_intror Hh'))).
    cbn [rad_fetch_members flat_map]. unfold member_keys at 1. rewrite Hr.
    destruct (Z.eqb_spec (status_code r) 200) as [E|E].
    + destruct (H200 E) as [cs [Hb Hl]]. rewrite Hb.
      pose proof (add_components_ok idx cs Hl) as Hn.
      pose proof (add_components_matches) as Hm.
      destruct (add_components idx cs) as [idx1 [e|]] eqn:Ea; cbn [snd] in Hn; [discriminate|].
      destruct (IH idx1 Hs) as [idx' [Hf Hmatch]]. exists idx'. split; [exact Hf|].
      intros ev. rewrite existsb_app, Hmatch. specialize (Hm ev idx cs). rewrite Ea in Hm. cbn [fst] in Hm.
      rewrite Hm. now rewrite orb_assoc.
    + destruct (IH idx Hs) as [idx' [Hf Hmatch]]. exists idx'. split; [exact Hf|].
      intros ev. rewrite existsb_app, Hmatch. reflexivity.
Qed.

(** [retrieve_existing_events] of [sync_radicale.py] on a 207 listing:
    when every listed <href> (stripped) answers its GET, and every 200
    answer is a calendar whose VEVENTs all have DTSTART and DTEND, the
    index holds exactly the keys of the members that answered 200;
    members answering anything else (e.g. 404 for a deleted event) are
    skipped. *)
Theorem X_rad_index_207 (srv : RadicaleServer) (resp : HttpResponse) :
  get_collection srv = Some resp -> status_code resp = 207 ->
  (forall h, In h (body_hrefs resp) ->
     exists r, get_member srv (string_of_list_ascii (strip (list_ascii_of_string h))) = Some r
       /\ (status_code r = 200 -> exists cs, body_vevents r = Some cs /\ length (leading_keys cs) = length cs)) ->
  exists idx, rad_retrieve_existing_events srv = Ok idx
    /\ forall ev, matches_existing ev idx
                  = existsb (key_eqb (new_event_key ev)) (flat_map (member_keys srv) (body_hrefs resp)).
Proof.
  intros Hg Hs Hm.
  destruct (rad_fetch_members_ok srv [] (body_hrefs resp) Hm) as [idx [Hf Hmatch]].
  exists idx. split.
  - unfold rad_retrieve_existing_events. rewrite Hg, Hs. exact Hf.
  - intros ev. rewrite Hmatch. reflexivity.
Qed.

Lemma X_rad_index_207_witness :
  flat_map (member_keys radicale_207) (body_hrefs (mkResponse 207 None [" /cal/a.ics "; "/cal/gone.ics"]))
    = [(ev_dtstart ev_day, ev_dtend ev_day, Some (ev_summary ev_day));
       (ev_dtstart ev_day, ev_dtend ev_day, Some "Other")]
  /\ exists idx, rad_retrieve_existing_events radicale_207 = Ok idx
    /\ forall ev, matches_existing ev idx
                  = existsb (key_eqb (new_event_key ev))
                      (flat_map (member_keys radicale_207) (body_hrefs (mkResponse 207 None [" /cal/a.ics "; "/cal/gone.ics"]))).
Proof.
  split; [vm_compute; reflexivity|].
  apply (X_rad_index_207 radicale_207 (mkResponse 207 None [" /cal/a.ics "; "/cal/gone.ics"]) eq_refl eq_refl).
  intros h Hh. simpl in Hh. destruct Hh as [<-|[<-|[]]].
  - eexists. split; [vm_compute; reflexivity|]. intros _.
    exists [remote_day; remote_member]. split; reflexivity.
  - eexists. split; [vm_compute; reflexivity|]. intros H. discriminate H.
Defined.

(* ------------------------------------------------------------------ *)
(** ** The schedule scrapers *)

Lemma rad_scrape_shifts_fail (day_date : option string) (ss : list PlainShift) (s : PlainShift) :
  In s ss -> shift_read_fails s -> rad_scrape_shifts day_date ss = None.
Proof.
  intros Hin Hf. induction ss as [|s0 ss IH]; [destruct Hin|]. cbn [rad_scrape_shifts].
  destruct Hin as [->|Hin].
  - destruct Hf as [Hf|Hf].
    + destruct (ps_time s) as [t| |] eqn:E; [|reflexivity|reflexivity]. exfalso. apply Hf. now exists t.
    + destruct (ps_time s) as [t| |]; [|reflexivity|reflexivity].
      destruct (ps_details s) as [x| |] eqn:E; [|reflexivity|reflexivity]. exfalso. apply Hf. now exists x.
  - rewrite (IH Hin). destruct (ps_time s0); [|reflexivity|reflexivity].
    destruct (ps_details s0); reflexivity.
Qed.

Lemma rad_scrape_day_fail (d : PlainDay) (rest : list PlainDay) :
  day_read_fails d -> rad_scrape_days (d :: rest) = None.
Proof.
  intros Hf. cbn [rad_scrape_days]. destruct Hf as [Hf|[Hf|(ss & s & Hss & Hin & Hs)]].
  - destruct (pd_date d) as [a| |]; [|reflexivity|reflexivity]. exfalso. apply Hf. now exists a.
  - destruct (pd_date d); [|reflexivity|reflexivity].
    destruct (pd_shifts d) as [ss| |]; [|reflexivity|reflexivity]. exfalso. apply Hf. now exists ss.
  - destruct (pd_date d) as [a| |]; [|reflexivity|reflexivity]. rewrite Hss.
    now rewrite (rad_scrape_shifts_fail a ss s Hin Hs).
Qed.

Lemma rad_scrape_days_app_fail (days1 days2 : list PlainDay) :
  rad_scrape_days days2 = None -> rad_scrape_days (days1 ++ days2) = None.
Proof.
  intros H. induction days1 as [|d days1 IH]; [exact H|]. cbn [app rad_scrape_days].
  destruct (pd_date d); [|reflexivity|reflexivity]. destruct (pd_shifts d); [|reflexivity|reflexivity].
  destruct (rad_scrape_shifts _ _); [|reflexivity]. now rewrite IH.
Qed.

(** [scrape_schedule] of [sync_radicale.py] never returns part of the
    schedule: one day whose attribute or wrappers cannot be read, or one
    wrapper whose [time.label] or [div.details] cannot be read, anywhere
    on the page, makes the whole call raise [NameError] for
    [TimeoutException] (the per-day handler fails on the missing
    [traceback] import and the outer [except TimeoutException] on the
    missing name), and so does a timeout or any other failure while
    loading the page: no [return []] is ever reached. *)
Theorem X_rad_scrape_failure_loses_schedule (days1 days2 : list PlainDay) (d : PlainDay) :
  day_read_fails d ->
  rad_scrape_schedule (PlainDays (days1 ++ d :: days2)) = inl (NameErr "TimeoutException")
  /\ rad_scrape_schedule PlainTimeout = inl (NameErr "TimeoutException")
  /\ rad_scrape_schedule PlainFailed = inl (NameErr "TimeoutException").
Proof.
  intros Hf. split; [|split; reflexivity].
  unfold rad_scrape_schedule. now rewrite rad_scrape_days_app_fail by (apply rad_scrape_day_fail, Hf).
Qed.

Lemma X_rad_scrape_failure_loses_schedule_witness :
  day_read_fails (plain_day "Tue Jan 07 2025 00:00:00 GMT-0500" [plain_no_details])
  /\ rad_scrape_schedule (PlainDays [plain_day "Mon Jan 06 2025 00:00:00 GMT-0500" [plain_office];
                                    plain_day "Tue Jan 07 2025 00:00:00 GMT-0500" [plain_no_details]])
     = inl (NameErr "TimeoutException").
Proof.
  assert (H : day_read_fails (plain_day "Tue Jan 07 2025 00:00:00 GMT-0500" [plain_no_details])).
  { right. right. exists [plain_no_details], plain_no_details. split; [reflexivity|]. split; [left; reflexivity|].
    right. intros [x Hx]. discriminate Hx. }
  split; [exact H|].
  exact (proj1 (X_rad_scrape_failure_loses_schedule [plain_day "Mon Jan 06 2025 00:00:00 GMT-0500" [plain_office]] []
                  _ H)).
Defined.

(** When [scrape_schedule] of [sync_radicale.py] returns, it returns one
    entry per wrapper, in page order, duplicates kept: the day's
    [datetime] attribute as it is (or [None]), the time text cleaned of
    bracketed annotations, and the details text. *)
Theorem X_rad_scrape_entries (page : PlainPage) (es : list PlainEntry) :
  rad_scrape_schedule page = inr es ->
  exists days, page = PlainDays days
    /\ es = flat_map (fun d =>
              match pd_date d, pd_shifts d with
              | Found dt, Found ss =>
                  flat_map (fun s => match ps_time s, ps_details s with
                                     | Found t, Found x => [mkPlainEntry dt (clean_time_range t) x]
                                     | _, _ => []
                                     end) ss
              | _, _ => []
              end) days.
Proof.
  destruct page as [| |days]; simpl; try discriminate.
  intros H. exists days. split; [reflexivity|].
  destruct (rad_scrape_days days) as [es'|] eqn:E; [|discriminate]. injection H as <-.
  revert es' E. induction days as [|d days IH]; intros es' E; cbn [rad_scrape_days] in E.
  - now injection E as <-.
  - cbn [flat_map].
    destruct (pd_date d) as [dt| |]; try discriminate. destruct (pd_shifts d) as [ss| |]; try discriminate.
    destruct (rad_scrape_shifts dt ss) as [es1|] eqn:E1; [|discriminate].
    destruct (rad_scrape_days days) as [es2|] eqn:E2; [|discriminate].
    injection E as <-. rewrite <- (IH es2 eq_refl). f_equal.
    clear -E1. revert es1 E1. induction ss as [|s ss IH]; intros es1 E1; cbn [rad_scrape_shifts] in E1.
    + now injection E1 as <-.
    + cbn [flat_map]. destruct (ps_time s) as [t| |]; try discriminate.
      destruct (ps_details s) as [x| |]; try discriminate.
      destruct (rad_scrape_shifts dt ss) as [es3|] eqn:E3; [|discriminate].
      injection E1 as <-. rewrite <- (IH es3 eq_refl). reflexivity.
Qed.

Lemma X_rad_scrape_entries_witness :
  rad_scrape_schedule (PlainDays [plain_day "Mon Jan 06 2025 00:00:00 GMT-0500" [plain_office; plain_office]])
  = inr [mkPlainEntry (Some "Mon Jan 06 2025 00:00:00 GMT-0500") "9:00 AM - 5:00 PM" "Front Desk";
         mkPlainEntry (Some "Mon Jan 06 2025 00:00:00 GMT-0500") "9:00 AM - 5:00 PM" "Front Desk"]
  /\ exists days, PlainDays [plain_day "Mon Jan 06 2025 00:00:00 GMT-0500" [plain_office; plain_office]] = PlainDays days.
Proof.
  assert (H : rad_scrape_schedule (PlainDays [plain_day "Mon Jan 06 2025 00:00:00 GMT-0500" [plain_office; plain_office]])
    = inr [mkPlainEntry (Some "Mon Jan 06 2025 00:00:00 GMT-0500") "9:00 AM - 5:00 PM" "Front Desk";
           mkPlainEntry (Some "Mon Jan 06 2025 00:00:00 GMT-0500") "9:00 AM - 5:00 PM" "Front Desk"])
    by (vm_compute; reflexivity).
  split; [exact H|].
  destruct (X_rad_scrape_entries _ _ H) as [days [Hd _]]. exists days. exact Hd.
Defined.

Lemma sync_scrape_shifts_fail (day_date : string) (ss : list PlainShift) (s : PlainShift) :
  In s ss -> shift_read_fails s -> exists e, sync_scrape_shifts day_date ss = inl e.
Proof.
  intros Hin Hf. induction ss as [|s0 ss IH]; [destruct Hin|]. cbn [sync_scrape_shifts].
  destruct Hin as [->|Hin].
  - destruct Hf as [Hf|Hf].
    + destruct (ps_time s) as [t| |] eqn:E; cbn [lookup_exn]; [|eexists; reflexivity|eexists; reflexivity].
      exfalso. apply Hf. now exists t.
    + destruct (ps_time s) as [t| |]; cbn [lookup_exn]; [|eexists; reflexivity|eexists; reflexivity].
      destruct (ps_details s) as [x| |] eqn:E; cbn [lookup_exn]; [|eexists; reflexivity|eexists; reflexivity].
      exfalso. apply Hf. now exists x.
  - destruct (IH Hin) as [e He]. rewrite He.
    destruct (lookup_exn (ps_time s0)); [eexists; reflexivity|].
    destruct (lookup_exn (ps_details s0)); eexists; reflexivity.
Qed.

Lemma sync_scrape_day_fail (d : PlainDay) (rest : list PlainDay) :
  day_read_fails d \/ pd_date d = Found None -> exists e, sync_scrape_days (d :: rest) = inl e.
Proof.
  intros Hf. cbn [sync_scrape_days].
  destruct Hf as [[Hf|[Hf|(ss & s & Hss & Hin & Hs)]]|Hn].
  - destruct (pd_date d) as [a| |]; cbn [lookup_exn]; [|eexists; reflexivity|eexists; reflexivity].
    exfalso. apply Hf. now exists a.
  - destruct (pd_date d) as [[a|]| |]; cbn [lookup_exn]; try (eexists; reflexivity).
    destruct (pd_shifts d) as [ss| |]; cbn [lookup_exn]; try (eexists; reflexivity).
    exfalso. apply Hf. now exists ss.
  - destruct (pd_date d) as [[a|]| |]; cbn [lookup_exn]; try (eexists; reflexivity).
    rewrite Hss. cbn [lookup_exn].
    destruct (sync_scrape_shifts_fail (string_of_list_ascii (before_gmt (list_ascii_of_string a))) ss s Hin Hs)
      as [e He].
    rewrite He. eexists; reflexivity.
  - rewrite Hn. eexists; reflexivity.
Qed.

Lemma sync_scrape_days_app_fail (days1 days2 : list PlainDay) :
  (exists e, sync_scrape_days days2 = inl e) -> exists e, sync_scrape_days (days1 ++ days2) = inl e.
Proof.
  intros H. induction days1 as [|d days1 IH]; [exact H|]. cbn [app sync_scrape_days].
  destruct IH as [e He].
  destruct (lookup_exn (pd_date d)) as [|[a|]]; try (eexists; reflexivity).
  destruct (lookup_exn (pd_shifts d)); [eexists; reflexivity|].
  destruct (sync_scrape_shifts _ _); [eexists; reflexivity|].
  rewrite He. eexists; reflexivity.
Qed.

(** [scrape_schedule] of [sync.py] has no handler: a day whose attribute
    or wrappers cannot be read, a day without a [datetime] attribute
    ([None.split]), or a wrapper whose [time.label] or [div.details]
    cannot be read, anywhere on the page, makes the whole call raise; a
    timeout of the wait raises [TimeoutException] and another failure
    while loading the page raises that failure. *)
Theorem X_sync_scrape_failure_propagates (days1 days2 : list PlainDay) (d : PlainDay) :
  day_read_fails d \/ pd_date d = Found None ->
  (exists e, sync_scrape_schedule (PlainDays (days1 ++ d :: days2)) = inl e)
  /\ sync_scrape_schedule PlainTimeout = inl SeleniumTimeout
  /\ sync_scrape_schedule PlainFailed = inl SeleniumOther.
Proof.
  intros Hf. split; [|split; reflexivity].
  apply sync_scrape_days_app_fail, sync_scrape_day_fail, Hf.
Qed.

Lemma X_sync_scrape_failure_propagates_witness :
  sync_scrape_schedule (PlainDays [plain_day "Mon Jan 06 2025 00:00:00 GMT-0500" [plain_office];
                                   mkPlainDay (Found None) (Found [plain_office])])
  = inl NoneAttributeError
  /\ exists e, sync_scrape_schedule (PlainDays [plain_day "Mon Jan 06 2025 00:00:00 GMT-0500" [plain_office];
                                               mkPlainDay (Found None) (Found [plain_office])]) = inl e.
Proof.
  split; [vm_compute; reflexivity|].
  exact (proj1 (X_sync_scrape_failure_propagates [plain_day "Mon Jan 06 2025 00:00:00 GMT-0500" [plain_office]] []
                  (mkPlainDay (Found None) (Found [plain_office])) (or_intror eq_refl))).
Defined.

(** When [scrape_schedule] of [sync.py] returns, it returns one entry per
    wrapper, in page order, duplicates kept: the day's [datetime]
    attribute cut at its first " GMT", the time text cleaned of
    bracketed annotations, and the details text; every day had a
    [datetime] attribute. *)
Theorem X_sync_scrape_entries (page : PlainPage) (es : list PlainEntry) :
  sync_scrape_schedule page = inr es ->
  exists days, page = PlainDays days
    /\ Forall (fun d => exists attr, pd_date d = Found (Some attr)) days
    /\ es = flat_map (fun d =>
              match pd_date d, pd_shifts d with
              | Found (Some attr), Found ss =>
                  flat_map (fun s => match ps_time s, ps_details s with
                                     | Found t, Found x =>
                                         [mkPlainEntry (Some (string_of_list_ascii (before_gmt (list_ascii_of_string attr))))
                                                       (clean_time_range t) x]
                                     | _, _ => []
                                     end) ss
              | _, _ => []
              end) days.
Proof.
  destruct page as [| |days]; simpl; try discriminate.
  intros H. exists days. split; [reflexivity|].
  revert es H. induction days as [|d days IH]; intros es E; cbn [sync_scrape_days] in E.
  - injection E as <-. split; [constructor|reflexivity].
  - destruct (pd_date d) as [[attr|]| |] eqn:Ed; cbn [lookup_exn] in E; try discriminate.
    destruct (pd_shifts d) as [ss| |] eqn:Es; cbn [lookup_exn] in E; try discriminate.
    destruct (sync_scrape_shifts _ ss) as [|es1] eqn:E1; [discriminate|].
    destruct (sync_scrape_days days) as [|es2] eqn:E2; [discriminate|].
    injection E as <-. destruct (IH es2 eq_refl) as [Hall ->].
    split; [constructor; [exists attr; exact Ed|exact Hall]|].
    cbn [flat_map]. rewrite Ed, Es. f_equal.
    clear -E1. revert es1 E1. induction ss as [|s ss IH]; intros es1 E1; cbn [sync_scrape_shifts] in E1.
    + now injection E1 as <-.
    + cbn [flat_map]. destruct (ps_time s) as [t| |]; cbn [lookup_exn] in E1; try discriminate.
      destruct (ps_details s) as [x| |]; cbn [lookup_exn] in E1; try discriminate.
      destruct (sync_scrape_shifts _ ss) as [|es3] eqn:E3; [discriminate|].
      injection E1 as <-. rewrite <- (IH es3 eq_refl). reflexivity.
Qed.

Lemma X_sync_scrape_entries_witness :
  sync_scrape_schedule (PlainDays [plain_day "Mon Jan 06 2025 00:00:00 GMT-0500" [plain_office]])
  = inr [mkPlainEntry (Some "Mon Jan 06 2025 00:00:00") "9:00 AM - 5:00 PM" "Front Desk"]
  /\ exists days, PlainDays [plain_day "Mon Jan 06 2025 00:00:00 GMT-0500" [plain_office]] = PlainDays days.
Proof.
  assert (H : sync_scrape_schedule (PlainDays [plain_day "Mon Jan 06 2025 00:00:00 GMT-0500" [plain_office]])
    = inr [mkPlainEntry (Some "Mon Jan 06 2025 00:00:00") "9:00 AM - 5:00 PM" "Front Desk"])
    by (vm_compute; reflexivity).
  split; [exact H|].
  destruct (X_sync_scrape_entries _ _ H) as [days [Hd _]]. exists days. exact Hd.
Defined.

Lemma is_prefix_app_long (p a m : lstr) :
  (length p <= length a)%nat -> is_prefix p (a ++ m) = is_prefix p a.
Proof.
  revert a. induction p as [|c p IH]; intros a Hl; [reflexivity|].
  destruct a as [|b a]; simpl in Hl; [lia|]. cbn [app is_prefix]. rewrite IH by lia. reflexivity.
Qed.

(** [attr.split(' GMT')[0]] in [scrape_schedule] of [sync.py]: an
    attribute [a ++ " GMT" ++ b] in which [a] holds no " GMT" is stored
    as [a], and an attribute that holds no " GMT" at all is stored whole. *)
Theorem X_sync_date_before_gmt (a b : lstr) :
  (forall i, is_prefix (list_ascii_of_string " GMT") (skipn i a) = false) ->
  before_gmt (a ++ list_ascii_of_string " GMT" ++ b) = a /\ before_gmt a = a.
Proof.
  intros H. induction a as [|c r IH].
  - split; reflexivity.
  - assert (Hr : forall i, is_prefix (list_ascii_of_string " GMT") (skipn i r) = false)
      by (intros i; exact (H (S i))).
    destruct (IH Hr) as [IH1 IH2]. pose proof (H 0%nat) as H0. cbn [skipn] in H0.
    split.
    + cbn [app before_gmt]. rewrite IH1.
      destruct r as [|c2 [|c3 [|c4 r']]].
      * cbn [app list_ascii_of_string is_prefix]. change (ceq " " "G") with false.
        rewrite andb_false_r. reflexivity.
      * cbn [app list_ascii_of_string is_prefix]. change (ceq " " "M") with false.
        rewrite !andb_false_r. reflexivity.
      * cbn [app list_ascii_of_string is_prefix]. change (ceq " " "T") with false.
        rewrite !andb_false_r. reflexivity.
      * change (c :: (c2 :: c3 :: c4 :: r') ++ list_ascii_of_string " GMT" ++ b)
          with ((c :: c2 :: c3 :: c4 :: r') ++ list_ascii_of_string " GMT" ++ b).
        rewrite is_prefix_app_long by (simpl; lia). rewrite H0. reflexivity.
    + cbn [before_gmt]. rewrite H0, IH2. reflexivity.
Qed.

Lemma X_sync_date_before_gmt_witness :
  before_gmt (list_ascii_of_string "Mon Jan 06 2025 00:00:00" ++ list_ascii_of_string " GMT" ++ list_ascii_of_string "-0500")
  = list_ascii_of_string "Mon Jan 06 2025 00:00:00".
Proof.
  assert (H : forall i, is_prefix (list_ascii_of_string " GMT")
                          (skipn i (list_ascii_of_string "Mon Jan 06 2025 00:00:00")) = false).
  { intros i. do 25 (destruct i as [|i]; [reflexivity|]). destruct i; reflexivity. }
  exact (proj1 (X_sync_date_before_gmt _ (list_ascii_of_string "-0500") H)).
Defined.

(** [scrape_schedule] of [sync_nextcloud.py]: when the [datetime]
    attribute of the first day cannot be read, the day's handler formats
    its message with [day_date], which is not bound yet; that error
    leaves the handler, the outer [except Exception] logs "An error
    occurred" and the call returns [[]], dropping every later day. *)
Theorem X_nc_scrape_first_day_unbound (day : DayBlock) (rest : list DayBlock) :
  (forall d, day_date day <> Found d) ->
  nc_scrape_schedule (PageDays (day :: rest)) = (Some [], [LogError "An error occurred"]).
Proof.
  intros H. unfold nc_scrape_schedule. cbn [scrape_days]. unfold process_day.
  destruct (day_date day) as [d| |]; [exfalso; exact (H d eq_refl) | reflexivity | reflexivity].
Qed.

Lemma X_nc_scrape_first_day_unbound_witness :
  (forall d, day_date (mkDay NoSuchElement (Found [office_shift]) true) <> Found d)
  /\ nc_scrape_schedule (PageDays [mkDay NoSuchElement (Found [office_shift]) true;
                                   mkDay (Found "2025-01-07") (Found [office_shift]) true])
     = (Some [], [LogError "An error occurred"]).
Proof.
  assert (H : forall d, day_date (mkDay NoSuchElement (Found [office_shift]) true) <> Found d)
    by (intros d; discriminate).
  split; [exact H|].
  exact (X_nc_scrape_first_day_unbound _ [mkDay (Found "2025-01-07") (Found [office_shift]) true] H).
Defined.
